(** * Glucose model trainer: a shallow embedding of [software/train_model.py]

    The pipeline is embedded stage by stage: the dataset loader, the
    preprocessor, the scaler, the model factory, the two statements that
    compute the clinical accuracy (as text, because they are not complete
    statements) and the coefficient exporter with the part of the file
    system it acts on.

    Numbers.  The script computes on IEEE doubles.  Here a finite double is a
    rational ([Q]), a missing cell (pandas' NaN) is [None], and the two
    derived features, which come out of a division, range over [xfloat], which
    adds the two infinities and NaN.  Rounding and signed zeros are outside
    the model. *)

From Stdlib Require Import ZArith QArith Qround Lia Lqa List Bool Ascii String.
From Stdlib Require Import Qabs DecimalString DecimalNat Sorted.
From stdpp Require Import base strings gmap.
Import ListNotations.

Local Open Scope Q_scope.

(** ** Exceptions and results *)

Inductive exn : Type :=
| ValueError (msg : string)
| NotFittedError (msg : string)
| OSError (msg : string)
| ParserError (msg : string).

(** [str(e)]. *)
Definition exn_message (e : exn) : string :=
  match e with
  | ValueError msg | NotFittedError msg | OSError msg | ParserError msg => msg
  end.

Inductive result (A : Type) : Type :=
| Ok (a : A)
| Raise (e : exn).
Arguments Ok {A} a.
Arguments Raise {A} e.

Definition rbind {A B} (r : result A) (k : A -> result B) : result B :=
  match r with
  | Ok a => k a
  | Raise e => Raise e
  end.

(** ** Cells and floating-point values *)

(** A numeric cell of a data frame: [None] is NaN (a missing value). *)
Definition cell : Type := option Q.

Inductive xfloat : Type :=
| Finite (q : Q)
| PosInf
| NegInf
| NaN.

Definition is_finite (x : xfloat) : bool :=
  match x with
  | Finite _ => true
  | _ => false
  end.

Definition cadd (a b : cell) : cell :=
  match a, b with
  | Some x, Some y => Some (x + y)
  | _, _ => None
  end.

Definition csub (a b : cell) : cell :=
  match a, b with
  | Some x, Some y => Some (x - y)
  | _, _ => None
  end.

Definition cmul (a b : cell) : cell :=
  match a, b with
  | Some x, Some y => Some (x * y)
  | _, _ => None
  end.

(** Comparisons with NaN are false. *)
Definition cle (a b : cell) : bool :=
  match a, b with
  | Some x, Some y => Qle_bool x y
  | _, _ => false
  end.

Definition cge (a b : cell) : bool := cle b a.

Definition Qlt_bool (x y : Q) : bool := negb (Qle_bool y x).

(** Division of two cells as numpy does it: no exception, a zero divisor
    gives an infinity of the sign of the dividend, and 0/0 gives NaN. *)
Definition cdiv (a b : cell) : xfloat :=
  match a, b with
  | Some x, Some y =>
      if Qeq_bool y 0 then
        if Qlt_bool 0 x then PosInf
        else if Qlt_bool x 0 then NegInf
        else NaN
      else Finite (x / y)
  | _, _ => NaN
  end.

(** ** Order statistics *)

Fixpoint insert_sorted (x : Q) (l : list Q) : list Q :=
  match l with
  | [] => [x]
  | y :: l' => if Qle_bool x y then x :: l else y :: insert_sorted x l'
  end.

Definition sort_values (l : list Q) : list Q := fold_right insert_sorted [] l.

Fixpoint dropna (l : list cell) : list Q :=
  match l with
  | [] => []
  | Some x :: l' => x :: dropna l'
  | None :: l' => dropna l'
  end.

(** [Series.quantile(q)]: NaN is skipped, and the value at the fractional
    position [q * (n - 1)] of the sorted values is interpolated linearly.  An
    empty series gives NaN. *)
Definition quantile (q : Q) (s : list cell) : cell :=
  match sort_values (dropna s) with
  | [] => None
  | (v0 :: _) as vs =>
      let pos := q * inject_Z (Z.of_nat (List.length vs) - 1) in
      let lo := Qfloor pos in
      let t := pos - inject_Z lo in
      let a := nth (Z.to_nat lo) vs v0 in
      let b := nth (S (Z.to_nat lo)) vs a in
      Some (a + (b - a) * t)
  end.

(** The median of [SimpleImputer(strategy='median')] over the present
    values. *)
Definition median (s : list cell) : cell :=
  match sort_values (dropna s) with
  | [] => None
  | (v0 :: _) as vs =>
      let n := List.length vs in
      if Nat.even n
      then Some ((nth (n / 2 - 1) vs v0 + nth (n / 2) vs v0) / 2)
      else Some (nth (n / 2) vs v0)
  end.

(** ** Data model *)

(** One observation as loaded. *)
Record RawRow : Type := mkRawRow {
  timestamp : string;
  ratio : cell;
  variability : cell;
  slope : cell;
  glucose : cell
}.

(** One observation with the two derived features. *)
Record Row : Type := mkRow {
  raw : RawRow;
  pulse_rate : xfloat;
  acdc_ratio : xfloat
}.

Inductive Column : Type := Ratio | Variability | Slope | Glucose.

Definition raw_col (c : Column) (r : RawRow) : cell :=
  match c with
  | Ratio => ratio r
  | Variability => variability r
  | Slope => slope r
  | Glucose => glucose r
  end.

Definition col (c : Column) (r : Row) : cell := raw_col c (raw r).

Module Preprocessor.

(** *** Imputation *)

Definition fillna (fill : Q) (c : cell) : cell :=
  match c with
  | Some x => Some x
  | None => Some fill
  end.

(** [imputer.fit_transform(data[['ratio', 'variability', 'slope']])]
    assigned back to the three columns.  scikit-learn refuses a frame
    without rows, and drops a column without any present value, so that the
    assignment of the narrower array fails; both raise [ValueError]. *)
Definition impute (data : list RawRow) : result (list RawRow) :=
  match data with
  | [] => Raise (ValueError "Found array with 0 sample(s)")
  | _ =>
      match median (map ratio data), median (map variability data),
            median (map slope data) with
      | Some mr, Some mv, Some ms =>
          Ok (map (fun r =>
                     mkRawRow (timestamp r) (fillna mr (ratio r))
                       (fillna mv (variability r)) (fillna ms (slope r))
                       (glucose r)) data)
      | _, _, _ => Raise (ValueError "Columns must be same length as key")
      end
  end.

(** *** Physiological filter *)

Definition physiological (r : RawRow) : bool :=
  cge (glucose r) (Some 40) && cle (glucose r) (Some 400).

(** *** Derived features *)

Definition epsilon : Q := 1 # 1000000.

Definition add_features (r : RawRow) : Row :=
  mkRow r
    (cdiv (Some 60) (cadd (variability r) (Some epsilon)))
    (cdiv (variability r) (ratio r)).

(** *** Outlier removal *)

Definition within_iqr (factor : Q) (q1 q3 : cell) (v : cell) : bool :=
  let iqr := csub q3 q1 in
  cge v (csub q1 (cmul (Some factor) iqr))
  && cle v (cadd q3 (cmul (Some factor) iqr)).

Fixpoint remove_outliers (df : list Row) (columns : list Column)
    (factor : Q) : list Row :=
  match columns with
  | [] => df
  | c :: columns' =>
      let q1 := quantile (1 # 4) (map (col c) df) in
      let q3 := quantile (3 # 4) (map (col c) df) in
      remove_outliers
        (List.filter (fun r => within_iqr factor q1 q3 (col c r)) df)
        columns' factor
  end.

Definition outlier_columns : list Column :=
  [Ratio; Variability; Slope; Glucose].

Definition default_factor : Q := 3 # 2.

(** [preprocess_data]; the summary it prints is left out. *)
Definition preprocess_data (data : list RawRow) : result (list Row) :=
  rbind (impute data) (fun data =>
  let data := List.filter physiological data in
  let data := map add_features data in
  Ok (remove_outliers data outlier_columns default_factor)).

End Preprocessor.

(** ** Strings and paths *)

Definition nl : string := String "010"%char EmptyString.

Definition startswith (s pre : string) : bool := String.prefix pre s.

Definition endswith (s suf : string) : bool :=
  let n := String.length s in
  let k := String.length suf in
  (k <=? n)%nat && String.eqb (substring (n - k) k s) suf.

(** [os.path.join] of two components on a POSIX system. *)
Definition path_join (a p : string) : string :=
  if startswith p "/" then p
  else if String.eqb a "" || endswith a "/" then a +:+ p
  else a +:+ "/" +:+ p.

(** A path without its trailing separators. *)
Fixpoint rstrip_slash (s : string) : string :=
  match s with
  | EmptyString => EmptyString
  | String c s' =>
      match rstrip_slash s' with
      | EmptyString =>
          if Ascii.eqb c "/" then EmptyString else String c EmptyString
      | r => String c r
      end
  end.

(** A path cut after its last separator. *)
Fixpoint rsplit_slash (s : string) : string * string :=
  match s with
  | EmptyString => (EmptyString, EmptyString)
  | String c s' =>
      let '(h, t) := rsplit_slash s' in
      match h with
      | EmptyString =>
          if Ascii.eqb c "/" then (String c EmptyString, t)
          else (EmptyString, String c t)
      | _ => (String c h, t)
      end
  end.

(** [os.path.split] on a POSIX system: the directory part, without trailing
    separators unless it consists of separators only, and the last
    component. *)
Definition path_split (p : string) : string * string :=
  let '(h, t) := rsplit_slash p in
  (match rstrip_slash h with
   | EmptyString => h
   | r => r
   end, t).

(** [sub in s]. *)
Fixpoint contains (s sub : string) : bool :=
  String.prefix sub s
  || match s with
     | EmptyString => false
     | String _ s' => contains s' sub
     end.

Fixpoint last_char (s : string) : option ascii :=
  match s with
  | EmptyString => None
  | String c EmptyString => Some c
  | String _ s' => last_char s'
  end.

(** [str(n)] of a non-negative integer. *)
Definition str_nat (n : nat) : string :=
  NilZero.string_of_uint (Nat.to_uint n).

Definition digit_char (d : nat) : ascii := ascii_of_nat (48 + d mod 10).

(** The last [k] decimal digits of [n], most significant first, padded with
    zeros: the fields of a time stamp and the decimals of the [f] format. *)
Fixpoint pad_digits (k n : nat) : string :=
  match k with
  | O => EmptyString
  | S k' => pad_digits k' (n / 10) +:+ String (digit_char n) EmptyString
  end.

(** Rounding to the nearest integer, ties to even, as the [f] format does on
    the exact value of its argument. *)
Definition round_half_even (q : Q) : Z :=
  let fl := Qfloor q in
  let rem := q - inject_Z fl in
  if Qlt_bool rem (1 # 2) then fl
  else if Qlt_bool (1 # 2) rem then (fl + 1)%Z
  else if Z.even fl then fl else (fl + 1)%Z.

(** [f"{x:.6f}"]. *)
Definition format_6f (x : Q) : string :=
  let r := round_half_even (Qabs x * 1000000) in
  (if Qlt_bool x 0 then "-" else "")
  +:+ str_nat (Z.to_nat (r / 1000000))
  +:+ "." +:+ pad_digits 6 (Z.to_nat (r mod 1000000)).

Definition is_digit (c : ascii) : bool :=
  (48 <=? nat_of_ascii c)%nat && (nat_of_ascii c <=? 57)%nat.

Fixpoint all_digits (s : string) : bool :=
  match s with
  | EmptyString => true
  | String c s' => is_digit c && all_digits s'
  end.

(** A decimal literal with exactly six digits after the point. *)
Definition six_decimals (s : string) : Prop :=
  exists sign whole frac : string,
    s = sign +:+ whole +:+ "." +:+ frac
    /\ (sign = "" \/ sign = "-")%string
    /\ whole <> ""%string
    /\ all_digits whole = true
    /\ all_digits frac = true
    /\ String.length frac = 6%nat.

(** ** State with exceptions *)

(** A computation on a state [S] that returns or raises; the state reached
    is kept in both cases. *)
Definition M (S A : Type) : Type := S -> result A * S.

Definition ret {S A} (a : A) : M S A := fun s => (Ok a, s).

Definition bind {S A B} (m : M S A) (k : A -> M S B) : M S B :=
  fun s =>
    match m s with
    | (Ok a, s') => k a s'
    | (Raise e, s') => (Raise e, s')
    end.

Definition modify {S} (f : S -> S) : M S unit := fun s => (Ok tt, f s).

Declare Scope monad_scope.
Delimit Scope monad_scope with monad.
Notation "'let*' x ':=' m 'in' k" := (bind m (fun x => k))
  (at level 10, x name, m at level 100, k at level 200) : monad_scope.
Notation "m ';;' k" := (bind m (fun _ => k))
  (at level 100, k at level 200, right associativity) : monad_scope.

(** ** DatasetLoader *)

Module Loader.

(** A cell of a column other than the five that the script names: a
    number, a text, or a missing value. *)
Inductive Value : Type :=
| Number (q : Q)
| Textual (s : string)
| Missing.

(** One row of a frame as read: the five named fields, and the cells of
    the other columns by column name.  A column that is not listed is
    missing in the row, as it is after [pd.concat] for the rows of a file
    that lacks the column. *)
Record FrameRow : Type := mkFrameRow {
  fields : RawRow;
  others : list (string * Value)
}.

Record DataFrame : Type := mkFrame {
  columns : list string;
  rows : list FrameRow
}.

Definition union_columns (a b : list string) : list string :=
  a ++ List.filter (fun c => negb (existsb (String.eqb c) a)) b.

(** [pd.concat(dfs, ignore_index=True)]: the rows in order, over the union
    of the columns. *)
Definition concat (dfs : list DataFrame) : DataFrame :=
  mkFrame (fold_left union_columns (map columns dfs) [])
          (List.concat (map rows dfs)).

Definition cell_eqb (a b : cell) : bool :=
  match a, b with
  | Some x, Some y => Qeq_bool x y
  | None, None => true
  | _, _ => false
  end.

Definition value_eqb (a b : Value) : bool :=
  match a, b with
  | Number x, Number y => Qeq_bool x y
  | Textual x, Textual y => String.eqb x y
  | Missing, Missing => true
  | _, _ => false
  end.

Definition fields_eqb (a b : RawRow) : bool :=
  String.eqb (timestamp a) (timestamp b)
  && cell_eqb (ratio a) (ratio b)
  && cell_eqb (variability a) (variability b)
  && cell_eqb (slope a) (slope b)
  && cell_eqb (glucose a) (glucose b).

Definition other_cell (c : string) (r : FrameRow) : Value :=
  match List.find (fun kv => String.eqb (fst kv) c) (others r) with
  | Some kv => snd kv
  | None => Missing
  end.

(** Two rows are duplicates when they agree in every column of the frame;
    missing values count as equal. *)
Definition row_eqb (cols : list string) (a b : FrameRow) : bool :=
  fields_eqb (fields a) (fields b)
  && forallb (fun c => value_eqb (other_cell c a) (other_cell c b)) cols.

(** [drop_duplicates()]: the first occurrence of each row is kept. *)
Fixpoint drop_duplicates_from (cols : list string) (seen : list FrameRow)
    (l : list FrameRow) : list FrameRow :=
  match l with
  | [] => []
  | r :: l' =>
      if existsb (row_eqb cols r) seen then drop_duplicates_from cols seen l'
      else r :: drop_duplicates_from cols (r :: seen) l'
  end.

Definition drop_duplicates (cols : list string) (l : list FrameRow)
    : list FrameRow :=
  drop_duplicates_from cols [] l.

Definition has_glucose (r : FrameRow) : bool :=
  match glucose (fields r) with
  | Some _ => true
  | None => false
  end.

Definition required_cols : list string :=
  ["timestamp"; "ratio"; "variability"; "slope"; "glucose"]%string.

Section WithFiles.

(** The file system and the CSV parser, as the loader sees them. *)
Variable isdir : string -> bool.
Variable listdir : string -> list string.
Variable read_csv : string -> result DataFrame.
(** The text of a Python set, whose order of elements is not fixed. *)
Variable str_set : list string -> string.

(** The loop over the files of a directory: the frames parsed and the
    lines printed. *)
Fixpoint load_files (data_path : string) (files : list string)
    : list DataFrame * list string :=
  match files with
  | [] => ([], [])
  | file :: files' =>
      let file_path := path_join data_path file in
      let '(dfs, out) := load_files data_path files' in
      match read_csv file_path with
      | Ok df =>
          (df :: dfs,
           ("Loaded " +:+ file +:+ " with "
              +:+ str_nat (List.length (rows df)) +:+ " records") :: out)
      | Raise e =>
          (dfs,
           ("Error loading " +:+ file +:+ ": " +:+ exn_message e) :: out)
      end
  end.

(** Lines 36 to 56: one frame out of a directory or a single file. *)
Definition read_frames (data_path : string)
    : result DataFrame * list string :=
  if isdir data_path then
    let files :=
      List.filter (fun f => endswith f ".csv") (listdir data_path) in
    let '(dfs, out) := load_files data_path files in
    match dfs with
    | [] => (Raise (ValueError "No valid CSV files found in directory"),
             out)
    | _ => (Ok (concat dfs), out)
    end
  else
    match read_csv data_path with
    | Ok data =>
        (Ok data,
         ["Loaded single file with "
            +:+ str_nat (List.length (rows data)) +:+ " records"])
    | Raise e => (Raise e, [])
    end.

(** The files of the directory that the loop visits. *)
Definition csv_files (data_path : string) : list string :=
  List.filter (fun f => endswith f ".csv") (listdir data_path).

(** The frames of the files that parse, in listing order: what the
    specification says the directory load keeps. *)
Definition parsed_frames (data_path : string) (files : list string)
    : list DataFrame :=
  flat_map
    (fun f =>
       match read_csv (path_join data_path f) with
       | Ok df => [df]
       | Raise _ => []
       end)
    files.

(** [load_data]: the frame returned and the lines printed while reading;
    the table of descriptive statistics printed at the end is left out. *)
Definition load_data (data_path : string)
    : result DataFrame * list string :=
  match read_frames data_path with
  | (Ok data, out) =>
      let missing :=
        List.filter
          (fun c => negb (existsb (String.eqb c) (columns data)))
          required_cols in
      match missing with
      | [] =>
          let rs := drop_duplicates (columns data) (rows data) in
          let rs := List.filter has_glucose rs in
          (Ok (mkFrame (columns data) rs), out)
      | _ =>
          (Raise (ValueError
                    ("Missing required columns: " +:+ str_set missing)),
           out)
      end
  | (Raise e, out) => (Raise e, out)
  end.

End WithFiles.

End Loader.

(** ** Splitter/Scaler *)

Module Scaler.

(** A feature matrix, one list of values per row. *)
Definition Matrix : Type := list (list xfloat).

Definition of_cell (c : cell) : xfloat :=
  match c with
  | Some q => Finite q
  | None => NaN
  end.

(** [processed_data[['ratio', 'variability', 'slope', 'pulse_rate',
    'acdc_ratio']]], one row. *)
Definition features_of (r : Row) : list xfloat :=
  [of_cell (col Ratio r); of_cell (col Variability r);
   of_cell (col Slope r); pulse_rate r; acdc_ratio r].

(** The fitted attributes of a [StandardScaler]. *)
Record StandardScaler : Type := mkScaler {
  mean_ : list cell;
  var_ : list cell
}.

Definition is_inf (x : xfloat) : bool :=
  match x with
  | PosInf | NegInf => true
  | _ => false
  end.

Definition has_inf (X : Matrix) : bool := existsb (existsb is_inf) X.

Definition column (j : nat) (X : Matrix) : list xfloat :=
  map (fun r => nth j r NaN) X.

(** The values of a column that are present; NaN is ignored by the fit. *)
Fixpoint present (xs : list xfloat) : list Q :=
  match xs with
  | [] => []
  | Finite q :: xs' => q :: present xs'
  | _ :: xs' => present xs'
  end.

Definition Qsum (vs : list Q) : Q := fold_right Qplus 0 vs.

Definition mean (vs : list Q) : cell :=
  match vs with
  | [] => None
  | _ => Some (Qsum vs / inject_Z (Z.of_nat (List.length vs)))
  end.

(** The population variance. *)
Definition variance (vs : list Q) : cell :=
  match mean vs with
  | None => None
  | Some m => mean (map (fun v => (v - m) * (v - m)) vs)
  end.

(** The validation that scikit-learn applies to the argument of [fit] and
    of [transform]: no infinite entry (NaN is let through), at least one
    row and at least one column. *)
Definition check_array (X : Matrix) : result unit :=
  if has_inf X then Raise (ValueError "Input X contains infinity")
  else
    match X with
    | [] => Raise (ValueError "Found array with 0 sample(s)")
    | r0 :: _ =>
        if (List.length r0 =? 0)%nat
        then Raise (ValueError "Found array with 0 feature(s)")
        else Ok tt
    end.

(** [fit]: the mean and the population variance of every column. *)
Definition fit (X : Matrix) : result StandardScaler :=
  rbind (check_array X) (fun _ =>
  let js := seq 0 (List.length (hd [] X)) in
  Ok (mkScaler
        (map (fun j => mean (present (column j X))) js)
        (map (fun j => variance (present (column j X))) js))).

Section WithSqrt.

Variable sqrt : Q -> Q.

(** [scale_]: the standard deviation, and 1 for a constant column. *)
Definition scale_of (v : cell) : cell :=
  match v with
  | None => None
  | Some v => if Qeq_bool v 0 then Some 1 else Some (sqrt v)
  end.

Definition scale_value (m s : cell) (x : xfloat) : xfloat :=
  match x, m, s with
  | Finite q, Some m, Some s => Finite ((q - m) / s)
  | _, _, _ => NaN
  end.

Fixpoint scale_row (ms ss : list cell) (r : list xfloat) : list xfloat :=
  match ms, ss, r with
  | m :: ms', s :: ss', x :: r' =>
      scale_value m s x :: scale_row ms' ss' r'
  | _, _, _ => []
  end.

(** [transform] with fitted attributes [p]: the argument is validated as
    for [fit], and must have the number of columns seen by [fit]. *)
Definition transform_with (p : StandardScaler) (X : Matrix)
    : result Matrix :=
  rbind (check_array X) (fun _ =>
  if negb (forallb (fun r => (List.length r =? List.length (mean_ p))%nat) X)
  then Raise (ValueError "X has a different number of features")
  else Ok (map (scale_row (mean_ p) (map scale_of (var_ p))) X)).

(** The scaler object: unfitted ([None]) until [fit] succeeds. *)
Definition fit_transform (X : Matrix) : M (option StandardScaler) Matrix :=
  fun _ =>
    match fit X with
    | Ok p => (transform_with p X, Some p)
    | Raise e => (Raise e, None)
    end.

Definition transform (X : Matrix) : M (option StandardScaler) Matrix :=
  fun s =>
    match s with
    | Some p => (transform_with p X, s)
    | None =>
        (Raise (NotFittedError "This StandardScaler instance is not fitted yet"),
         s)
    end.

(** Lines 275 to 277 of [main]. *)
Definition standardize (X_train X_test : Matrix)
    : M (option StandardScaler) (Matrix * Matrix) :=
  (let* X_train' := fit_transform X_train in
   let* X_test' := transform X_test in
   ret (X_train', X_test'))%monad.

(** [scaler = StandardScaler()] followed by the two calls: the result and
    the scaler as it is left. *)
Definition run_standardize (X_train X_test : Matrix)
    : result (Matrix * Matrix) * option StandardScaler :=
  standardize X_train X_test None.

End WithSqrt.

End Scaler.

(** ** ModelFactory *)

(** An estimator as constructed, before fitting. *)
Inductive Estimator : Type :=
| LinearRegression
| RandomForestRegressor (n_estimators max_depth random_state : Z)
| GradientBoostingRegressor (n_estimators : Z) (learning_rate : Q)
    (max_depth random_state : Z).

Module ModelFactory.

Section WithFit.

Variables X Y Fitted : Type.
(** [model.fit(X_train, y_train)] of scikit-learn; returns the fitted
    model. *)
Variable fit : Estimator -> X -> Y -> result Fitted.

(** [train_model]; the line it prints first is left out. *)
Definition train_model (X_train : X) (y_train : Y) (model_type : string)
    : result Fitted :=
  if String.eqb model_type "linear" then
    fit LinearRegression X_train y_train
  else if String.eqb model_type "random_forest" then
    fit (RandomForestRegressor 100 5 42) X_train y_train
  else if String.eqb model_type "gradient_boosting" then
    fit (GradientBoostingRegressor 100 (1 # 10) 3 42) X_train y_train
  else
    Raise (ValueError ("Unknown model type: " +:+ model_type)).

End WithFit.

Definition supported : list string :=
  ["linear"; "random_forest"; "gradient_boosting"]%string.

End ModelFactory.

(** ** The clinical-accuracy statements, as text *)

Module SourceText.

Definition dq : string := String "034"%char EmptyString.

(** Lines 294 to 297 of the script, as committed. *)
Definition line_294 : string :=
  "    within_15 = np.mean(np.abs(results['actuals'] - results['predictions']) < 15".

Definition line_295 : string :=
  "    within_20 = np.mean(np.abs(results['actuals'] - results['predictions']) < 20".

Definition line_296 : string :=
  "    print(f" +:+ dq
  +:+ "Clinical Accuracy (within 15 mg/dL): {within_15*100:.1f}%"
  +:+ dq +:+ ")".

Definition line_297 : string :=
  "    print(f" +:+ dq
  +:+ "Clinical Accuracy (within 20 mg/dL): {within_20*100:.1f}%"
  +:+ dq +:+ ")".

(** Where Python's tokenizer is within a physical line: in code, in a
    string literal opened by the quote [q], or just after a backslash in
    such a literal. *)
Inductive lex_state : Type :=
| Code
| InString (q : ascii)
| Escaped (q : ascii).

Definition is_opener (c : ascii) : bool :=
  Ascii.eqb c "(" || Ascii.eqb c "[" || Ascii.eqb c "{".

Definition is_closer (c : ascii) : bool :=
  Ascii.eqb c ")" || Ascii.eqb c "]" || Ascii.eqb c "}".

Definition closes (o c : ascii) : bool :=
  (Ascii.eqb o "(" && Ascii.eqb c ")")
  || (Ascii.eqb o "[" && Ascii.eqb c "]")
  || (Ascii.eqb o "{" && Ascii.eqb c "}").

(** The brackets left open at the end of a physical line that is entered
    with the brackets [opened] open, innermost first.  Brackets inside a
    string literal or after [#] do not count.  [None] stands for the
    tokenizer's errors: a closing bracket that closes nothing or the wrong
    bracket, and a string literal that the line does not end. *)
Fixpoint scan (st : lex_state) (opened : list ascii) (s : string)
    : option (list ascii) :=
  match s with
  | EmptyString =>
      match st with
      | Code => Some opened
      | _ => None
      end
  | String c s' =>
      match st with
      | Escaped q => scan (InString q) opened s'
      | InString q =>
          if Ascii.eqb c "\" then scan (Escaped q) opened s'
          else if Ascii.eqb c q then scan Code opened s'
          else scan (InString q) opened s'
      | Code =>
          if Ascii.eqb c "#" then Some opened
          else if Ascii.eqb c "'" || Ascii.eqb c "034" then
            scan (InString c) opened s'
          else if is_opener c then scan Code (c :: opened) s'
          else if is_closer c then
            match opened with
            | o :: opened' =>
                if closes o c then scan Code opened' s' else None
            | [] => None
            end
          else scan Code opened s'
      end
  end.

(** The brackets left open after a sequence of physical lines.  A statement
    ends, and the file can end, only where none is open. *)
Fixpoint scan_lines (opened : list ascii) (lines : list string)
    : option (list ascii) :=
  match lines with
  | [] => Some opened
  | l :: lines' =>
      match scan Code opened l with
      | Some opened' => scan_lines opened' lines'
      | None => None
      end
  end.

End SourceText.

(** ** ArtifactExporter *)

(** A fitted model, by its class; the learned trees of the ensembles are kept
    abstract behind their importances. *)
Inductive Model : Type :=
| LinearModel (intercept_ : Q) (coef_ : list Q)
| ForestModel (feature_importances_ : list Q)
| BoostingModel (feature_importances_ : list Q).

(** [model.__class__.__name__]. *)
Definition class_name (m : Model) : string :=
  match m with
  | LinearModel _ _ => "LinearRegression"
  | ForestModel _ => "RandomForestRegressor"
  | BoostingModel _ => "GradientBoostingRegressor"
  end.

(** The clock reading of [pd.Timestamp.now()], to the second. *)
Record Timestamp : Type := mkTimestamp {
  year : nat;
  month : nat;
  day : nat;
  hour : nat;
  minute : nat;
  second : nat
}.

(** [strftime("%Y%m%d_%H%M%S")]; the year of a pandas timestamp has four
    digits. *)
Definition strftime (t : Timestamp) : string :=
  pad_digits 4 (year t) +:+ pad_digits 2 (month t) +:+ pad_digits 2 (day t)
  +:+ "_"
  +:+ pad_digits 2 (hour t) +:+ pad_digits 2 (minute t)
  +:+ pad_digits 2 (second t).

Module Exporter.

(** What a file holds: the coefficient table written by [to_csv], a text
    file, or a [joblib] dump of a model. *)
Inductive Content : Type :=
| CoeffTable (table : list (string * Q))
| Text (s : string)
| Joblib (m : Model).

(** The directories, the files and the console, and the paths that the
    operating system refuses to create or to open for writing (for want of
    permission, or on a read-only medium).  A write that is cut short after
    the file has been opened is not modelled.  The working directory and
    the root always exist.  A
    directory is named by its path without trailing separators; other
    spellings of one directory (through [.], [..], doubled separators or
    links) are not identified. *)
Record World : Type := mkWorld {
  dirs : gset string;
  files : gmap string Content;
  stdout : list string;
  denied : gset string
}.

(** [os.path.isdir]. *)
Definition is_dir (w : World) (p : string) : bool :=
  match p with
  | EmptyString => false
  | _ =>
      match rstrip_slash p with
      | EmptyString => true
      | r => bool_decide (r ∈ dirs w)
      end
  end.

(** [os.path.isfile]. *)
Definition is_file (w : World) (p : string) : bool :=
  match p with
  | EmptyString => false
  | _ => bool_decide (is_Some (files w !! p))
  end.

(** [os.path.exists]. *)
Definition path_exists (p : string) : M World bool :=
  fun w => (Ok (is_dir w p || is_file w p), w).

(** How the system resolves the directory part [h] of a path that is to be
    created: the empty part is the working directory.  The message of an
    [OSError] names its cause only. *)
Definition resolve_dir (w : World) (h : string) : result unit :=
  match h with
  | EmptyString => Ok tt
  | _ =>
      if is_dir w h then Ok tt
      else if is_file w (rstrip_slash h)
      then Raise (OSError "Not a directory")
      else Raise (OSError "No such file or directory")
  end.

(** [os.mkdir]. *)
Definition mkdir (p : string) : M World unit :=
  fun w =>
    let '(head, tail) := path_split p in
    let parent := if String.eqb tail "" then fst (path_split head) else head in
    if String.eqb p "" then (Raise (OSError "No such file or directory"), w)
    else if is_dir w p || is_file w (rstrip_slash p)
    then (Raise (OSError "File exists"), w)
    else
      match resolve_dir w parent with
      | Raise e => (Raise e, w)
      | Ok _ =>
          if bool_decide (rstrip_slash p ∈ denied w)
          then (Raise (OSError "Permission denied"), w)
          else (Ok tt,
                mkWorld ({[rstrip_slash p]} ∪ dirs w) (files w) (stdout w)
                  (denied w))
      end.

(** [os.makedirs] of the standard library: the missing ancestors are
    created first, from the outermost one.  The recursion is on the
    directory part, which is shorter than the path; [fuel] bounds its
    depth.  The handler for a directory that another process creates in
    between is left out. *)
Fixpoint makedirs_from (fuel : nat) (name : string) : M World unit :=
  let '(head, tail) := path_split name in
  let '(head, tail) :=
    if String.eqb tail "" then path_split head else (head, tail) in
  match fuel with
  | S fuel' =>
      if negb (String.eqb head "") && negb (String.eqb tail "") then
        (let* present := path_exists head in
         if present then mkdir name
         else
           makedirs_from fuel' head ;;
           if String.eqb tail "." then ret tt else mkdir name)%monad
      else mkdir name
  | O => mkdir name
  end.

Definition makedirs (name : string) : M World unit :=
  makedirs_from (String.length name) name.

(** Opening a file for writing and writing it: [to_csv], [open] with
    [write], and [joblib.dump].  The directory part must be a directory. *)
Definition write_file (p : string) (c : Content) : M World unit :=
  fun w =>
    match resolve_dir w (fst (path_split p)) with
    | Raise e => (Raise e, w)
    | Ok _ =>
        if String.eqb p "" then
          (Raise (OSError "No such file or directory"), w)
        else if is_dir w p then (Raise (OSError "Is a directory"), w)
        else if bool_decide (p ∈ denied w)
        then (Raise (OSError "Permission denied"), w)
        else (Ok tt,
              mkWorld (dirs w) (<[p := c]> (files w)) (stdout w) (denied w))
    end.

Definition print (line : string) : M World unit :=
  modify (fun w =>
            mkWorld (dirs w) (files w) (stdout w ++ [line]) (denied w)).

(** [pd.DataFrame({'feature': ..., 'coefficient': ...})]: the two columns
    must have the same length. *)
Fixpoint data_frame (names : list string) (values : list Q)
    : result (list (string * Q)) :=
  match names, values with
  | [], [] => Ok []
  | n :: names', v :: values' =>
      rbind (data_frame names' values') (fun t => Ok ((n, v) :: t))
  | _, _ => Raise (ValueError "All arrays must be of the same length")
  end.

Definition lift {S A} (r : result A) : M S A := fun s => (r, s).

Definition header_line (row : string * Q) : string :=
  "const float " +:+ fst row +:+ " = " +:+ format_6f (snd row) +:+ ";" +:+ nl.

Definition header_text (coeff_df : list (string * Q)) : string :=
  "#ifndef MODEL_COEFFICIENTS_H" +:+ nl
  +:+ "#define MODEL_COEFFICIENTS_H" +:+ nl +:+ nl
  +:+ fold_right String.append "" (map header_line coeff_df)
  +:+ nl +:+ "#endif".

Definition save_coefficients (model : Model) (features : list string)
    (output_dir : string) (now : Timestamp) : M World string :=
  (let* present := path_exists output_dir in
   (if present then ret tt else makedirs output_dir) ;;
   let model_name := class_name model in
   let timestamp := strftime now in
   let filename := model_name +:+ "_coeff_" +:+ timestamp +:+ ".csv" in
   let filepath := path_join output_dir filename in
   match model with
   | LinearModel intercept coef =>
       let coeffs := intercept :: coef in
       let feature_names := "intercept"%string :: features in
       let* coeff_df := lift (data_frame feature_names coeffs) in
       write_file filepath (CoeffTable coeff_df) ;;
       let header_path := path_join output_dir "model_coefficients.h" in
       write_file header_path (Text (header_text coeff_df)) ;;
       print (nl +:+ "Saved Arduino header to: " +:+ header_path)
   | ForestModel _ | BoostingModel _ =>
       write_file
         (path_join output_dir
            (model_name +:+ "_" +:+ timestamp +:+ ".joblib"))
         (Joblib model) ;;
       print "Tree-based models require TinyML conversion for Arduino deployment" ;;
       print "Exported model in joblib format for reference"
   end ;;
   print ("Saved coefficients to: " +:+ filepath) ;;
   ret filepath)%monad.

(** A world without directories and files, in which nothing is refused. *)
Definition empty_world : World := mkWorld ∅ ∅ [] ∅.

(** The paths at which a call writes, started in an empty world. *)
Definition written_paths (model : Model) (features : list string)
    (output_dir : string) (now : Timestamp) : gset string :=
  dom (files (snd (save_coefficients model features output_dir now
                     empty_world))).

(** The part of the directory that [os.path.join] puts in front of a
    relative file name. *)
Definition dir_prefix (a : string) : string :=
  if String.eqb a "" || endswith a "/" then a else a +:+ "/".

Definition csv_name (model : Model) (now : Timestamp) : string :=
  class_name model +:+ "_coeff_" +:+ strftime now +:+ ".csv".

Definition joblib_name (model : Model) (now : Timestamp) : string :=
  class_name model +:+ "_" +:+ strftime now +:+ ".joblib".

Definition header_name : string := "model_coefficients.h".

Definition is_linear (m : Model) : bool :=
  match m with
  | LinearModel _ _ => true
  | _ => false
  end.

(** A clock reading within the range of pandas timestamps. *)
Definition valid_timestamp (t : Timestamp) : Prop :=
  (1677 <= year t <= 2262 /\ 1 <= month t <= 12 /\ 1 <= day t <= 31
   /\ hour t < 24 /\ minute t < 60 /\ second t < 60)%nat.

(** [features.columns] in [main]. *)
Definition feature_columns : list string :=
  ["ratio"; "variability"; "slope"; "pulse_rate"; "acdc_ratio"]%string.

End Exporter.

(** ** Sample data *)

Module Samples.

Import Preprocessor.

Definition reading (ts : string) (g : Q) : RawRow :=
  mkRawRow ts (Some 1) (Some (1 # 2)) (Some 0) (Some g).

(** Five readings that differ in the glucose value only. *)
Definition five_raw : list RawRow :=
  [reading "2024-03-01 08:00:00" 100; reading "2024-03-01 08:05:00" 100;
   reading "2024-03-01 08:10:00" 100; reading "2024-03-01 08:15:00" 101;
   reading "2024-03-01 08:20:00" 103].

Definition five_rows : list Row := map add_features five_raw.

Definition five_processed : list Row :=
  match preprocess_data five_raw with
  | Ok out => out
  | Raise _ => []
  end.

(** A directory with two readable files, a corrupt one and a file that is
    not a CSV file. *)
Definition morning : Loader.DataFrame :=
  Loader.mkFrame Loader.required_cols
    [Loader.mkFrameRow (reading "2024-03-01 08:00:00" 100) [];
     Loader.mkFrameRow (reading "2024-03-01 08:05:00" 104) []].

Definition evening : Loader.DataFrame :=
  Loader.mkFrame Loader.required_cols
    [Loader.mkFrameRow (reading "2024-03-01 20:00:00" 131) []].

Definition sample_isdir (p : string) : bool := String.eqb p "data/training".

Definition sample_listdir (p : string) : list string :=
  if String.eqb p "data/training"
  then ["morning.csv"; "corrupt.csv"; "notes.txt"; "evening.csv"]%string
  else [].

Definition sample_read_csv (p : string) : result Loader.DataFrame :=
  if String.eqb p "data/training/morning.csv" then Ok morning
  else if String.eqb p "data/training/evening.csv" then Ok evening
  else Raise (ParserError "Error tokenizing data").

Definition sample_str_set (l : list string) : string :=
  "{" +:+ String.concat ", " l +:+ "}".

(** A fit that succeeds, for running the factory. *)
Definition sample_fit (e : Estimator) (X y : unit) : result Estimator :=
  Ok e.

(** Two runs of the exporter, twelve hours apart. *)
Definition run_morning : Timestamp := mkTimestamp 2024 3 1 8 0 0.
Definition run_evening : Timestamp := mkTimestamp 2024 3 1 20 0 0.

(** A world in which the output directory exists. *)
Definition prepared_world : Exporter.World :=
  Exporter.mkWorld {["models/production"%string]} ∅ [] ∅.

Definition linear_fit : Model :=
  LinearModel (1 # 2) [1; 2; 3; 4; 5].

Definition forest_fit : Model :=
  ForestModel [1 # 5; 1 # 5; 1 # 5; 1 # 5; 1 # 5].

(** A reading whose amplitude ratio is zero. *)
Definition zero_ratio : RawRow :=
  mkRawRow "2024-03-01 09:00:00" (Some 0) (Some (1 # 2)) (Some 0) (Some 100).

End Samples.

(** ** Further definitions for the loader *)

Module LoaderSpec.

Import Loader.

(** [required_cols - set(data.columns)]. *)
Definition missing_columns (data : DataFrame) : list string :=
  List.filter (fun c => negb (existsb (String.eqb c) (columns data)))
    required_cols.

End LoaderSpec.

(** ** Further definitions for the preprocessor *)

Module PreprocessorSpec.

(** What imputation with the fill value [fill] makes of a cell. *)
Definition imputed (fill : cell) (before after : cell) : Prop :=
  match before with
  | Some x => after = Some x
  | None => after = fill /\ fill <> None
  end.

(** [n] applications of the outlier removal of [preprocess_data], one after
    the other. *)
Definition passes (n : nat) (df : list Row) : list Row :=
  Nat.iter n
    (fun d =>
       Preprocessor.remove_outliers d Preprocessor.outlier_columns
         Preprocessor.default_factor)
    df.

(** The time stamp and the glucose value of a row: what identifies a
    reading through the preprocessing. *)
Definition reading_key (r : RawRow) : string * cell :=
  (timestamp r, glucose r).

End PreprocessorSpec.

(** ** Further definitions for the scaler *)

Module ScalerSpec.

Import Scaler.

(** The number of features: the length of the first row. *)
Definition width (X : Matrix) : nat :=
  match X with
  | [] => O
  | r0 :: _ => List.length r0
  end.

End ScalerSpec.

(** ** Further definitions for the exporter *)

Module ExporterSpec.

Import Exporter.

(** The first two lines of [save_coefficients]: the output directory is
    created unless something exists at its path. *)
Definition prepare_dir (d : string) : M World unit :=
  (let* present := path_exists d in
   if present then ret tt else makedirs d)%monad.

(** The system lets a file be written at [p]: no directory is in the way
    and the path is not refused. *)
Definition can_write (w : World) (p : string) : bool :=
  negb (is_dir w p) && negb (bool_decide (p ∈ denied w)).

(** [p] is an initial part of [d]. *)
Definition leads_to (p d : string) : Prop := exists rest, d = p +:+ rest.

(** From [w] to [w'] only directories were added, each an initial part of
    [d]. *)
Definition grows_towards (d : string) (w w' : World) : Prop :=
  files w' = files w /\ stdout w' = stdout w /\ denied w' = denied w
  /\ dirs w ⊆ dirs w'
  /\ (forall p, p ∈ dirs w' -> p ∈ dirs w \/ leads_to p d).

(** A file name without a path separator. *)
Fixpoint no_slash (s : string) : bool :=
  match s with
  | EmptyString => true
  | String c s' => negb (Ascii.eqb c "/") && no_slash s'
  end.

End ExporterSpec.

(** ** Reading a decimal literal back *)

Module Literal.

Definition digit_value (c : ascii) : nat := nat_of_ascii c - 48.

Fixpoint decimal_value_acc (acc : nat) (s : string) : nat :=
  match s with
  | EmptyString => acc
  | String c s' => decimal_value_acc (10 * acc + digit_value c) s'
  end.

(** The number written by a string of decimal digits. *)
Definition decimal_value (s : string) : nat := decimal_value_acc 0 s.

(** The parts of a string before and after its first point. *)
Fixpoint split_point (s : string) : option (string * string) :=
  match s with
  | EmptyString => None
  | String c s' =>
      if Ascii.eqb c "." then Some (EmptyString, s')
      else
        match split_point s' with
        | Some (a, b) => Some (String c a, b)
        | None => None
        end
  end.

(** The value of a literal made of an optional minus sign, digits, a point
    and digits, as a C compiler reads it. *)
Definition parse_decimal (s : string) : option Q :=
  let '(negative, body) :=
    match s with
    | String c s' => if Ascii.eqb c "-" then (true, s') else (false, s)
    | EmptyString => (false, s)
    end in
  match split_point body with
  | Some (whole, frac) =>
      if all_digits whole && all_digits frac
         && negb (String.eqb whole "") && negb (String.eqb frac "")
      then
        let magnitude :=
          inject_Z (Z.of_nat (decimal_value whole))
          + inject_Z (Z.of_nat (decimal_value frac))
            / inject_Z (10 ^ Z.of_nat (String.length frac)) in
        Some (if negative then - magnitude else magnitude)
      else None
  | None => None
  end.

End Literal.

(** ** More sample data *)

Module MoreSamples.

Import Preprocessor Samples.

(** The dataset loaded from the sample directory. *)
Definition sample_loaded : Loader.DataFrame :=
  match fst (Loader.load_data sample_isdir sample_listdir sample_read_csv
               sample_str_set "data/training") with
  | Ok df => df
  | Raise _ => Loader.mkFrame [] []
  end.

(** A file with a sixth column: two readings that agree in the five named
    columns and differ in the note, and a repetition of the first. *)
Definition annotated : Loader.DataFrame :=
  Loader.mkFrame (Loader.required_cols ++ ["note"%string])
    [Loader.mkFrameRow (reading "2024-03-03 08:00:00" 100)
       [("note"%string, Loader.Textual "before breakfast")];
     Loader.mkFrameRow (reading "2024-03-03 08:00:00" 100)
       [("note"%string, Loader.Textual "repeated")];
     Loader.mkFrameRow (reading "2024-03-03 08:00:00" 100)
       [("note"%string, Loader.Textual "before breakfast")]].

(** A parser that would also read the notes. *)
Definition sample_read_csv_notes (p : string) : result Loader.DataFrame :=
  if String.eqb p "data/training/notes.txt" then Ok morning
  else sample_read_csv p.

(** Three readings with gaps. *)
Definition gappy_raw : list RawRow :=
  [mkRawRow "2024-03-02 08:00:00" (Some 1) (Some (1 # 2)) None (Some 100);
   mkRawRow "2024-03-02 08:05:00" None (Some (1 # 2)) (Some 0) (Some 30);
   mkRawRow "2024-03-02 08:10:00" (Some 3) None (Some 2) (Some 120)].

Definition gappy_imputed : list RawRow :=
  match impute gappy_raw with
  | Ok out => out
  | Raise _ => []
  end.

Definition glucose_column : list cell :=
  [Some 100; Some 100; Some 100; Some 101; Some 103].

Definition sample_q1 : Q :=
  match quantile (1 # 4) glucose_column with
  | Some q => q
  | None => 0
  end.

Definition sample_q3 : Q :=
  match quantile (3 # 4) glucose_column with
  | Some q => q
  | None => 0
  end.

(** A training matrix with one varying and one constant column, a test
    matrix, and a square root that is exact at 1. *)
Definition sample_train : Scaler.Matrix :=
  [[Finite 1; Finite 2]; [Finite 3; Finite 2]].

Definition sample_test : Scaler.Matrix := [[Finite 5; Finite 5]].

Definition sample_sqrt (q : Q) : Q := q.

Definition sample_scaled : Scaler.Matrix * Scaler.Matrix :=
  match fst (Scaler.run_standardize sample_sqrt sample_train sample_test) with
  | Ok ab => ab
  | Raise _ => ([], [])
  end.

End MoreSamples.

(** * Properties *)

(** ** Preprocessor *)

Section PreprocessorFacts.

Import Preprocessor.

Lemma filter_sublist {A} (f : A -> bool) (l : list A) :
  sublist (List.filter f l) l.
Proof.
  induction l as [|a l IH]; simpl.
  - constructor.
  - destruct (f a); [apply sublist_skip | apply sublist_cons]; exact IH.
Qed.

Lemma remove_outliers_sublist columns factor df :
  sublist (remove_outliers df columns factor) df.
Proof.
  revert df.
  induction columns as [|c columns IH]; intros df; simpl.
  - reflexivity.
  - etransitivity; [apply IH | apply filter_sublist].
Qed.

Lemma remove_outliers_In columns factor df r :
  In r (remove_outliers df columns factor) -> In r df.
Proof.
  intros H. apply list_elem_of_In. apply list_elem_of_In in H.
  eapply elem_of_sublist; [exact H | apply remove_outliers_sublist].
Qed.

Lemma insert_sorted_length x l :
  List.length (insert_sorted x l) = S (List.length l).
Proof.
  induction l as [|y l IH]; simpl; [reflexivity|].
  destruct (Qle_bool x y); simpl; [reflexivity | now rewrite IH].
Qed.

Lemma sort_values_length l : List.length (sort_values l) = List.length l.
Proof.
  induction l as [|x l IH]; simpl; [reflexivity|].
  now rewrite insert_sorted_length, IH.
Qed.

Lemma dropna_present (s : list cell) (x : Q) :
  In (Some x) s -> dropna s <> [].
Proof.
  induction s as [|[y|] s IH]; simpl; intros H.
  - contradiction.
  - discriminate.
  - destruct H as [H|H]; [discriminate | auto].
Qed.

Lemma median_present (s : list cell) :
  dropna s <> [] -> exists m, median s = Some m.
Proof.
  intros H. unfold median.
  destruct (sort_values (dropna s)) as [|v0 vs] eqn:E.
  - apply (f_equal (@List.length Q)) in E.
    rewrite sort_values_length in E.
    destruct (dropna s); [congruence | discriminate].
  - destruct (Nat.even _); eauto.
Qed.

(** The preprocessor returns a dataset whenever the frame has a row and
    each of the three imputed columns has a present value. *)
Lemma preprocess_data_returns (data : list RawRow) (a b c : Q) :
  In (Some a) (map ratio data) ->
  In (Some b) (map variability data) ->
  In (Some c) (map slope data) ->
  exists out, preprocess_data data = Ok out.
Proof.
  intros Ha Hb Hc. unfold preprocess_data, impute.
  destruct data as [|r0 data]; [contradiction|].
  destruct (median_present _ (dropna_present _ _ Ha)) as [mr ->].
  destruct (median_present _ (dropna_present _ _ Hb)) as [mv ->].
  destruct (median_present _ (dropna_present _ _ Hc)) as [ms ->].
  simpl. eauto.
Qed.

Lemma physiological_range (r : RawRow) :
  physiological r = true ->
  exists g, glucose r = Some g /\ 40 <= g /\ g <= 400.
Proof.
  unfold physiological, cge, cle. intros H.
  apply andb_true_iff in H. destruct H as [Hlo Hhi].
  destruct (glucose r) as [g|]; [|discriminate].
  exists g. split; [reflexivity|].
  split; apply Qle_bool_iff; assumption.
Qed.

(** C2.  Every row of the preprocessor's output has a glucose value, and
    that value lies in the closed interval from 40 to 400: the rows outside
    it are dropped by the physiological filter, and the later steps only
    add columns or remove rows. *)
Theorem preprocess_glucose_in_range (data : list RawRow) (out : list Row)
    (r : Row) :
  preprocess_data data = Ok out ->
  In r out ->
  exists g, col Glucose r = Some g /\ 40 <= g /\ g <= 400.
Proof.
  unfold preprocess_data, rbind. intros Hrun Hin.
  destruct (impute data) as [imputed|e]; [|discriminate].
  injection Hrun as <-.
  apply (remove_outliers_In outlier_columns default_factor) in Hin.
  apply in_map_iff in Hin. destruct Hin as [r0 [<- Hin]].
  apply filter_In in Hin. destruct Hin as [_ Hphys].
  exact (physiological_range r0 Hphys).
Qed.

(** *** Short columns *)

Lemma insert_sorted_In (x v : Q) (l : list Q) :
  In v (insert_sorted x l) <-> v = x \/ In v l.
Proof.
  induction l as [|y l IH]; simpl.
  - split; intros [H|H]; auto.
  - destruct (Qle_bool x y); simpl; [split; intros [H|H]; auto|].
    rewrite IH. split; intros H; tauto.
Qed.

Lemma sort_values_In (v : Q) (l : list Q) :
  In v (sort_values l) <-> In v l.
Proof.
  induction l as [|x l IH]; simpl; [reflexivity|].
  rewrite insert_sorted_In, IH. split; intros [H|H]; auto.
Qed.

Lemma insert_sorted_Forall (P : Q -> Prop) (x : Q) (l : list Q) :
  P x -> Forall P l -> Forall P (insert_sorted x l).
Proof.
  intros Hx Hl. apply List.Forall_forall. intros v Hv.
  apply insert_sorted_In in Hv. destruct Hv as [->|Hv]; [exact Hx|].
  revert v Hv. apply List.Forall_forall. exact Hl.
Qed.

Lemma insert_sorted_sorted (x : Q) (l : list Q) :
  StronglySorted Qle l -> StronglySorted Qle (insert_sorted x l).
Proof.
  induction 1 as [|y l Hs IH Hy]; simpl.
  - repeat constructor.
  - destruct (Qle_bool x y) eqn:E.
    + apply Qle_bool_iff in E.
      constructor; [constructor; assumption|].
      constructor; [exact E|].
      eapply List.Forall_impl; [|exact Hy].
      intros z Hz. simpl in Hz. lra.
    + assert (Hyx : y <= x).
      { destruct (Qlt_le_dec y x) as [Hlt|Hle]; [lra|].
        apply Qle_bool_iff in Hle. congruence. }
      constructor; [exact IH|].
      apply insert_sorted_Forall; assumption.
Qed.

Lemma sort_values_sorted (l : list Q) : StronglySorted Qle (sort_values l).
Proof.
  induction l as [|x l IH]; simpl; [constructor|].
  now apply insert_sorted_sorted.
Qed.

Lemma dropna_In (s : list cell) (v : Q) : In v (dropna s) <-> In (Some v) s.
Proof.
  induction s as [|[x|] s IH]; simpl.
  - reflexivity.
  - rewrite IH. split; intros [H|H]; auto; [left; congruence|].
    left. congruence.
  - rewrite IH. split; [auto|]. intros [H|H]; [discriminate | exact H].
Qed.

Lemma dropna_length (s : list cell) :
  (List.length (dropna s) <= List.length s)%nat.
Proof. induction s as [|[x|] s IH]; simpl; lia. Qed.

(** The quartiles of a column with one, two or three present values. *)
Lemma quartiles_of_one (s : list cell) (a : Q) :
  sort_values (dropna s) = [a] ->
  quantile (1 # 4) s = Some (a + (a - a) * (0 # 4))
  /\ quantile (3 # 4) s = Some (a + (a - a) * (0 # 4)).
Proof. intros H. unfold quantile. rewrite H. split; reflexivity. Qed.

Lemma quartiles_of_two (s : list cell) (a b : Q) :
  sort_values (dropna s) = [a; b] ->
  quantile (1 # 4) s = Some (a + (b - a) * (1 # 4))
  /\ quantile (3 # 4) s = Some (a + (b - a) * (3 # 4)).
Proof. intros H. unfold quantile. rewrite H. split; reflexivity. Qed.

Lemma quartiles_of_three (s : list cell) (a b c : Q) :
  sort_values (dropna s) = [a; b; c] ->
  quantile (1 # 4) s = Some (a + (b - a) * (2 # 4))
  /\ quantile (3 # 4) s = Some (b + (c - b) * (2 # 4)).
Proof. intros H. unfold quantile. rewrite H. split; reflexivity. Qed.

Lemma within_iqr_bounds (q1 q3 v : Q) :
  q1 - (3 # 2) * (q3 - q1) <= v -> v <= q3 + (3 # 2) * (q3 - q1) ->
  within_iqr default_factor (Some q1) (Some q3) (Some v) = true.
Proof.
  intros Hlo Hhi.
  unfold within_iqr, cge, cle, csub, cmul, cadd, default_factor.
  apply andb_true_iff. split; apply Qle_bool_iff; assumption.
Qed.

(** In a column of at most three values every present value lies within
    the bounds. *)
Lemma short_column_within_iqr (s : list cell) (v : Q) :
  (List.length s <= 3)%nat -> In (Some v) s ->
  within_iqr default_factor (quantile (1 # 4) s) (quantile (3 # 4) s) (Some v)
  = true.
Proof.
  intros Hlen Hin.
  assert (Hv : In v (sort_values (dropna s)))
    by (apply sort_values_In, dropna_In; exact Hin).
  assert (Hs := sort_values_sorted (dropna s)).
  assert (Hn : (List.length (sort_values (dropna s)) <= 3)%nat).
  { rewrite sort_values_length. pose proof (dropna_length s). lia. }
  destruct (sort_values (dropna s)) as [|a [|b [|c [|e vs]]]] eqn:E.
  - contradiction.
  - destruct (quartiles_of_one s a E) as [-> ->].
    destruct Hv as [<-|[]]. apply within_iqr_bounds; lra.
  - destruct (quartiles_of_two s a b E) as [-> ->].
    apply StronglySorted_inv in Hs. destruct Hs as [_ Hab].
    apply Forall_inv in Hab.
    destruct Hv as [<-|[<-|[]]]; apply within_iqr_bounds; lra.
  - destruct (quartiles_of_three s a b c E) as [-> ->].
    apply StronglySorted_inv in Hs. destruct Hs as [Hs Ha].
    apply StronglySorted_inv in Hs. destruct Hs as [_ Hbc].
    apply Forall_inv in Ha. apply Forall_inv in Hbc.
    destruct Hv as [<-|[<-|[<-|[]]]]; apply within_iqr_bounds; lra.
  - simpl in Hn. lia.
Qed.

Lemma filter_all {A} (f : A -> bool) (l : list A) :
  (forall x, In x l -> f x = true) -> List.filter f l = l.
Proof.
  induction l as [|a l IH]; simpl; intros H; [reflexivity|].
  rewrite (H a (or_introl eq_refl)). f_equal. apply IH. auto.
Qed.

(** A row that survives has a value in every column filtered. *)
Lemma remove_outliers_complete (columns : list Column) (factor : Q)
  (df : list Row) (r : Row) (c : Column) :
  In r (remove_outliers df columns factor) -> In c columns ->
  exists v, col c r = Some v.
Proof.
  revert df.
  induction columns as [|c0 columns IH]; intros df Hr Hc; [contradiction|].
  simpl in Hr. destruct Hc as [->|Hc]; [|eauto].
  apply remove_outliers_In in Hr. apply filter_In in Hr.
  destruct Hr as [_ Hr].
  destruct (col c r) as [v|]; [eauto|].
  unfold within_iqr, cge, cle in Hr.
  destruct (csub _ _); simpl in Hr; discriminate Hr.
Qed.

Lemma sublist_same_length {A} (l k : list A) :
  sublist l k -> List.length l = List.length k -> l = k.
Proof.
  induction 1 as [|x l k Hs IH|x l k Hs IH]; simpl; intros Hlen.
  - reflexivity.
  - f_equal. apply IH. lia.
  - apply sublist_length in Hs. lia.
Qed.

(** Repeated passes either have reached a fixed point or have dropped a
    row at every pass so far. *)
Lemma passes_progress (df : list Row) (n : nat) :
  PreprocessorSpec.passes (S n) df = PreprocessorSpec.passes n df
  \/ (List.length (PreprocessorSpec.passes (S n) df) + n
      < List.length df)%nat.
Proof.
  assert (Hstep : forall l : list Row,
             remove_outliers l outlier_columns default_factor = l
             \/ (List.length
                   (remove_outliers l outlier_columns default_factor)
                 < List.length l)%nat).
  { intros l.
    pose proof (remove_outliers_sublist outlier_columns default_factor l)
      as Hsub.
    destruct (Nat.eq_dec
                (List.length
                   (remove_outliers l outlier_columns default_factor))
                (List.length l)) as [E|N].
    - left. apply sublist_same_length; assumption.
    - right. apply sublist_length in Hsub. lia. }
  induction n as [|n IH].
  - destruct (Hstep df) as [E|L]; [left; exact E | right].
    change (PreprocessorSpec.passes 1 df)
      with (remove_outliers df outlier_columns default_factor). lia.
  - change (PreprocessorSpec.passes (S (S n)) df)
      with (remove_outliers (PreprocessorSpec.passes (S n) df)
              outlier_columns default_factor).
    destruct IH as [E|L].
    + left. rewrite E at 1. reflexivity.
    + destruct (Hstep (PreprocessorSpec.passes (S n) df)) as [E|L'];
        [left; exact E | right; lia].
Qed.

(** C1, as amended.  A second application of the outlier removal never
    adds or reorders rows: its result is a sub-sequence of the result of
    the first application.  It may remove further rows, because the
    quartiles are computed again on the trimmed data; repeated, the stage
    reaches a fixed point after at most as many applications as the dataset
    has rows. *)
Theorem remove_outliers_twice (df : list Row) :
  let once := remove_outliers df outlier_columns default_factor in
  let twice := remove_outliers once outlier_columns default_factor in
  sublist twice once
  /\ (forall n, (List.length df <= n)%nat ->
                PreprocessorSpec.passes (S n) df
                = PreprocessorSpec.passes n df).
Proof.
  intros once twice. split; [apply remove_outliers_sublist|].
  intros n Hlen.
  destruct (passes_progress df n) as [E|L]; [exact E | lia].
Qed.

End PreprocessorFacts.

Section PreprocessorExamples.

Import Preprocessor Samples.

Example five_processed_glucose :
  map (col Glucose) five_processed = [Some 100; Some 100; Some 100; Some 101].
Proof. vm_compute. reflexivity. Qed.

Lemma preprocess_glucose_in_range_witness :
  exists g, col Glucose (add_features (reading "2024-03-01 08:00:00" 100))
            = Some g /\ 40 <= g /\ g <= 400.
Proof.
  apply (preprocess_glucose_in_range five_raw five_processed).
  - vm_compute. reflexivity.
  - vm_compute. left. reflexivity.
Defined.

Lemma remove_outliers_twice_witness :
  PreprocessorSpec.passes 6 five_rows = PreprocessorSpec.passes 5 five_rows.
Proof.
  apply (remove_outliers_twice five_rows). simpl. lia.
Defined.

Example five_rows_passes :
  map (fun n => List.length (PreprocessorSpec.passes n five_rows))
    [0; 1; 2; 3]%nat
  = [5; 4; 3; 3]%nat.
Proof. vm_compute. reflexivity. Qed.

(** C1, as stated, fails: on five readings with glucose 100, 100, 100, 101
    and 103 the first application drops 103 (bounds 98.5 and 102.5), and
    the second, on quartiles 100 and 100.25, drops 101 as well. *)
Lemma remove_outliers_not_idempotent :
  remove_outliers (remove_outliers five_rows outlier_columns default_factor)
    outlier_columns default_factor
  <> remove_outliers five_rows outlier_columns default_factor.
Proof.
  intros H. apply (f_equal (@List.length Row)) in H.
  vm_compute in H. discriminate H.
Qed.

Example five_rows_filtered_once :
  map (col Glucose) (remove_outliers five_rows outlier_columns default_factor)
  = [Some 100; Some 100; Some 100; Some 101].
Proof. vm_compute. reflexivity. Qed.

Example five_rows_filtered_twice :
  map (col Glucose)
    (remove_outliers
       (remove_outliers five_rows outlier_columns default_factor)
       outlier_columns default_factor)
  = [Some 100; Some 100; Some 100].
Proof. vm_compute. reflexivity. Qed.

End PreprocessorExamples.

Section DerivedFeatures.

Import Preprocessor Samples.

Lemma divide_by_zero_not_finite (a b : cell) (x y : Q) :
  a = Some x -> b = Some y -> y == 0 -> is_finite (cdiv a b) = false.
Proof.
  intros -> -> Hy. unfold cdiv.
  apply Qeq_bool_iff in Hy. rewrite Hy.
  destruct (Qlt_bool 0 x); [reflexivity|].
  destruct (Qlt_bool x 0); reflexivity.
Qed.

Lemma divide_nonzero_finite (a b : cell) (x y : Q) :
  a = Some x -> b = Some y -> ~ y == 0 -> cdiv a b = Finite (x / y).
Proof.
  intros -> -> Hy. unfold cdiv.
  destruct (Qeq_bool y 0) eqn:E; [|reflexivity].
  apply Qeq_bool_iff in E. contradiction.
Qed.

(** C10.  The division that computes [acdc_ratio] has no guard: whenever
    the ratio of a record is zero its divisor is zero and the feature is an
    infinity or NaN, and such a record, with a glucose value in range,
    passes the whole preprocessor.  The divisor of [pulse_rate] is
    [variability + 1e-6], which is not zero for any variability that is not
    negative, so that feature is finite. *)
Theorem acdc_ratio_division_unguarded :
  (forall (r : RawRow) (v q : Q),
      variability r = Some v -> ratio r = Some q -> q == 0 ->
      is_finite (acdc_ratio (add_features r)) = false)
  /\ (forall (r : RawRow) (v : Q),
      variability r = Some v -> 0 <= v ->
      pulse_rate (add_features r) = Finite (60 / (v + epsilon)))
  /\ (physiological zero_ratio = true
      /\ preprocess_data [zero_ratio] = Ok [add_features zero_ratio]
      /\ col Ratio (add_features zero_ratio) = Some 0
      /\ acdc_ratio (add_features zero_ratio) = PosInf
      /\ is_finite (pulse_rate (add_features zero_ratio)) = true).
Proof.
  split; [|split].
  - intros r v q Hv Hq Hz. unfold add_features; cbn [acdc_ratio].
    exact (divide_by_zero_not_finite _ _ v q Hv Hq Hz).
  - intros r v Hv Hpos. unfold add_features; cbn [pulse_rate].
    rewrite Hv.
    change (cadd (Some v) (Some epsilon)) with (Some (v + epsilon)).
    apply divide_nonzero_finite; [reflexivity | reflexivity |].
    unfold epsilon. intros E. lra.
  - repeat split; vm_compute; reflexivity.
Qed.

Lemma acdc_ratio_division_unguarded_witness :
  is_finite (acdc_ratio (add_features zero_ratio)) = false
  /\ pulse_rate (add_features zero_ratio) = Finite (60 / ((1 # 2) + epsilon)).
Proof.
  destruct acdc_ratio_division_unguarded as [Hacdc [Hpulse _]].
  split.
  - apply (Hacdc zero_ratio (1 # 2) 0); [reflexivity | reflexivity |].
    reflexivity.
  - apply (Hpulse zero_ratio (1 # 2)); [reflexivity|].
    unfold Qle; simpl; lia.
Defined.

End DerivedFeatures.

(** ** DatasetLoader *)

Section LoaderFacts.

Import Loader.

Variable isdir : string -> bool.
Variable listdir : string -> list string.
Variable read_csv : string -> result DataFrame.
Variable str_set : list string -> string.

(** The loop keeps the frames of the files that parse and prints one line
    for each file it visits. *)
Lemma load_files_parsed (data_path : string) (files : list string) :
  fst (load_files read_csv data_path files)
  = parsed_frames read_csv data_path files
  /\ List.length (snd (load_files read_csv data_path files))
     = List.length files.
Proof.
  induction files as [|f files [IHf IHl]]; simpl; [split; reflexivity|].
  destruct (load_files read_csv data_path files) as [dfs out].
  simpl in IHf, IHl.
  destruct (read_csv (path_join data_path f)); simpl; subst dfs;
    split; congruence.
Qed.

Lemma parsed_frames_nil (data_path : string) (files : list string) :
  parsed_frames read_csv data_path files = []
  <-> forall f, In f files ->
                exists e, read_csv (path_join data_path f) = Raise e.
Proof.
  induction files as [|f files IH]; simpl.
  - split; [intros _ g [] | reflexivity].
  - destruct (read_csv (path_join data_path f)) as [df|e] eqn:E; simpl.
    + split; [discriminate|].
      intros H. destruct (H f (or_introl eq_refl)) as [e He].
      rewrite E in He. discriminate.
    + rewrite IH. split.
      * intros H g [<-|Hg]; [eauto | auto].
      * intros H g Hg. apply H. right. exact Hg.
Qed.

Lemma filter_none {A} (f : A -> bool) (l : list A) :
  (forall x, In x l -> f x = false) -> List.filter f l = [].
Proof.
  induction l as [|a l IH]; simpl; intros H; [reflexivity|].
  rewrite (H a (or_introl eq_refl)). apply IH. auto.
Qed.

(** C4.  In directory mode a file that fails to parse is skipped: the
    frames kept are those of the files that parse, in listing order.  The
    load fails for want of files exactly when no file parses (in particular
    when the directory is empty), with the message "No valid CSV files found
    in directory"; otherwise the reading stage returns the concatenation of
    the parsed frames, and the whole load returns a dataset as soon as that
    concatenation has the required columns. *)
Theorem directory_load_skips_failed_files (data_path : string) :
  isdir data_path = true ->
  let files := csv_files listdir data_path in
  let parsed := parsed_frames read_csv data_path files in
  fst (load_files read_csv data_path files) = parsed
  /\ (parsed = []
      <-> forall f, In f files ->
                    exists e, read_csv (path_join data_path f) = Raise e)
  /\ (parsed = [] ->
      fst (read_frames isdir listdir read_csv data_path)
      = Raise (ValueError "No valid CSV files found in directory")
      /\ fst (load_data isdir listdir read_csv str_set data_path)
         = Raise (ValueError "No valid CSV files found in directory"))
  /\ (parsed <> [] ->
      fst (read_frames isdir listdir read_csv data_path)
      = Ok (concat parsed))
  /\ (listdir data_path = [] ->
      fst (load_data isdir listdir read_csv str_set data_path)
      = Raise (ValueError "No valid CSV files found in directory"))
  /\ (parsed <> [] ->
      (forall c, In c required_cols -> In c (columns (concat parsed))) ->
      exists df,
        fst (load_data isdir listdir read_csv str_set data_path)
        = Ok df).
Proof.
  intros Hdir files parsed.
  destruct (load_files_parsed data_path files) as [Hfst _].
  split; [exact Hfst|].
  split; [apply parsed_frames_nil|].
  assert (Hread :
    fst (read_frames isdir listdir read_csv data_path)
    = match parsed with
      | [] => Raise (ValueError "No valid CSV files found in directory")
      | _ => Ok (concat parsed)
      end).
  { unfold read_frames. rewrite Hdir. fold (csv_files listdir data_path).
    fold files. fold parsed in Hfst.
    destruct (load_files read_csv data_path files) as [dfs out].
    simpl in Hfst. subst dfs. destruct parsed; reflexivity. }
  assert (Hnone : parsed = [] ->
    fst (load_data isdir listdir read_csv str_set data_path)
    = Raise (ValueError "No valid CSV files found in directory")).
  { intros Hnil. rewrite Hnil in Hread. unfold load_data.
    destruct (read_frames isdir listdir read_csv data_path)
      as [[data|e] out]; simpl in Hread; [discriminate|].
    simpl. exact Hread. }
  split; [|split; [|split]].
  - intros Hnil. split; [|exact (Hnone Hnil)].
    rewrite Hnil in Hread. exact Hread.
  - intros Hne. rewrite Hread. destruct parsed; [contradiction|reflexivity].
  - intros Hempty. apply Hnone.
    unfold parsed, files, csv_files. rewrite Hempty. reflexivity.
  - intros Hne Hcols.
    assert (Hok : fst (read_frames isdir listdir read_csv data_path)
                  = Ok (concat parsed))
      by (rewrite Hread; destruct parsed; [contradiction|reflexivity]).
    unfold load_data.
    destruct (read_frames isdir listdir read_csv data_path)
      as [[data|e] out]; simpl in Hok; [|discriminate].
    injection Hok as ->.
    rewrite (filter_none _ required_cols); [simpl; eauto|].
    intros c Hc. apply negb_false_iff, existsb_exists.
    exists c. split; [apply Hcols, Hc | apply String.eqb_refl].
Qed.

End LoaderFacts.

Section LoaderExamples.

Import Loader Samples.

Lemma directory_load_skips_failed_files_witness :
  fst (read_frames sample_isdir sample_listdir sample_read_csv
         "data/training")
  = Ok (concat [morning; evening]).
Proof.
  destruct (directory_load_skips_failed_files sample_isdir sample_listdir
              sample_read_csv sample_str_set "data/training" eq_refl)
    as (_ & _ & _ & H & _).
  apply H. vm_compute. discriminate.
Defined.

Example sample_directory_log :
  snd (load_data sample_isdir sample_listdir sample_read_csv
         sample_str_set "data/training")
  = ["Loaded morning.csv with 2 records";
     "Error loading corrupt.csv: Error tokenizing data";
     "Loaded evening.csv with 1 records"]%string.
Proof. vm_compute. reflexivity. Qed.

Example empty_directory_fails :
  fst (load_data sample_isdir (fun _ => []) sample_read_csv
         sample_str_set "data/training")
  = Raise (ValueError "No valid CSV files found in directory").
Proof. vm_compute. reflexivity. Qed.

End LoaderExamples.

(** ** ModelFactory *)

Section ModelFactoryFacts.

Import ModelFactory.

Variables X Y Fitted : Type.
Variable fit : Estimator -> X -> Y -> result Fitted.

(** C3, as amended.  For a name outside the three supported ones
    [train_model] raises [ValueError] with the message "Unknown model type: "
    followed by the name it was given; for a supported name it constructs
    the estimator of that family, with the parameters of the script, and
    returns what fitting it returns. *)
Theorem train_model_dispatch (X_train : X) (y_train : Y) (name : string) :
  (~ In name supported ->
   train_model X Y Fitted fit X_train y_train name
   = Raise (ValueError ("Unknown model type: " +:+ name)))
  /\ train_model X Y Fitted fit X_train y_train "linear"
     = fit LinearRegression X_train y_train
  /\ train_model X Y Fitted fit X_train y_train "random_forest"
     = fit (RandomForestRegressor 100 5 42) X_train y_train
  /\ train_model X Y Fitted fit X_train y_train "gradient_boosting"
     = fit (GradientBoostingRegressor 100 (1 # 10) 3 42) X_train y_train.
Proof.
  split; [|repeat split].
  intros Hout. unfold train_model.
  destruct (String.eqb_spec name "linear") as [->|_].
  { exfalso. apply Hout. simpl. auto. }
  destruct (String.eqb_spec name "random_forest") as [->|_].
  { exfalso. apply Hout. simpl. auto. }
  destruct (String.eqb_spec name "gradient_boosting") as [->|_].
  { exfalso. apply Hout. simpl. auto. }
  reflexivity.
Qed.

End ModelFactoryFacts.

Section ModelFactoryExamples.

Import ModelFactory Samples.

Lemma train_model_dispatch_witness :
  train_model unit unit Estimator sample_fit tt tt "svm"
  = Raise (ValueError "Unknown model type: svm").
Proof.
  destruct (train_model_dispatch unit unit Estimator sample_fit tt tt "svm")
    as [H _].
  apply H. simpl. intros [E|[E|[E|[]]]]; discriminate E.
Defined.

(** C3, as stated, fails: for the name "svm" the message of the error is
    "Unknown model type: svm", which names none of the supported choices. *)
Lemma unknown_model_message_omits_choices :
  ~ (forall name : string,
        ~ In name supported ->
        exists e,
          train_model unit unit Estimator sample_fit tt tt name = Raise e
          /\ forallb (contains (exn_message e)) supported = true).
Proof.
  intros H. destruct (H "svm"%string) as [e [He Hall]].
  - simpl. intros [E|[E|[E|[]]]]; discriminate E.
  - vm_compute in He. injection He as <-.
    vm_compute in Hall. discriminate Hall.
Qed.

Example svm_message_names_no_choice :
  map (contains "Unknown model type: svm") supported = [false; false; false].
Proof. vm_compute. reflexivity. Qed.

End ModelFactoryExamples.

(** ** Comparisons *)

Section Comparisons.

Lemma Qlt_bool_iff (x y : Q) : Qlt_bool x y = true <-> x < y.
Proof.
  unfold Qlt_bool. rewrite negb_true_iff.
  split.
  - intros H. apply Qnot_le_lt. intros Hle.
    apply Qle_bool_iff in Hle. congruence.
  - intros H. destruct (Qle_bool y x) eqn:E; [|reflexivity].
    apply Qle_bool_iff in E. lra.
Qed.

End Comparisons.

(** ** Evaluator: the clinical-accuracy statements *)

Section ClinicalAccuracyText.

Import SourceText.

(** Brackets that are open when a line is entered stay open, below the ones
    the line opens, unless the line closes them. *)
Lemma scan_frame (base : list ascii) (s : string) :
  forall (st : lex_state) (opened opened' : list ascii),
    scan st opened s = Some opened' ->
    scan st (opened ++ base) s = Some (opened' ++ base).
Proof.
  induction s as [|c s IH]; intros st opened opened' H.
  - destruct st; simpl in *; congruence.
  - destruct st as [|q|q]; cbn [scan] in *.
    + destruct (Ascii.eqb c "#"); [congruence|].
      destruct (Ascii.eqb c "'" || Ascii.eqb c "034"); [now apply IH|].
      destruct (is_opener c); [exact (IH Code (c :: opened) opened' H)|].
      destruct (is_closer c); [|now apply IH].
      destruct opened as [|o opened]; [discriminate H|].
      cbn [app]. destruct (closes o c); [now apply IH | discriminate H].
    + destruct (Ascii.eqb c "\"); [now apply IH|].
      destruct (Ascii.eqb c q); now apply IH.
    + now apply IH.
Qed.

(** Lines that are balanced in themselves leave the open brackets as they
    found them. *)
Lemma scan_lines_balanced (base : list ascii) (lines : list string) :
  Forall (fun l => scan Code [] l = Some []) lines ->
  scan_lines base lines = Some base.
Proof.
  induction 1 as [|l lines Hl _ IH]; [reflexivity|].
  cbn [scan_lines].
  pose proof (scan_frame base l Code [] [] Hl) as E. cbn [app] in E.
  rewrite E. exact IH.
Qed.

(** C5: the defect.  Each of the two statements that compute the fractions
    opens two parentheses and closes one.  After line 294 one parenthesis is
    open, after line 295 two are, and whatever lines follow that are
    balanced in themselves, as lines 296 to 316 are, both are still open
    where the file ends: the script is rejected before anything runs, and
    neither fraction is computed.  With the missing parenthesis in place
    each of the two lines is complete. *)
Theorem clinical_accuracy_never_closed (rest : list string) :
  Forall (fun l => scan Code [] l = Some []) rest ->
  scan Code [] line_294 = Some ["("%char]
  /\ scan_lines [] [line_294; line_295] = Some ["("%char; "("%char]
  /\ scan_lines [] (line_294 :: line_295 :: rest)
     = Some ["("%char; "("%char]
  /\ scan Code [] (line_294 +:+ ")") = Some []
  /\ scan Code [] (line_295 +:+ ")") = Some [].
Proof.
  intros Hrest.
  split; [vm_compute; reflexivity|].
  split; [vm_compute; reflexivity|].
  split; [|split; vm_compute; reflexivity].
  change (scan_lines [] (line_294 :: line_295 :: rest))
    with (match scan Code [] line_294 with
          | Some o =>
              match scan Code o line_295 with
              | Some o' => scan_lines o' rest
              | None => None
              end
          | None => None
          end).
  replace (scan Code [] line_294) with (Some ["("%char])
    by (vm_compute; reflexivity).
  replace (scan Code ["("%char] line_295) with (Some ["("%char; "("%char])
    by (vm_compute; reflexivity).
  apply scan_lines_balanced. exact Hrest.
Qed.

Lemma clinical_accuracy_never_closed_witness :
  scan_lines [] [line_294; line_295; line_296; line_297]
  = Some ["("%char; "("%char].
Proof.
  apply (clinical_accuracy_never_closed [line_296; line_297]).
  repeat constructor.
Defined.

Example balanced_line_sample :
  scan Code [] line_296 = Some []
  /\ scan Code [] "x = (a[0] + b) # ("%string = Some []
  /\ scan Code [] "x = f(a]"%string = None.
Proof. repeat split; vm_compute; reflexivity. Qed.

End ClinicalAccuracyText.

(** ** Splitter/Scaler *)

Section ScalerFacts.

Import Scaler.

Variable sqrt : Q -> Q.

(** C8.  The scaler is fitted on the training subset only: after the two
    calls of [main] its state is the fit of the training matrix, whatever
    the test matrix is, so two runs on the same training subset leave the
    same means and variances. *)
Theorem scaler_fit_ignores_test (X_train X_test1 X_test2 : Matrix) :
  snd (run_standardize sqrt X_train X_test1)
  = snd (run_standardize sqrt X_train X_test2)
  /\ snd (run_standardize sqrt X_train X_test1)
     = match fit X_train with
       | Ok p => Some p
       | Raise _ => None
       end.
Proof.
  unfold run_standardize, standardize, bind, fit_transform, transform, ret.
  destruct (fit X_train) as [p|e]; [|split; reflexivity].
  destruct (transform_with sqrt p X_train); [|split; reflexivity].
  destruct (transform_with sqrt p X_test1);
    destruct (transform_with sqrt p X_test2); split; reflexivity.
Qed.

Example scaler_fit_sample :
  fit [[Finite 1; Finite 2]; [Finite 3; NaN]]
  = Ok (mkScaler [Some (4 # 2); Some 2] [Some (32 # 32); Some 0]).
Proof. vm_compute. reflexivity. Qed.

End ScalerFacts.

(** ** Strings *)

Section StringFacts.

Lemma string_app_cons (x : ascii) (a b : string) :
  String x a +:+ b = String x (a +:+ b).
Proof. reflexivity. Qed.

Lemma string_app_nil_l (b : string) : "" +:+ b = b.
Proof. reflexivity. Qed.

Lemma string_app_assoc (a b c : string) :
  (a +:+ b) +:+ c = a +:+ (b +:+ c).
Proof.
  induction a as [|x a IH]; [reflexivity|].
  now rewrite !string_app_cons, IH.
Qed.

Lemma string_app_nil_r (a : string) : a +:+ "" = a.
Proof.
  induction a as [|x a IH]; [reflexivity|].
  now rewrite string_app_cons, IH.
Qed.

Lemma string_length_app (a b : string) :
  String.length (a +:+ b) = (String.length a + String.length b)%nat.
Proof.
  induction a as [|x a IH]; [reflexivity|].
  rewrite string_app_cons. simpl. now rewrite IH.
Qed.

(** Two concatenations with tails of equal length agree part by part. *)
Lemma string_app_inj_tail (a c b d : string) :
  String.length b = String.length d ->
  a +:+ b = c +:+ d -> a = c /\ b = d.
Proof.
  revert c.
  induction a as [|x a IH]; intros [|y c] Hlen Heq;
    rewrite ?string_app_cons, ?string_app_nil_l in Heq.
  - split; [reflexivity | exact Heq].
  - exfalso. subst b. simpl in Hlen. rewrite string_length_app in Hlen. lia.
  - exfalso. subst d. simpl in Hlen. rewrite string_length_app in Hlen. lia.
  - injection Heq as -> Heq.
    destruct (IH c Hlen Heq) as [-> ->]. split; reflexivity.
Qed.

Lemma string_app_inj_head (a b c : string) : a +:+ b = a +:+ c -> b = c.
Proof.
  induction a as [|x a IH]; intros H; [exact H|].
  rewrite !string_app_cons in H. injection H as H. auto.
Qed.

Lemma all_digits_app (a b : string) :
  all_digits (a +:+ b) = all_digits a && all_digits b.
Proof.
  induction a as [|x a IH]; [reflexivity|].
  rewrite string_app_cons. simpl. now rewrite IH, andb_assoc.
Qed.

Lemma digit_char_is_digit (n : nat) : is_digit (digit_char n) = true.
Proof.
  unfold digit_char.
  assert (H : (n mod 10 < 10)%nat) by (apply Nat.mod_upper_bound; lia).
  destruct (n mod 10)%nat as [|[|[|[|[|[|[|[|[|[|m]]]]]]]]]];
    try reflexivity; lia.
Qed.

Lemma pad_digits_length (k n : nat) : String.length (pad_digits k n) = k.
Proof.
  revert n. induction k as [|k IH]; intros n; simpl; [reflexivity|].
  rewrite string_length_app, IH. simpl. lia.
Qed.

Lemma pad_digits_all_digits (k n : nat) : all_digits (pad_digits k n) = true.
Proof.
  revert n. induction k as [|k IH]; intros n; simpl; [reflexivity|].
  rewrite all_digits_app, IH.
  change (all_digits (String (digit_char n) ""))
    with (is_digit (digit_char n) && true).
  now rewrite digit_char_is_digit.
Qed.

Lemma string_of_uint_all_digits (d : Decimal.uint) :
  all_digits (NilEmpty.string_of_uint d) = true.
Proof. induction d; simpl; auto. Qed.

Lemma str_nat_all_digits (n : nat) : all_digits (str_nat n) = true.
Proof.
  unfold str_nat, NilZero.string_of_uint.
  destruct (Nat.to_uint n) eqn:E; try reflexivity;
    rewrite <- E; apply string_of_uint_all_digits.
Qed.

Lemma str_nat_nonempty (n : nat) : str_nat n <> ""%string.
Proof.
  unfold str_nat, NilZero.string_of_uint.
  destruct (Nat.to_uint n); discriminate.
Qed.

Lemma format_6f_six_decimals (x : Q) : six_decimals (format_6f x).
Proof.
  unfold format_6f.
  set (r := round_half_even (Qabs x * 1000000)).
  exists (if Qlt_bool x 0 then "-" else "")%string,
         (str_nat (Z.to_nat (r / 1000000))),
         (pad_digits 6 (Z.to_nat (r mod 1000000))).
  split; [|split; [|split; [|split; [|split]]]].
  - reflexivity.
  - destruct (Qlt_bool x 0); auto.
  - apply str_nat_nonempty.
  - apply str_nat_all_digits.
  - apply pad_digits_all_digits.
  - apply pad_digits_length.
Qed.

Lemma strftime_length (t : Timestamp) : String.length (strftime t) = 15%nat.
Proof.
  unfold strftime. rewrite !string_length_app, !pad_digits_length.
  reflexivity.
Qed.

End StringFacts.

(** ** ArtifactExporter *)

Section ExporterFacts.

Import Exporter ExporterSpec.

Lemma path_join_relative (d f : string) :
  startswith f "/" = false -> path_join d f = dir_prefix d +:+ f.
Proof.
  intros H. unfold path_join, dir_prefix. rewrite H.
  destruct (String.eqb d "" || endswith d "/"); [reflexivity|].
  now rewrite string_app_assoc.
Qed.

Lemma csv_name_relative (m : Model) (t : Timestamp) :
  startswith (csv_name m t) "/" = false.
Proof. destruct m; reflexivity. Qed.

Lemma joblib_name_relative (m : Model) (t : Timestamp) :
  startswith (joblib_name m t) "/" = false.
Proof. destruct m; reflexivity. Qed.

(** *** Paths *)

Lemma rstrip_slash_cons (c : ascii) (s : string) :
  rstrip_slash (String c s)
  = match rstrip_slash s with
    | EmptyString =>
        if Ascii.eqb c "/" then EmptyString else String c EmptyString
    | r => String c r
    end.
Proof. reflexivity. Qed.

Lemma rsplit_slash_cons (c : ascii) (s : string) :
  rsplit_slash (String c s)
  = match fst (rsplit_slash s) with
    | EmptyString =>
        if Ascii.eqb c "/" then (String c EmptyString, snd (rsplit_slash s))
        else (EmptyString, String c (snd (rsplit_slash s)))
    | h => (String c h, snd (rsplit_slash s))
    end.
Proof. cbn [rsplit_slash]. destruct (rsplit_slash s) as [[|x h] t]; reflexivity. Qed.

Lemma string_app_nonempty (a b : string) :
  b <> ""%string -> a +:+ b <> ""%string.
Proof.
  intros Hb E. apply (f_equal String.length) in E.
  rewrite string_length_app in E. destruct b; [contradiction|].
  simpl in E. lia.
Qed.

Lemma rstrip_slash_trailing (a : string) :
  rstrip_slash (a +:+ "/") = rstrip_slash a.
Proof.
  induction a as [|c a IH]; [reflexivity|].
  rewrite string_app_cons, !rstrip_slash_cons, IH. reflexivity.
Qed.

Lemma rstrip_slash_idem (s : string) :
  rstrip_slash (rstrip_slash s) = rstrip_slash s.
Proof.
  induction s as [|c s IH]; [reflexivity|].
  rewrite rstrip_slash_cons.
  destruct (rstrip_slash s) as [|x r] eqn:E.
  - destruct (Ascii.eqb c "/") eqn:Ec; [reflexivity|].
    rewrite rstrip_slash_cons. cbn [rstrip_slash]. rewrite Ec. reflexivity.
  - rewrite rstrip_slash_cons, IH. reflexivity.
Qed.

Lemma leads_to_refl (p : string) : leads_to p p.
Proof. exists ""%string. now rewrite string_app_nil_r. Qed.

Lemma leads_to_trans (p q d : string) :
  leads_to p q -> leads_to q d -> leads_to p d.
Proof.
  intros [a ->] [b ->]. exists (a +:+ b). apply string_app_assoc.
Qed.

Lemma rstrip_slash_leads (s : string) : leads_to (rstrip_slash s) s.
Proof.
  induction s as [|c s [rest IH]]; [apply leads_to_refl|].
  rewrite rstrip_slash_cons.
  destruct (rstrip_slash s) as [|x r].
  - destruct (Ascii.eqb c "/").
    + exists (String c s). reflexivity.
    + exists s. reflexivity.
  - exists rest. rewrite string_app_cons. congruence.
Qed.

Lemma rsplit_slash_app (p : string) :
  fst (rsplit_slash p) +:+ snd (rsplit_slash p) = p.
Proof.
  induction p as [|c p IH]; [reflexivity|].
  rewrite rsplit_slash_cons.
  destruct (fst (rsplit_slash p)) as [|x h].
  - rewrite string_app_nil_l in IH.
    destruct (Ascii.eqb c "/"); cbn [fst snd];
      rewrite ?string_app_cons, ?string_app_nil_l; congruence.
  - cbn [fst snd]. rewrite string_app_cons. congruence.
Qed.

Lemma path_split_leads (p : string) : leads_to (fst (path_split p)) p.
Proof.
  unfold path_split.
  pose proof (rsplit_slash_app p) as E.
  destruct (rsplit_slash p) as [h t]. cbn [fst snd] in *.
  assert (Hh : leads_to h p) by (exists t; congruence).
  pose proof (rstrip_slash_leads h) as Hr.
  destruct (rstrip_slash h); [exact Hh|].
  eapply leads_to_trans; eassumption.
Qed.

Lemma rsplit_slash_no_slash (n : string) :
  no_slash n = true -> rsplit_slash n = (""%string, n).
Proof.
  induction n as [|c n IH]; [reflexivity|].
  cbn [no_slash]. intros H. apply andb_true_iff in H. destruct H as [Hc Hn].
  rewrite rsplit_slash_cons, (IH Hn). cbn [fst snd].
  apply negb_true_iff in Hc. rewrite Hc. reflexivity.
Qed.

Lemma rsplit_slash_app_tail (x n : string) :
  no_slash n = true ->
  rsplit_slash (x +:+ n)
  = (fst (rsplit_slash x), snd (rsplit_slash x) +:+ n).
Proof.
  intros Hn. induction x as [|c x IH].
  - rewrite string_app_nil_l. now apply rsplit_slash_no_slash.
  - rewrite string_app_cons, !rsplit_slash_cons, IH. cbn [fst snd].
    destruct (fst (rsplit_slash x)); [destruct (Ascii.eqb c "/")|];
      reflexivity.
Qed.

Lemma rsplit_slash_trailing (a : string) :
  rsplit_slash (a +:+ "/") = (a +:+ "/", ""%string).
Proof.
  induction a as [|c a IH]; [reflexivity|].
  rewrite string_app_cons, rsplit_slash_cons, IH. cbn [fst snd].
  destruct (a +:+ "/") eqn:E; [|reflexivity].
  exfalso. revert E. apply string_app_nonempty. discriminate.
Qed.

(** A string that ends with a separator. *)
Lemma endswith_slash (d : string) :
  endswith d "/" = true -> exists a, d = a +:+ "/".
Proof.
  unfold endswith. change (String.length "/") with 1%nat.
  intros H. apply andb_true_iff in H. destruct H as [Hlen H].
  apply String.eqb_eq in H. apply Nat.leb_le in Hlen.
  induction d as [|c d IH]; [simpl in Hlen; lia|].
  destruct d as [|c' d].
  - simpl in H. injection H as ->. exists ""%string. reflexivity.
  - assert (E : substring (String.length (String c (String c' d)) - 1) 1
                  (String c (String c' d))
                = substring (String.length (String c' d) - 1) 1
                    (String c' d)).
    { simpl. rewrite Nat.sub_0_r. reflexivity. }
    rewrite E in H.
    destruct (IH ltac:(simpl; lia) H) as [a Ha].
    exists (String c a). rewrite string_app_cons. congruence.
Qed.

(** The directory part that [os.path.join] puts in front of a file name
    ends with a separator. *)
Lemma dir_prefix_trailing (d : string) :
  d <> ""%string ->
  exists a, dir_prefix d = a +:+ "/" /\ rstrip_slash a = rstrip_slash d.
Proof.
  intros Hd. unfold dir_prefix.
  destruct (String.eqb_spec d "") as [E|_]; [contradiction|]. cbn [orb].
  destruct (endswith d "/") eqn:E.
  - destruct (endswith_slash d E) as [a ->]. exists a.
    split; [reflexivity|]. symmetry. apply rstrip_slash_trailing.
  - exists d. split; reflexivity.
Qed.

Lemma no_slash_relative (n : string) :
  no_slash n = true -> startswith n "/" = false.
Proof.
  destruct n as [|c n]; [reflexivity|].
  cbn [no_slash]. intros H. apply andb_true_iff in H. destruct H as [Hc _].
  apply negb_true_iff in Hc. unfold startswith. cbn -[ascii_dec].
  destruct (ascii_dec "/" c) as [<-|N]; [discriminate Hc | reflexivity].
Qed.

(** The directory part of a file placed in [d] names the directory [d]. *)
Lemma path_join_parent (d name : string) :
  d <> ""%string -> no_slash name = true ->
  fst (path_split (path_join d name)) <> ""%string
  /\ rstrip_slash (fst (path_split (path_join d name))) = rstrip_slash d.
Proof.
  intros Hd Hn.
  rewrite path_join_relative by now apply no_slash_relative.
  destruct (dir_prefix_trailing d Hd) as (a & -> & <-).
  unfold path_split.
  rewrite rsplit_slash_app_tail, rsplit_slash_trailing by exact Hn.
  cbn [fst snd]. rewrite rstrip_slash_trailing.
  destruct (rstrip_slash a) as [|x r] eqn:E; cbn [fst].
  - split; [apply string_app_nonempty; discriminate|].
    rewrite rstrip_slash_trailing. exact E.
  - split; [discriminate|].
    rewrite <- E. apply rstrip_slash_idem.
Qed.

Lemma path_join_nonempty (d name : string) :
  name <> ""%string -> no_slash name = true ->
  path_join d name <> ""%string.
Proof.
  intros Hne Hn.
  rewrite path_join_relative by now apply no_slash_relative.
  now apply string_app_nonempty.
Qed.

(** *** File names *)

Lemma no_slash_app (a b : string) :
  no_slash (a +:+ b) = no_slash a && no_slash b.
Proof.
  induction a as [|x a IH]; [reflexivity|].
  rewrite string_app_cons. simpl. now rewrite IH, andb_assoc.
Qed.

Lemma all_digits_no_slash (s : string) :
  all_digits s = true -> no_slash s = true.
Proof.
  induction s as [|c s IH]; [reflexivity|]. simpl.
  intros H. apply andb_true_iff in H. destruct H as [Hc Hs].
  rewrite (IH Hs), andb_true_r.
  destruct (Ascii.eqb_spec c "/") as [->|_]; [discriminate Hc | reflexivity].
Qed.

Lemma strftime_no_slash (t : Timestamp) : no_slash (strftime t) = true.
Proof.
  unfold strftime.
  rewrite !no_slash_app.
  rewrite !andb_true_iff.
  repeat split;
    first [apply all_digits_no_slash, pad_digits_all_digits | reflexivity].
Qed.

Lemma csv_name_no_slash (m : Model) (t : Timestamp) :
  no_slash (csv_name m t) = true.
Proof.
  unfold csv_name. rewrite !no_slash_app, strftime_no_slash.
  destruct m; reflexivity.
Qed.

Lemma joblib_name_no_slash (m : Model) (t : Timestamp) :
  no_slash (joblib_name m t) = true.
Proof.
  unfold joblib_name. rewrite !no_slash_app, strftime_no_slash.
  destruct m; reflexivity.
Qed.

Lemma csv_name_nonempty (m : Model) (t : Timestamp) :
  csv_name m t <> ""%string.
Proof.
  unfold csv_name. rewrite <- !string_app_assoc.
  apply string_app_nonempty. discriminate.
Qed.

Lemma joblib_name_nonempty (m : Model) (t : Timestamp) :
  joblib_name m t <> ""%string.
Proof.
  unfold joblib_name. rewrite <- !string_app_assoc.
  apply string_app_nonempty. discriminate.
Qed.

(** *** The primitives *)

Lemma is_dir_rstrip (w : World) (p q : string) :
  p <> ""%string -> q <> ""%string -> rstrip_slash p = rstrip_slash q ->
  is_dir w p = is_dir w q.
Proof.
  intros Hp Hq E. destruct p; [contradiction|]. destruct q; [contradiction|].
  unfold is_dir. rewrite E. reflexivity.
Qed.

Lemma is_dir_same_dirs (w w' : World) (p : string) :
  dirs w' = dirs w -> is_dir w' p = is_dir w p.
Proof. intros E. unfold is_dir. rewrite E. reflexivity. Qed.

Lemma is_dir_nonempty (w : World) (p : string) :
  is_dir w p = true -> p <> ""%string.
Proof. intros H ->. discriminate H. Qed.

Lemma resolve_dir_cases (w : World) (h : string) :
  (resolve_dir w h = Ok tt /\ (h = ""%string \/ is_dir w h = true))
  \/ exists msg, resolve_dir w h = Raise (OSError msg).
Proof.
  unfold resolve_dir. destruct h as [|c h]; [left; auto|].
  destruct (is_dir w (String c h)); [left; auto|].
  destruct (is_file w _); right; eauto.
Qed.

Lemma grows_towards_refl (d : string) (w : World) : grows_towards d w w.
Proof. repeat split; auto. Qed.

Lemma grows_towards_trans (h d : string) (w w1 w2 : World) :
  leads_to h d ->
  grows_towards h w w1 -> grows_towards d w1 w2 -> grows_towards d w w2.
Proof.
  intros Hhd (F1 & S1 & D1 & Sub1 & New1) (F2 & S2 & D2 & Sub2 & New2).
  repeat split; try congruence.
  - etransitivity; eassumption.
  - intros p Hp. destruct (New2 p Hp) as [Hp1|Hl]; [|auto].
    destruct (New1 p Hp1) as [Hp0|Hl]; [auto|].
    right. eapply leads_to_trans; eassumption.
Qed.

Lemma grows_towards_weaken (h d : string) (w w1 : World) :
  leads_to h d -> grows_towards h w w1 -> grows_towards d w w1.
Proof.
  intros Hhd H.
  exact (grows_towards_trans h d w w1 w1 Hhd H (grows_towards_refl d w1)).
Qed.

(** [mkdir] fails with [OSError] and changes nothing, or adds the
    directory. *)
Lemma mkdir_cases (p : string) (w : World) :
  (exists msg, mkdir p w = (Raise (OSError msg), w))
  \/ (mkdir p w
      = (Ok tt,
         mkWorld ({[rstrip_slash p]} ∪ dirs w) (files w) (stdout w) (denied w))
      /\ p <> ""%string).
Proof.
  unfold mkdir. destruct (path_split p) as [head tail].
  destruct (String.eqb_spec p "") as [->|Hp]; [left; eauto|].
  destruct (is_dir w p || is_file w (rstrip_slash p)); [left; eauto|].
  destruct (resolve_dir_cases w
              (if String.eqb tail "" then fst (path_split head) else head))
    as [[-> _]|[msg ->]]; [|left; eauto].
  destruct (bool_decide (rstrip_slash p ∈ denied w)); [left; eauto|].
  right. auto.
Qed.

Lemma mkdir_grows (p : string) (w : World) :
  grows_towards p w (snd (mkdir p w))
  /\ (forall e, fst (mkdir p w) = Raise e -> exists msg, e = OSError msg).
Proof.
  destruct (mkdir_cases p w) as [[msg ->]|[-> Hp]]; cbn [fst snd].
  - split; [apply grows_towards_refl|].
    intros e H. injection H as <-. eauto.
  - split; [|discriminate].
    repeat split; cbn [dirs files stdout denied].
    + intros q Hq. apply elem_of_union. right. exact Hq.
    + intros q Hq. apply elem_of_union in Hq. destruct Hq as [Hq|Hq]; auto.
      apply elem_of_singleton in Hq. subst q.
      right. apply rstrip_slash_leads.
Qed.

(** [os.makedirs] adds only directories, each an initial part of the path
    it is given, and fails with [OSError] only. *)
Lemma makedirs_from_grows (fuel : nat) :
  forall (name : string) (w : World),
    grows_towards name w (snd (makedirs_from fuel name w))
    /\ (forall e, fst (makedirs_from fuel name w) = Raise e ->
                  exists msg, e = OSError msg).
Proof.
  induction fuel as [|fuel IH]; intros name w; cbn [makedirs_from].
  - destruct (path_split name) as [head tail].
    destruct (if String.eqb tail "" then path_split head else (head, tail)).
    apply mkdir_grows.
  - pose proof (path_split_leads name) as Hhead.
    destruct (path_split name) as [head tail]. cbn [fst] in Hhead.
    assert (Hhead' :
      leads_to (fst (if String.eqb tail "" then path_split head
                     else (head, tail))) name).
    { destruct (String.eqb tail ""); [|exact Hhead].
      eapply leads_to_trans; [apply path_split_leads | exact Hhead]. }
    destruct (if String.eqb tail "" then path_split head else (head, tail))
      as [head' tail'].
    cbn [fst] in Hhead'.
    destruct (negb (String.eqb head' "") && negb (String.eqb tail' ""));
      [|apply mkdir_grows].
    unfold bind, path_exists.
    destruct (is_dir w head' || is_file w head'); [apply mkdir_grows|].
    destruct (IH head' w) as [Hg He].
    destruct (makedirs_from fuel head' w) as [[[]|e] w1]; cbn [fst snd] in *.
    + destruct (String.eqb tail' ".").
      * unfold ret. cbn [fst snd]. split; [|discriminate].
        eapply grows_towards_weaken; eassumption.
      * destruct (mkdir_grows name w1) as [Hg1 He1].
        split; [|exact He1].
        eapply grows_towards_trans; eassumption.
    + split; [eapply grows_towards_weaken; eassumption | exact He].
Qed.

Lemma prepare_dir_grows (d : string) (w : World) :
  grows_towards d w (snd (prepare_dir d w))
  /\ (forall e, fst (prepare_dir d w) = Raise e -> exists msg, e = OSError msg)
  /\ (is_dir w d = true -> prepare_dir d w = (Ok tt, w)).
Proof.
  unfold prepare_dir, bind, path_exists, ret, makedirs.
  destruct (is_dir w d) eqn:Ed; cbn [orb].
  - cbn [fst snd].
    split; [apply grows_towards_refl|]. split; [discriminate | reflexivity].
  - destruct (is_file w d); cbn [fst snd].
    + split; [apply grows_towards_refl|]. split; discriminate.
    + destruct (makedirs_from_grows (String.length d) d w) as [Hg He].
      split; [exact Hg|]. split; [exact He | discriminate].
Qed.

(** With an empty path for the directory the call to [os.makedirs] fails
    and nothing changes. *)
Lemma prepare_dir_empty (w : World) :
  prepare_dir "" w = (Raise (OSError "No such file or directory"), w).
Proof. reflexivity. Qed.

Lemma write_file_cases (p : string) (c : Content) (w : World) :
  (exists msg, write_file p c w = (Raise (OSError msg), w))
  \/ (write_file p c w
      = (Ok tt,
         mkWorld (dirs w) (<[p := c]> (files w)) (stdout w) (denied w))
      /\ (fst (path_split p) = ""%string
          \/ is_dir w (fst (path_split p)) = true)).
Proof.
  unfold write_file.
  destruct (resolve_dir_cases w (fst (path_split p)))
    as [[-> H]|[msg ->]]; [|left; eauto].
  destruct (String.eqb p ""); [left; eauto|].
  destruct (is_dir w p); [left; eauto|].
  destruct (bool_decide (p ∈ denied w)); [left; eauto|].
  right. auto.
Qed.

Lemma write_file_returns (p : string) (c : Content) (w : World) :
  p <> ""%string -> is_dir w (fst (path_split p)) = true ->
  can_write w p = true ->
  write_file p c w
  = (Ok tt, mkWorld (dirs w) (<[p := c]> (files w)) (stdout w) (denied w)).
Proof.
  intros Hp Hdir Hcan. unfold write_file, resolve_dir.
  rewrite Hdir.
  destruct (fst (path_split p)) as [|x h] eqn:E; [discriminate Hdir|].
  destruct (String.eqb_spec p "") as [->|_]; [contradiction|].
  unfold can_write in Hcan. apply andb_true_iff in Hcan.
  destruct Hcan as [H1 H2].
  apply negb_true_iff in H1, H2. rewrite H1, H2. reflexivity.
Qed.

(** A file in an existing directory [d] that nothing prevents is written. *)
Lemma write_in_dir (d name : string) (c : Content) (w : World) :
  is_dir w d = true -> name <> ""%string -> no_slash name = true ->
  can_write w (path_join d name) = true ->
  write_file (path_join d name) c w
  = (Ok tt,
     mkWorld (dirs w) (<[path_join d name := c]> (files w)) (stdout w)
       (denied w)).
Proof.
  intros Hd Hne Hn Hcan.
  pose proof (is_dir_nonempty w d Hd) as Hd0.
  destruct (path_join_parent d name Hd0 Hn) as [Hh Hr].
  apply write_file_returns.
  - now apply path_join_nonempty.
  - rewrite (is_dir_rstrip w _ d Hh Hd0 Hr). exact Hd.
  - exact Hcan.
Qed.

(** A file written in [d] shows that [d] is a directory, unless [d] is
    empty. *)
Lemma written_in_dir (d name : string) (w : World) :
  d <> ""%string -> no_slash name = true ->
  (fst (path_split (path_join d name)) = ""%string
   \/ is_dir w (fst (path_split (path_join d name))) = true) ->
  is_dir w d = true.
Proof.
  intros Hd Hn H.
  destruct (path_join_parent d name Hd Hn) as [Hh Hr].
  destruct H as [H|H]; [contradiction|].
  rewrite <- (is_dir_rstrip w _ d Hh Hd Hr). exact H.
Qed.

(** *** What one call does *)

(** The steps of an export of a linear model whose table can be built. *)
Lemma save_linear_steps (b : Q) (coef : list Q) (features : list string)
    (d : string) (t : Timestamp) (w : World) (table : list (string * Q)) :
  data_frame ("intercept"%string :: features) (b :: coef) = Ok table ->
  save_coefficients (LinearModel b coef) features d t w
  = match prepare_dir d w with
    | (Raise e, w1) => (Raise e, w1)
    | (Ok _, w1) =>
        match write_file (path_join d (csv_name (LinearModel b coef) t))
                (CoeffTable table) w1 with
        | (Raise e, w2) => (Raise e, w2)
        | (Ok _, w2) =>
            match write_file (path_join d header_name)
                    (Text (header_text table)) w2 with
            | (Raise e, w3) => (Raise e, w3)
            | (Ok _, w3) =>
                (Ok (path_join d (csv_name (LinearModel b coef) t)),
                 mkWorld (dirs w3) (files w3)
                   ((stdout w3
                       ++ [nl +:+ "Saved Arduino header to: "
                             +:+ path_join d header_name])
                      ++ ["Saved coefficients to: "
                            +:+ path_join d
                                  (csv_name (LinearModel b coef) t)])
                   (denied w3))
            end
        end
    end.
Proof.
  intros Htable.
  unfold save_coefficients, prepare_dir, bind, path_exists, lift, print,
    modify, ret.
  rewrite Htable.
  destruct (is_dir w d || is_file w d).
  - destruct (write_file _ (CoeffTable table) w) as [[[]|e] w2];
      [|reflexivity].
    destruct (write_file _ (Text (header_text table)) w2) as [[[]|e] w3];
      reflexivity.
  - destruct (makedirs d w) as [[[]|e] w1]; [|reflexivity].
    destruct (write_file _ (CoeffTable table) w1) as [[[]|e] w2];
      [|reflexivity].
    destruct (write_file _ (Text (header_text table)) w2) as [[[]|e] w3];
      reflexivity.
Qed.

Lemma save_mismatch_steps (b : Q) (coef : list Q) (features : list string)
    (d : string) (t : Timestamp) (w : World) (e : exn) :
  data_frame ("intercept"%string :: features) (b :: coef) = Raise e ->
  save_coefficients (LinearModel b coef) features d t w
  = match prepare_dir d w with
    | (Raise e', w1) => (Raise e', w1)
    | (Ok _, w1) => (Raise e, w1)
    end.
Proof.
  intros Htable.
  unfold save_coefficients, prepare_dir, bind, path_exists, lift, print,
    modify, ret.
  rewrite Htable.
  destruct (is_dir w d || is_file w d); [reflexivity|].
  destruct (makedirs d w) as [[[]|e'] w1]; reflexivity.
Qed.

Lemma save_ensemble_steps (m : Model) (features : list string) (d : string)
    (t : Timestamp) (w : World) :
  is_linear m = false ->
  save_coefficients m features d t w
  = match prepare_dir d w with
    | (Raise e, w1) => (Raise e, w1)
    | (Ok _, w1) =>
        match write_file (path_join d (joblib_name m t)) (Joblib m) w1 with
        | (Raise e, w2) => (Raise e, w2)
        | (Ok _, w2) =>
            (Ok (path_join d (csv_name m t)),
             mkWorld (dirs w2) (files w2)
               (((stdout w2
                    ++ ["Tree-based models require TinyML conversion for Arduino deployment"])
                   ++ ["Exported model in joblib format for reference"])
                  ++ ["Saved coefficients to: " +:+ path_join d (csv_name m t)])
               (denied w2))
        end
    end.
Proof.
  intros Hm.
  unfold save_coefficients, prepare_dir, bind, path_exists, lift, print,
    modify, ret, joblib_name, csv_name.
  destruct m; try discriminate Hm; cbn [class_name];
    (destruct (is_dir w d || is_file w d);
     [|destruct (makedirs d w) as [[[]|e] w1]; [|reflexivity]];
     match goal with
     | |- context [write_file ?p ?c ?w0] =>
         destruct (write_file p c w0) as [[[]|e'] w2]
     end; reflexivity).
Qed.

(** When the directory has been prepared, its path is not empty. *)
Lemma prepare_dir_ok_nonempty (d : string) (w w1 : World) :
  prepare_dir d w = (Ok tt, w1) -> d <> ""%string.
Proof. intros H ->. rewrite prepare_dir_empty in H. discriminate H. Qed.

(** The outcomes of an export of a linear model whose table can be built:
    it fails with [OSError] before the table is written or before the
    header is, or it returns with both written. *)
Lemma save_linear_outcome (b : Q) (coef : list Q) (features : list string)
    (d : string) (t : Timestamp) (w : World) (table : list (string * Q)) :
  data_frame ("intercept"%string :: features) (b :: coef) = Ok table ->
  let csv := path_join d (csv_name (LinearModel b coef) t) in
  let header := path_join d header_name in
  let run := save_coefficients (LinearModel b coef) features d t w in
  exists w1,
    grows_towards d w w1
    /\ dirs (snd run) = dirs w1 /\ denied (snd run) = denied w
    /\ (((exists msg, fst run = Raise (OSError msg))
         /\ stdout (snd run) = stdout w
         /\ (files (snd run) = files w
             \/ files (snd run) = <[csv := CoeffTable table]> (files w)))
        \/ (fst run = Ok csv
            /\ files (snd run)
               = <[header := Text (header_text table)]>
                   (<[csv := CoeffTable table]> (files w))
            /\ stdout (snd run)
               = (stdout w
                    ++ [nl +:+ "Saved Arduino header to: " +:+ header])
                   ++ ["Saved coefficients to: " +:+ csv]
            /\ is_dir w1 d = true)).
Proof.
  intros Htable csv header run. subst run.
  rewrite (save_linear_steps b coef features d t w table Htable).
  fold csv. fold header.
  destruct (prepare_dir_grows d w) as (Hg & He & _).
  destruct (prepare_dir d w) as [[[]|e] w1] eqn:Ep; cbn [fst snd] in *.
  - pose proof (prepare_dir_ok_nonempty d w w1 Ep) as Hd.
    pose proof Hg as (F1 & S1 & D1 & _ & _).
    exists w1. split; [exact Hg|].
    destruct (write_file_cases csv (CoeffTable table) w1)
      as [[msg ->]|[-> Hp]]; cbn [fst snd].
    { split; [reflexivity|]. split; [exact D1|]. left.
      split; [eauto|]. split; [exact S1 | left; exact F1]. }
    set (w2 := mkWorld (dirs w1) (<[csv := CoeffTable table]> (files w1))
                 (stdout w1) (denied w1)).
    destruct (write_file_cases header (Text (header_text table)) w2)
      as [[msg ->]|[-> _]]; subst w2;
      cbn [fst snd dirs files stdout denied].
    { split; [reflexivity|]. split; [exact D1|]. left.
      split; [eauto|]. split; [exact S1|]. right. now rewrite F1. }
    split; [reflexivity|]. split; [exact D1|]. right.
    split; [reflexivity|]. split; [now rewrite F1|].
    split; [now rewrite S1|].
    apply (written_in_dir d (csv_name (LinearModel b coef) t) w1 Hd);
      [apply csv_name_no_slash | exact Hp].
  - pose proof Hg as (F1 & S1 & D1 & _ & _).
    destruct (He e eq_refl) as [msg ->].
    exists w1. split; [exact Hg|]. split; [reflexivity|].
    split; [exact D1|]. left.
    split; [eauto|]. split; [exact S1 | left; exact F1].
Qed.

(** When the table cannot be built the call fails, after the directory has
    been prepared, and writes and prints nothing. *)
Lemma save_mismatch_outcome (b : Q) (coef : list Q) (features : list string)
    (d : string) (t : Timestamp) (w : World) (e : exn) :
  data_frame ("intercept"%string :: features) (b :: coef) = Raise e ->
  let run := save_coefficients (LinearModel b coef) features d t w in
  grows_towards d w (snd run)
  /\ ((exists msg, fst run = Raise (OSError msg)) \/ fst run = Raise e).
Proof.
  intros Htable run. subst run.
  rewrite (save_mismatch_steps b coef features d t w e Htable).
  destruct (prepare_dir_grows d w) as (Hg & He & _).
  destruct (prepare_dir d w) as [[[]|e'] w1]; cbn [fst snd] in *.
  - split; [exact Hg | right; reflexivity].
  - split; [exact Hg|]. left. destruct (He e' eq_refl) as [msg ->]. eauto.
Qed.

(** The outcomes of an export of an ensemble. *)
Lemma save_ensemble_outcome (m : Model) (features : list string)
    (d : string) (t : Timestamp) (w : World) :
  is_linear m = false ->
  let run := save_coefficients m features d t w in
  exists w1,
    grows_towards d w w1
    /\ dirs (snd run) = dirs w1 /\ denied (snd run) = denied w
    /\ (((exists msg, fst run = Raise (OSError msg))
         /\ stdout (snd run) = stdout w
         /\ files (snd run) = files w)
        \/ (fst run = Ok (path_join d (csv_name m t))
            /\ files (snd run)
               = <[path_join d (joblib_name m t) := Joblib m]> (files w)
            /\ stdout (snd run)
               = ((stdout w
                     ++ ["Tree-based models require TinyML conversion for Arduino deployment"])
                    ++ ["Exported model in joblib format for reference"])
                   ++ ["Saved coefficients to: "
                         +:+ path_join d (csv_name m t)]
            /\ is_dir w1 d = true)).
Proof.
  intros Hm run. subst run.
  rewrite (save_ensemble_steps m features d t w Hm).
  destruct (prepare_dir_grows d w) as (Hg & He & _).
  destruct (prepare_dir d w) as [[[]|e] w1] eqn:Ep; cbn [fst snd] in *.
  - pose proof (prepare_dir_ok_nonempty d w w1 Ep) as Hd.
    pose proof Hg as (F1 & S1 & D1 & _ & _).
    exists w1. split; [exact Hg|].
    destruct (write_file_cases (path_join d (joblib_name m t)) (Joblib m) w1)
      as [[msg ->]|[-> Hp]]; cbn [fst snd dirs files stdout denied].
    { split; [reflexivity|]. split; [exact D1|]. left.
      split; [eauto|]. split; [exact S1 | exact F1]. }
    split; [reflexivity|]. split; [exact D1|]. right.
    split; [reflexivity|]. split; [now rewrite F1|].
    split; [now rewrite S1|].
    apply (written_in_dir d (joblib_name m t) w1 Hd);
      [apply joblib_name_no_slash | exact Hp].
  - pose proof Hg as (F1 & S1 & D1 & _ & _).
    destruct (He e eq_refl) as [msg ->].
    exists w1. split; [exact Hg|]. split; [reflexivity|].
    split; [exact D1|]. left.
    split; [eauto|]. split; [exact S1 | exact F1].
Qed.

(** An export of a linear model into an existing directory, with nothing in
    the way of its two files, returns. *)
Lemma save_linear_returns (b : Q) (coef : list Q) (features : list string)
    (d : string) (t : Timestamp) (w : World) (table : list (string * Q)) :
  data_frame ("intercept"%string :: features) (b :: coef) = Ok table ->
  is_dir w d = true ->
  can_write w (path_join d (csv_name (LinearModel b coef) t)) = true ->
  can_write w (path_join d header_name) = true ->
  fst (save_coefficients (LinearModel b coef) features d t w)
  = Ok (path_join d (csv_name (LinearModel b coef) t)).
Proof.
  intros Htable Hd Hcsv Hheader.
  rewrite (save_linear_steps b coef features d t w table Htable).
  destruct (prepare_dir_grows d w) as (_ & _ & Hp). rewrite (Hp Hd).
  rewrite (write_in_dir d _ _ w Hd (csv_name_nonempty _ t)
             (csv_name_no_slash _ t) Hcsv).
  rewrite write_in_dir; [reflexivity | exact Hd | discriminate | reflexivity|].
  exact Hheader.
Qed.

(** An export of an ensemble into an existing directory, with nothing in
    the way of the dump, returns. *)
Lemma save_ensemble_returns (m : Model) (features : list string)
    (d : string) (t : Timestamp) (w : World) :
  is_linear m = false ->
  is_dir w d = true ->
  can_write w (path_join d (joblib_name m t)) = true ->
  fst (save_coefficients m features d t w)
  = Ok (path_join d (csv_name m t)).
Proof.
  intros Hm Hd Hdump.
  rewrite (save_ensemble_steps m features d t w Hm).
  destruct (prepare_dir_grows d w) as (_ & _ & Hp). rewrite (Hp Hd).
  rewrite (write_in_dir d _ _ w Hd (joblib_name_nonempty m t)
             (joblib_name_no_slash m t) Hdump).
  reflexivity.
Qed.

(** *** The recursion of [os.makedirs] *)

Lemma path_split_length (p : string) :
  (String.length (fst (path_split p)) + String.length (snd (path_split p))
   <= String.length p)%nat.
Proof.
  unfold path_split.
  pose proof (rsplit_slash_app p) as E.
  destruct (rsplit_slash p) as [h t]. cbn [fst snd] in *.
  apply (f_equal String.length) in E. rewrite string_length_app in E.
  destruct (rstrip_slash_leads h) as [rest Hr].
  apply (f_equal String.length) in Hr. rewrite string_length_app in Hr.
  destruct (rstrip_slash h); cbn [fst snd]; [lia|]. lia.
Qed.

(** The directory part on which [os.makedirs] calls itself is shorter than
    the path. *)
Lemma makedirs_head_shorter (name : string) :
  let '(head, tail) := path_split name in
  let '(head', tail') :=
    if String.eqb tail "" then path_split head else (head, tail) in
  tail' <> ""%string -> (String.length head' < String.length name)%nat.
Proof.
  pose proof (path_split_length name) as H1.
  destruct (path_split name) as [head tail]. cbn [fst snd] in H1.
  destruct (String.eqb_spec tail "") as [->|Hne].
  - pose proof (path_split_length head) as H2.
    destruct (path_split head) as [head' tail']. cbn [fst snd] in H2.
    intros Ht. destruct tail'; [contradiction|]. simpl in *. lia.
  - intros _. destruct tail; [contradiction|]. simpl in *. lia.
Qed.

(** The result of [makedirs_from] is the same for every fuel that is at
    least the length of the path: the bound in [makedirs] never cuts the
    recursion short. *)
Lemma makedirs_from_enough (fuel1 : nat) :
  forall (fuel2 : nat) (name : string) (w : World),
    (String.length name <= fuel1)%nat -> (String.length name <= fuel2)%nat ->
    makedirs_from fuel1 name w = makedirs_from fuel2 name w.
Proof.
  assert (Hbase : forall fuel w, makedirs_from fuel "" w = mkdir "" w).
  { intros [|fuel] w; reflexivity. }
  induction fuel1 as [|fuel1 IH]; intros fuel2 name w H1 H2.
  - destruct name; [|simpl in H1; lia]. now rewrite !Hbase.
  - destruct fuel2 as [|fuel2].
    { destruct name; [|simpl in H2; lia]. now rewrite !Hbase. }
    cbn [makedirs_from].
    pose proof (makedirs_head_shorter name) as Hshort.
    destruct (path_split name) as [head tail].
    destruct (if String.eqb tail "" then path_split head else (head, tail))
      as [head' tail'].
    destruct (String.eqb_spec head' "") as [_|Hh]; [reflexivity|].
    destruct (String.eqb_spec tail' "") as [_|Ht]; [reflexivity|].
    cbn [negb andb]. unfold bind, path_exists.
    destruct (is_dir w head' || is_file w head'); [reflexivity|].
    specialize (Hshort Ht).
    rewrite (IH fuel2 head' w) by lia. reflexivity.
Qed.

Example makedirs_creates_parents :
  dirs (snd (makedirs "models/production/v2" empty_world))
  = {["models"; "models/production"; "models/production/v2"]}%string
  /\ fst (makedirs "models/production/v2" empty_world) = Ok tt.
Proof.
  split; [|vm_compute; reflexivity].
  apply set_eq. intros p.
  rewrite !elem_of_union, !elem_of_singleton.
  change (p ∈ dirs (snd (makedirs "models/production/v2" empty_world)))
    with (p ∈ ({["models/production/v2"%string]}
               ∪ ({["models/production"%string]}
                  ∪ ({["models"%string]} ∪ (∅ : gset string))))).
  rewrite !elem_of_union, !elem_of_singleton, elem_of_empty. tauto.
Qed.

(** *** Distinct paths *)

Lemma last_char_app (a b : string) :
  b <> ""%string -> last_char (a +:+ b) = last_char b.
Proof.
  intros Hb. induction a as [|x a IH]; [reflexivity|].
  rewrite string_app_cons. simpl.
  destruct (a +:+ b) eqn:E; [|exact IH].
  destruct a; [destruct b; [contradiction | discriminate E]
              | discriminate E].
Qed.

Lemma csv_path_last_char (d : string) (m : Model) (t : Timestamp) :
  last_char (path_join d (csv_name m t)) = Some "v"%char.
Proof.
  rewrite path_join_relative by apply csv_name_relative.
  unfold csv_name. rewrite <- !string_app_assoc.
  now rewrite last_char_app.
Qed.

Lemma joblib_path_last_char (d : string) (m : Model) (t : Timestamp) :
  last_char (path_join d (joblib_name m t)) = Some "b"%char.
Proof.
  rewrite path_join_relative by apply joblib_name_relative.
  unfold joblib_name. rewrite <- !string_app_assoc.
  now rewrite last_char_app.
Qed.

Lemma header_path_last_char (d : string) :
  last_char (path_join d header_name) = Some "h"%char.
Proof.
  rewrite path_join_relative by reflexivity.
  now rewrite last_char_app.
Qed.

(** The time stamp can be read back from the end of a path. *)
Lemma stamped_suffix_inj (a a' e : string) (t t' : Timestamp) :
  (a +:+ strftime t) +:+ e = (a' +:+ strftime t') +:+ e ->
  strftime t = strftime t'.
Proof.
  intros H.
  apply string_app_inj_tail in H; [|reflexivity].
  destruct H as [H _].
  apply string_app_inj_tail in H; [tauto|].
  now rewrite !strftime_length.
Qed.

Lemma csv_path_stamp (d d' : string) (m m' : Model) (t t' : Timestamp) :
  path_join d (csv_name m t) = path_join d' (csv_name m' t') ->
  strftime t = strftime t'.
Proof.
  rewrite !path_join_relative by apply csv_name_relative.
  unfold csv_name. rewrite <- !string_app_assoc.
  apply stamped_suffix_inj.
Qed.

Lemma joblib_path_stamp (d d' : string) (m m' : Model) (t t' : Timestamp) :
  path_join d (joblib_name m t) = path_join d' (joblib_name m' t') ->
  strftime t = strftime t'.
Proof.
  rewrite !path_join_relative by apply joblib_name_relative.
  unfold joblib_name. rewrite <- !string_app_assoc.
  apply stamped_suffix_inj.
Qed.

End ExporterFacts.

Section TimestampFacts.

Import Exporter.

Lemma digit_char_inj (n m : nat) :
  digit_char n = digit_char m -> (n mod 10 = m mod 10)%nat.
Proof.
  unfold digit_char. intros H.
  apply (f_equal nat_of_ascii) in H.
  assert (Hn : (n mod 10 < 10)%nat) by (apply Nat.mod_upper_bound; lia).
  assert (Hm : (m mod 10 < 10)%nat) by (apply Nat.mod_upper_bound; lia).
  rewrite !nat_ascii_embedding in H by lia. lia.
Qed.

Lemma pad_digits_inj (k n m : nat) :
  pad_digits k n = pad_digits k m -> (n mod 10 ^ k = m mod 10 ^ k)%nat.
Proof.
  revert n m. induction k as [|k IH]; intros n m H.
  - change (n mod 1 = m mod 1)%nat. now rewrite !Nat.mod_1_r.
  - cbn [pad_digits] in H.
    apply string_app_inj_tail in H; [|reflexivity].
    destruct H as [Hhigh Hlow].
    injection Hlow as Hlow.
    apply digit_char_inj in Hlow. apply IH in Hhigh.
    rewrite Nat.pow_succ_r', !Nat.Div0.mod_mul_r. lia.
Qed.

Lemma pad_digits_inj_small (k n m : nat) :
  (n < 10 ^ k)%nat -> (m < 10 ^ k)%nat ->
  pad_digits k n = pad_digits k m -> n = m.
Proof.
  intros Hn Hm H. apply pad_digits_inj in H.
  now rewrite !Nat.mod_small in H.
Qed.

(** Concatenations with heads of equal length agree part by part. *)
Lemma string_app_inj_front (a c b d : string) :
  String.length a = String.length c ->
  a +:+ b = c +:+ d -> a = c /\ b = d.
Proof.
  intros Hlen H. apply string_app_inj_tail; [|exact H].
  apply (f_equal String.length) in H.
  rewrite !string_length_app in H. lia.
Qed.

(** Clock readings that differ in some field have different stamps. *)
Lemma strftime_inj (t t' : Timestamp) :
  valid_timestamp t -> valid_timestamp t' ->
  strftime t = strftime t' -> t = t'.
Proof.
  intros (Hy & Hmo & Hd & Hh & Hmi & Hs) (Hy' & Hmo' & Hd' & Hh' & Hmi' & Hs').
  unfold strftime. intros H.
  apply string_app_inj_front in H; [|now rewrite !pad_digits_length].
  destruct H as [Ey H].
  apply string_app_inj_front in H; [|now rewrite !pad_digits_length].
  destruct H as [Emo H].
  apply string_app_inj_front in H; [|now rewrite !pad_digits_length].
  destruct H as [Ed H].
  apply string_app_inj_front in H; [|reflexivity].
  destruct H as [_ H].
  apply string_app_inj_front in H; [|now rewrite !pad_digits_length].
  destruct H as [Eh H].
  apply string_app_inj_front in H; [|now rewrite !pad_digits_length].
  destruct H as [Emi Es].
  apply pad_digits_inj_small in Ey; [|simpl; lia|simpl; lia].
  apply pad_digits_inj_small in Emo; [|simpl; lia|simpl; lia].
  apply pad_digits_inj_small in Ed; [|simpl; lia|simpl; lia].
  apply pad_digits_inj_small in Eh; [|simpl; lia|simpl; lia].
  apply pad_digits_inj_small in Emi; [|simpl; lia|simpl; lia].
  apply pad_digits_inj_small in Es; [|simpl; lia|simpl; lia].
  destruct t, t'; simpl in *. congruence.
Qed.

End TimestampFacts.

(** ** The literals of the header *)

Section LiteralFacts.

Import Exporter Literal.

Lemma decimal_value_acc_app (acc : nat) (a b : string) :
  decimal_value_acc acc (a +:+ b)
  = decimal_value_acc (decimal_value_acc acc a) b.
Proof.
  revert acc. induction a as [|c a IH]; intros acc; [reflexivity|].
  rewrite string_app_cons. simpl. apply IH.
Qed.

Lemma digit_value_digit_char (n : nat) :
  digit_value (digit_char n) = (n mod 10)%nat.
Proof.
  unfold digit_value, digit_char.
  assert (H : (n mod 10 < 10)%nat) by (apply Nat.mod_upper_bound; lia).
  rewrite nat_ascii_embedding by lia. lia.
Qed.

Lemma decimal_value_pad_digits (k n : nat) :
  decimal_value (pad_digits k n) = (n mod 10 ^ k)%nat.
Proof.
  unfold decimal_value. revert n.
  induction k as [|k IH]; intros n.
  - change (0 = n mod 1)%nat. now rewrite Nat.mod_1_r.
  - cbn [pad_digits]. rewrite decimal_value_acc_app, IH.
    cbn [decimal_value_acc]. rewrite digit_value_digit_char.
    rewrite Nat.pow_succ_r', Nat.Div0.mod_mul_r. lia.
Qed.

Lemma decimal_value_of_uint (d : Decimal.uint) (acc : nat) :
  decimal_value_acc acc (NilEmpty.string_of_uint d) = Nat.of_uint_acc d acc.
Proof.
  revert acc. induction d; intros acc; simpl;
    rewrite ?IHd, ?Nat.tail_mul_spec; try reflexivity; f_equal;
    unfold digit_value; simpl; lia.
Qed.

Lemma decimal_value_str_nat (n : nat) : decimal_value (str_nat n) = n.
Proof.
  unfold str_nat, decimal_value.
  rewrite <- (DecimalNat.Unsigned.of_to n) at 2.
  unfold NilZero.string_of_uint, Nat.of_uint.
  destruct (Nat.to_uint n) eqn:E; try reflexivity;
    rewrite <- E; apply decimal_value_of_uint.
Qed.

Lemma split_point_digits (whole rest : string) :
  all_digits whole = true ->
  split_point (whole +:+ "." +:+ rest) = Some (whole, rest).
Proof.
  induction whole as [|c whole IH]; intros H; [reflexivity|].
  rewrite string_app_cons. simpl in H.
  apply andb_true_iff in H. destruct H as [Hc Hw].
  cbn [split_point].
  destruct (Ascii.eqb_spec c ".") as [->|_]; [discriminate Hc|].
  rewrite (IH Hw). reflexivity.
Qed.

Lemma round_half_even_close (q : Q) :
  0 <= q ->
  (0 <= round_half_even q)%Z
  /\ Qabs (inject_Z (round_half_even q) - q) <= 1 # 2.
Proof.
  intros Hq. unfold round_half_even.
  pose proof (Qfloor_le q) as Hlo.
  pose proof (Qlt_floor q) as Hhi.
  rewrite inject_Z_plus in Hhi. change (inject_Z 1) with 1 in Hhi.
  assert (Hfl : (0 <= Qfloor q)%Z).
  { rewrite <- (Qfloor_Z 0). apply Qfloor_resp_le. exact Hq. }
  destruct (Qlt_bool (q - inject_Z (Qfloor q)) (1 # 2)) eqn:E1.
  - apply Qlt_bool_iff in E1. split; [exact Hfl|].
    apply Qabs_Qle_condition. split; lra.
  - assert (H1 : 1 # 2 <= q - inject_Z (Qfloor q)).
    { destruct (Qlt_le_dec (q - inject_Z (Qfloor q)) (1 # 2)) as [Hlt|Hle];
        [|exact Hle].
      apply Qlt_bool_iff in Hlt. congruence. }
    destruct (Qlt_bool (1 # 2) (q - inject_Z (Qfloor q))) eqn:E2.
    + split; [lia|]. rewrite inject_Z_plus. change (inject_Z 1) with 1.
      apply Qabs_Qle_condition. split; lra.
    + assert (H2 : q - inject_Z (Qfloor q) <= 1 # 2).
      { destruct (Qlt_le_dec (1 # 2) (q - inject_Z (Qfloor q))) as [Hlt|Hle];
          [|exact Hle].
        apply Qlt_bool_iff in Hlt. congruence. }
      destruct (Z.even (Qfloor q)).
      * split; [exact Hfl|]. apply Qabs_Qle_condition. split; lra.
      * split; [lia|]. rewrite inject_Z_plus. change (inject_Z 1) with 1.
        apply Qabs_Qle_condition. split; lra.
Qed.

Lemma str_nat_head (n : nat) :
  exists c rest, str_nat n = String c rest /\ is_digit c = true.
Proof.
  pose proof (str_nat_all_digits n) as Hd.
  pose proof (str_nat_nonempty n) as Hne.
  destruct (str_nat n) as [|c rest]; [contradiction|].
  simpl in Hd. apply andb_true_iff in Hd. exists c, rest. tauto.
Qed.

(** The value of the six-decimal format of a number that is not negative. *)
Lemma parse_unsigned (r : Z) :
  (0 <= r)%Z ->
  parse_decimal (str_nat (Z.to_nat (r / 1000000)) +:+ "."
                 +:+ pad_digits 6 (Z.to_nat (r mod 1000000)))
  = Some (inject_Z (Z.of_nat (Z.to_nat (r / 1000000)))
          + inject_Z (Z.of_nat (Z.to_nat (r mod 1000000) mod 10 ^ 6))
            / inject_Z (10 ^ Z.of_nat 6)).
Proof.
  intros Hr. unfold parse_decimal.
  destruct (str_nat_head (Z.to_nat (r / 1000000))) as (c & rest & E & Hc).
  rewrite E, string_app_cons.
  destruct (Ascii.eqb_spec c "-") as [->|_]; [discriminate Hc|].
  rewrite <- string_app_cons, <- E.
  rewrite split_point_digits by apply str_nat_all_digits.
  rewrite str_nat_all_digits, pad_digits_all_digits.
  rewrite (proj2 (String.eqb_neq _ _) (str_nat_nonempty _)).
  assert (Hf : String.eqb (pad_digits 6 (Z.to_nat (r mod 1000000))) ""
               = false).
  { apply String.eqb_neq. intros E0.
    apply (f_equal String.length) in E0.
    rewrite pad_digits_length in E0. discriminate E0. }
  rewrite Hf. cbn [andb negb].
  rewrite decimal_value_str_nat, decimal_value_pad_digits, pad_digits_length.
  reflexivity.
Qed.

Lemma six_decimal_value (r : Z) :
  (0 <= r)%Z ->
  inject_Z (Z.of_nat (Z.to_nat (r / 1000000)))
  + inject_Z (Z.of_nat (Z.to_nat (r mod 1000000) mod 10 ^ 6))
    / inject_Z (10 ^ Z.of_nat 6)
  == inject_Z r / 1000000.
Proof.
  intros Hr.
  assert (Hm : (0 <= r mod 1000000 < 1000000)%Z)
    by (apply Z.mod_pos_bound; lia).
  assert (Hd : (0 <= r / 1000000)%Z) by (apply Z.div_pos; lia).
  rewrite Nat2Z.inj_mod, Nat2Z.inj_pow.
  change (Z.of_nat 10 ^ Z.of_nat 6)%Z with 1000000%Z.
  change (10 ^ Z.of_nat 6)%Z with 1000000%Z.
  rewrite !Z2Nat.id by lia.
  rewrite (Z.mod_small (r mod 1000000) 1000000) by exact Hm.
  change (inject_Z 1000000) with 1000000.
  rewrite (Z.div_mod r 1000000) at 3 by lia.
  rewrite inject_Z_plus, inject_Z_mult.
  change (inject_Z 1000000) with 1000000. field.
Qed.

(** What [format_6f] writes reads back to within half a millionth. *)
Lemma format_6f_reads_back (x : Q) :
  exists y,
    parse_decimal (format_6f x) = Some y
    /\ Qabs (y - x) <= 1 # 2000000.
Proof.
  unfold format_6f.
  assert (Hq : 0 <= Qabs x * 1000000).
  { apply Qmult_le_0_compat; [apply Qabs_nonneg | lra]. }
  destruct (round_half_even_close _ Hq) as [Hr Hclose].
  set (r := round_half_even (Qabs x * 1000000)) in *.
  assert (Hmag : Qabs (inject_Z r / 1000000 - Qabs x) <= 1 # 2000000).
  { apply Qabs_Qle_condition in Hclose. destruct Hclose as [H1 H2].
    apply Qabs_Qle_condition. split.
    - apply Qle_minus_iff. apply Qle_minus_iff in H1.
      assert (E : inject_Z r / 1000000 - Qabs x + - - (1 # 2000000)
                  == (inject_Z r - Qabs x * 1000000 + - - (1 # 2)) / 1000000)
        by field.
      rewrite E. apply Qle_shift_div_l; [reflexivity|].
      rewrite Qmult_0_l. exact H1.
    - apply Qle_minus_iff. apply Qle_minus_iff in H2.
      assert (E : (1 # 2000000) + - (inject_Z r / 1000000 - Qabs x)
                  == ((1 # 2) + - (inject_Z r - Qabs x * 1000000)) / 1000000)
        by field.
      rewrite E. apply Qle_shift_div_l; [reflexivity|].
      rewrite Qmult_0_l. exact H2. }
  destruct (Qlt_bool x 0) eqn:Ex.
  - apply Qlt_bool_iff in Ex.
    eexists. split.
    + change ("-" +:+ ?s) with (String "-" s).
      unfold parse_decimal at 1. cbn [Ascii.eqb Bool.eqb].
      fold (parse_decimal
              (str_nat (Z.to_nat (r / 1000000)) +:+ "."
               +:+ pad_digits 6 (Z.to_nat (r mod 1000000)))) || idtac.
      pose proof (parse_unsigned r Hr) as Hp.
      unfold parse_decimal in Hp.
      destruct (str_nat_head (Z.to_nat (r / 1000000))) as (c & rest & E & Hc).
      rewrite E, string_app_cons in Hp.
      destruct (Ascii.eqb_spec c "-") as [->|_]; [discriminate Hc|].
      rewrite <- string_app_cons, <- E in Hp.
      destruct (split_point _) as [[whole frac]|]; [|discriminate Hp].
      destruct (all_digits whole && all_digits frac
                && negb (String.eqb whole "") && negb (String.eqb frac ""));
        [|discriminate Hp].
      apply (inj Some) in Hp. rewrite Hp. reflexivity.
    + rewrite six_decimal_value by exact Hr.
      rewrite (Qabs_neg x) in Hmag by lra.
      apply Qabs_Qle_condition in Hmag. apply Qabs_Qle_condition.
      split; lra.
  - assert (Hx : 0 <= x).
    { destruct (Qlt_le_dec x 0) as [Hlt|Hle]; [|exact Hle].
      apply Qlt_bool_iff in Hlt. congruence. }
    eexists. split.
    + rewrite string_app_nil_l. apply parse_unsigned. exact Hr.
    + rewrite six_decimal_value by exact Hr.
      rewrite (Qabs_pos x) in Hmag by exact Hx. exact Hmag.
Qed.

End LiteralFacts.

Section ExporterClaims.

Import Exporter ExporterSpec Literal Samples.

Lemma header_path_not_csv (d d' : string) (m : Model) (t : Timestamp) :
  path_join d header_name <> path_join d' (csv_name m t).
Proof.
  intros H. apply (f_equal last_char) in H.
  rewrite header_path_last_char, csv_path_last_char in H. discriminate H.
Qed.

Lemma header_path_not_joblib (d d' : string) (m : Model) (t : Timestamp) :
  path_join d header_name <> path_join d' (joblib_name m t).
Proof.
  intros H. apply (f_equal last_char) in H.
  rewrite header_path_last_char, joblib_path_last_char in H. discriminate H.
Qed.

Lemma joblib_path_not_csv (d d' : string) (m m' : Model) (t t' : Timestamp) :
  path_join d (joblib_name m t) <> path_join d' (csv_name m' t').
Proof.
  intros H. apply (f_equal last_char) in H.
  rewrite joblib_path_last_char, csv_path_last_char in H. discriminate H.
Qed.

(** C6.  For a linear model with five coefficients, exported over the five
    feature names into a directory that exists and in which nothing prevents
    the two files from being written, the call returns the path of the
    coefficient table.  Whenever the call returns, the table written at that
    path has the six rows intercept, ratio, variability, slope, pulse_rate,
    acdc_ratio in that order, and the header written next to it binds each
    of these names, in the same order, to its value printed with six digits
    after the decimal point: the literal reads back to within half a
    millionth of the value. *)
Theorem linear_export_table_and_header (b c1 c2 c3 c4 c5 : Q) (d : string)
    (t : Timestamp) (w : World) :
  let model := LinearModel b [c1; c2; c3; c4; c5] in
  let table :=
    [("intercept", b); ("ratio", c1); ("variability", c2); ("slope", c3);
     ("pulse_rate", c4); ("acdc_ratio", c5)]%string in
  let csv := path_join d (csv_name model t) in
  let header := path_join d header_name in
  let run := save_coefficients model feature_columns d t w in
  (is_dir w d = true -> can_write w csv = true ->
   can_write w header = true -> fst run = Ok csv)
  /\ (forall p, fst run = Ok p ->
        p = csv
        /\ files (snd run) !! csv = Some (CoeffTable table)
        /\ files (snd run) !! header = Some (Text (header_text table)))
  /\ List.length table = 6%nat
  /\ header_text table
     = "#ifndef MODEL_COEFFICIENTS_H" +:+ nl
       +:+ "#define MODEL_COEFFICIENTS_H" +:+ nl +:+ nl
       +:+ "const float intercept = " +:+ format_6f b +:+ ";" +:+ nl
       +:+ "const float ratio = " +:+ format_6f c1 +:+ ";" +:+ nl
       +:+ "const float variability = " +:+ format_6f c2 +:+ ";" +:+ nl
       +:+ "const float slope = " +:+ format_6f c3 +:+ ";" +:+ nl
       +:+ "const float pulse_rate = " +:+ format_6f c4 +:+ ";" +:+ nl
       +:+ "const float acdc_ratio = " +:+ format_6f c5 +:+ ";" +:+ nl
       +:+ nl +:+ "#endif"
  /\ Forall (fun row =>
               six_decimals (format_6f (snd row))
               /\ exists y,
                    parse_decimal (format_6f (snd row)) = Some y
                    /\ Qabs (y - snd row) <= 1 # 2000000)
       table.
Proof.
  intros model table csv header run.
  assert (Htable : data_frame ("intercept"%string :: feature_columns)
                     (b :: [c1; c2; c3; c4; c5]) = Ok table)
    by reflexivity.
  split.
  { intros Hd Hcsv Hheader.
    exact (save_linear_returns b [c1; c2; c3; c4; c5] feature_columns d t w
             table Htable Hd Hcsv Hheader). }
  split.
  { intros p Hp.
    destruct (save_linear_outcome b [c1; c2; c3; c4; c5] feature_columns d t
                w table Htable)
      as (w1 & _ & _ & _ & [[[msg Hfail] _]|(Hok & Hfiles & _ & _)]).
    - unfold run, model in Hp. rewrite Hfail in Hp. discriminate Hp.
    - unfold run, model in Hp. rewrite Hok in Hp. injection Hp as <-.
      split; [reflexivity|].
      unfold run, model, csv, header. rewrite Hfiles.
      split; [|apply lookup_insert_eq].
      rewrite lookup_insert_ne by apply header_path_not_csv.
      apply lookup_insert_eq. }
  split; [reflexivity|].
  split.
  - unfold header_text, header_line, table.
    cbn [map fold_right fst snd].
    rewrite !string_app_assoc. reflexivity.
  - unfold table.
    repeat (apply Forall_cons;
            split; [split; [apply format_6f_six_decimals
                           | apply format_6f_reads_back]|]).
    apply Forall_nil. exact I.
Qed.

Lemma linear_export_table_and_header_witness :
  fst (save_coefficients linear_fit feature_columns "models/production"
         run_morning prepared_world)
  = Ok "models/production/LinearRegression_coeff_20240301_080000.csv"%string.
Proof.
  apply (linear_export_table_and_header (1 # 2) 1 2 3 4 5
           "models/production" run_morning prepared_world).
  - reflexivity.
  - vm_compute. reflexivity.
  - vm_compute. reflexivity.
Defined.

Example linear_export_sample :
  map_to_list
    (files (snd (save_coefficients linear_fit feature_columns
                   "models/production" run_morning empty_world)))
  = [("models/production/model_coefficients.h"%string,
      Text (header_text
              [("intercept", 1 # 2); ("ratio", 1); ("variability", 2);
               ("slope", 3); ("pulse_rate", 4); ("acdc_ratio", 5)]%string));
     ("models/production/LinearRegression_coeff_20240301_080000.csv"%string,
      CoeffTable
        [("intercept", 1 # 2); ("ratio", 1); ("variability", 2);
         ("slope", 3); ("pulse_rate", 4); ("acdc_ratio", 5)]%string)].
Proof. vm_compute. reflexivity. Qed.

Example header_line_sample :
  header_line ("ratio"%string, - (1 # 3))
  = "const float ratio = -0.333333;" +:+ nl.
Proof. vm_compute. reflexivity. Qed.

(** An output directory that is a regular file, an empty path, and a
    refused header: the call raises and returns no path. *)
Example linear_export_failures :
  fst (save_coefficients linear_fit feature_columns "models"
         run_morning
         (mkWorld ∅ {["models"%string := Text "notes"]} [] ∅))
  = Raise (OSError "Not a directory")
  /\ save_coefficients linear_fit feature_columns "" run_morning empty_world
     = (Raise (OSError "No such file or directory"), empty_world)
  /\ fst (save_coefficients linear_fit feature_columns "models/production"
            run_morning
            (mkWorld ∅ ∅ []
               {["models/production/model_coefficients.h"%string]}))
     = Raise (OSError "Permission denied").
Proof. repeat split; vm_compute; reflexivity. Qed.

End ExporterClaims.

Section ExporterPaths.

Import Exporter ExporterSpec Samples.

(** Every path written by a call is one of three: the coefficient table
    and the header, for a linear model whose table can be built, or the
    dump of an ensemble. *)
Lemma written_paths_cases (m : Model) (f : list string) (d : string)
    (t : Timestamp) (p : string) :
  p ∈ written_paths m f d t ->
  (is_linear m = true /\ p = path_join d (csv_name m t))
  \/ (is_linear m = true /\ p = path_join d header_name)
  \/ (is_linear m = false /\ p = path_join d (joblib_name m t)).
Proof.
  unfold written_paths. intros Hp.
  destruct (is_linear m) eqn:Hm.
  - destruct m as [b coef| |]; try discriminate Hm.
    destruct (data_frame ("intercept"%string :: f) (b :: coef))
      as [table|e] eqn:Htable.
    + destruct (save_linear_outcome b coef f d t empty_world table Htable)
        as (w1 & _ & _ & _ & [(_ & _ & [Hf|Hf])|(_ & Hf & _ & _)]);
        rewrite Hf in Hp; cbn [files empty_world] in Hp.
      * rewrite dom_empty_L in Hp. apply elem_of_empty in Hp. contradiction.
      * rewrite dom_insert_L, dom_empty_L in Hp.
        apply elem_of_union in Hp. destruct Hp as [Hp|Hp].
        -- apply elem_of_singleton in Hp. left. auto.
        -- apply elem_of_empty in Hp. contradiction.
      * rewrite !dom_insert_L, dom_empty_L in Hp.
        apply elem_of_union in Hp. destruct Hp as [Hp|Hp].
        -- apply elem_of_singleton in Hp. right. left. auto.
        -- apply elem_of_union in Hp. destruct Hp as [Hp|Hp].
           ++ apply elem_of_singleton in Hp. left. auto.
           ++ apply elem_of_empty in Hp. contradiction.
    + destruct (save_mismatch_outcome b coef f d t empty_world e Htable)
        as [(Hf & _) _].
      rewrite Hf in Hp. cbn [files empty_world] in Hp.
      rewrite dom_empty_L in Hp. apply elem_of_empty in Hp. contradiction.
  - destruct (save_ensemble_outcome m f d t empty_world Hm)
      as (w1 & _ & _ & _ & [(_ & _ & Hf)|(_ & Hf & _ & _)]);
      rewrite Hf in Hp; cbn [files empty_world] in Hp.
    + rewrite dom_empty_L in Hp. apply elem_of_empty in Hp. contradiction.
    + rewrite dom_insert_L, dom_empty_L in Hp.
      apply elem_of_union in Hp. destruct Hp as [Hp|Hp].
      * apply elem_of_singleton in Hp. right. right. auto.
      * apply elem_of_empty in Hp. contradiction.
Qed.

(** C7, as amended.  The coefficient table and the dump of an ensemble are
    named, under the output directory, with the class name of the model and
    the time stamp of the run, and the header of a linear model has the
    fixed name model_coefficients.h.  Two runs whose clock readings differ
    write the first two at different paths: the only path that both can
    write is the header. *)
Theorem stamped_artifacts_do_not_collide :
  (forall (m : Model) (f : list string) (d : string) (t : Timestamp)
          (p : string),
      p ∈ written_paths m f d t ->
      p = dir_prefix d +:+ class_name m +:+ "_coeff_" +:+ strftime t
            +:+ ".csv"
      \/ p = dir_prefix d +:+ class_name m +:+ "_" +:+ strftime t
               +:+ ".joblib"
      \/ p = dir_prefix d +:+ "model_coefficients.h")
  /\ (forall (m1 m2 : Model) (f1 f2 : list string) (d1 d2 : string)
             (t1 t2 : Timestamp) (p : string),
      valid_timestamp t1 -> valid_timestamp t2 -> t1 <> t2 ->
      p ∈ written_paths m1 f1 d1 t1 ->
      p ∈ written_paths m2 f2 d2 t2 ->
      is_linear m1 = true /\ is_linear m2 = true
      /\ p = path_join d1 header_name /\ p = path_join d2 header_name).
Proof.
  split.
  - intros m f d t p Hp.
    destruct (written_paths_cases m f d t p Hp)
      as [[_ ->]|[[_ ->]|[_ ->]]].
    + left. apply path_join_relative, csv_name_relative.
    + right. right. now apply path_join_relative.
    + right. left. apply path_join_relative, joblib_name_relative.
  - intros m1 m2 f1 f2 d1 d2 t1 t2 p Hv1 Hv2 Hne Hp1 Hp2.
    assert (Hstamp : strftime t1 <> strftime t2).
    { intros E. apply Hne. now apply strftime_inj. }
    destruct (written_paths_cases m1 f1 d1 t1 p Hp1)
      as [[L1 E1]|[[L1 E1]|[L1 E1]]];
      destruct (written_paths_cases m2 f2 d2 t2 p Hp2)
      as [[L2 E2]|[[L2 E2]|[L2 E2]]];
      try (repeat split; assumption); exfalso; subst p.
    + now apply csv_path_stamp in E2.
    + symmetry in E2. now apply header_path_not_csv in E2.
    + symmetry in E2. now apply joblib_path_not_csv in E2.
    + now apply header_path_not_csv in E2.
    + now apply header_path_not_joblib in E2.
    + now apply joblib_path_not_csv in E2.
    + symmetry in E2. now apply header_path_not_joblib in E2.
    + now apply joblib_path_stamp in E2.
Qed.

Lemma run_morning_valid : valid_timestamp run_morning.
Proof. unfold valid_timestamp, run_morning; simpl; lia. Qed.

Lemma run_evening_valid : valid_timestamp run_evening.
Proof. unfold valid_timestamp, run_evening; simpl; lia. Qed.

Lemma header_written_morning :
  "models/production/model_coefficients.h"%string
  ∈ written_paths linear_fit feature_columns "models/production" run_morning.
Proof. apply (bool_decide_unpack _). vm_compute. exact I. Qed.

Lemma header_written_evening :
  "models/production/model_coefficients.h"%string
  ∈ written_paths linear_fit feature_columns "models/production" run_evening.
Proof. apply (bool_decide_unpack _). vm_compute. exact I. Qed.

Lemma stamped_artifacts_do_not_collide_witness :
  ("models/production/model_coefficients.h"%string
   = path_join "models/production" header_name)
  /\ ("models/production/RandomForestRegressor_20240301_080000.joblib"%string
      = dir_prefix "models/production" +:+ class_name forest_fit +:+ "_"
          +:+ strftime run_morning +:+ ".joblib").
Proof.
  destruct stamped_artifacts_do_not_collide as [Hname Hshare].
  split.
  - destruct (Hshare linear_fit linear_fit feature_columns feature_columns
                "models/production"%string "models/production"%string
                run_morning run_evening
                "models/production/model_coefficients.h"%string)
      as (_ & _ & H & _).
    + unfold valid_timestamp, run_morning; simpl; lia.
    + unfold valid_timestamp, run_evening; simpl; lia.
    + discriminate.
    + apply (bool_decide_unpack _). vm_compute. exact I.
    + apply (bool_decide_unpack _). vm_compute. exact I.
    + exact H.
  - vm_compute. reflexivity.
Defined.

(** C7, as stated, fails: two exports of a linear model to the same
    directory, twelve hours apart, both write the header at
    models/production/model_coefficients.h. *)
Lemma header_path_shared_by_runs :
  valid_timestamp run_morning /\ valid_timestamp run_evening
  /\ run_morning <> run_evening
  /\ ~ (written_paths linear_fit feature_columns "models/production"
          run_morning
        ## written_paths linear_fit feature_columns "models/production"
             run_evening).
Proof.
  split; [apply run_morning_valid|].
  split; [apply run_evening_valid|].
  split; [discriminate|].
  intros Hdisj.
  apply (Hdisj "models/production/model_coefficients.h"%string).
  - apply header_written_morning.
  - apply header_written_evening.
Qed.

(** Whenever an export of an ensemble returns, it returns the path of a
    coefficient table, has left that path as it was, and has written the
    dump elsewhere. *)
Lemma ensemble_export_path_untouched (m : Model) (f : list string)
    (d : string) (t : Timestamp) (w : World) (p : string) :
  is_linear m = false ->
  let run := save_coefficients m f d t w in
  fst run = Ok p ->
  p = path_join d (csv_name m t)
  /\ files (snd run) !! path_join d (csv_name m t)
     = files w !! path_join d (csv_name m t)
  /\ files (snd run) !! path_join d (joblib_name m t) = Some (Joblib m).
Proof.
  intros Hm run Hp. subst run.
  destruct (save_ensemble_outcome m f d t w Hm)
    as (w1 & _ & _ & _ & [([msg Hfail] & _)|(Hok & Hfiles & _ & _)]).
  - rewrite Hfail in Hp. discriminate Hp.
  - rewrite Hok in Hp. injection Hp as <-. rewrite Hfiles.
    split; [reflexivity|].
    split; [|apply lookup_insert_eq].
    apply lookup_insert_ne, joblib_path_not_csv.
Qed.

(** C9 at a fitted random forest: the call returns
    models/production/RandomForestRegressor_coeff_20240301_080000.csv and
    reports it as saved, but no file is written there; the only file
    written is the dump
    models/production/RandomForestRegressor_20240301_080000.joblib. *)
Theorem forest_export_returns_unwritten_path :
  let run :=
    save_coefficients forest_fit feature_columns "models/production"
      run_morning empty_world in
  fst run
  = Ok "models/production/RandomForestRegressor_coeff_20240301_080000.csv"%string
  /\ files (snd run)
       !! "models/production/RandomForestRegressor_coeff_20240301_080000.csv"%string
     = None
  /\ map_to_list (files (snd run))
     = [("models/production/RandomForestRegressor_20240301_080000.joblib"%string,
         Joblib forest_fit)]
  /\ List.last (stdout (snd run)) ""%string
     = "Saved coefficients to: models/production/RandomForestRegressor_coeff_20240301_080000.csv"%string.
Proof. vm_compute. repeat split; reflexivity. Qed.

End ExporterPaths.

(** * Further properties *)

(** ** DatasetLoader: rows and errors *)

Section LoaderRows.

Import Loader LoaderSpec.

Lemma Qeq_bool_sym (x y : Q) : Qeq_bool x y = Qeq_bool y x.
Proof.
  destruct (Qeq_bool x y) eqn:E1, (Qeq_bool y x) eqn:E2; try reflexivity.
  - apply Qeq_bool_iff in E1. symmetry in E1. apply Qeq_bool_iff in E1.
    congruence.
  - apply Qeq_bool_iff in E2. symmetry in E2. apply Qeq_bool_iff in E2.
    congruence.
Qed.

Lemma cell_eqb_refl (a : cell) : cell_eqb a a = true.
Proof. destruct a; simpl; [apply Qeq_bool_refl | reflexivity]. Qed.

Lemma cell_eqb_sym (a b : cell) : cell_eqb a b = cell_eqb b a.
Proof. destruct a, b; simpl; try reflexivity. apply Qeq_bool_sym. Qed.

Lemma value_eqb_refl (a : Value) : value_eqb a a = true.
Proof.
  destruct a; simpl; [apply Qeq_bool_refl | apply String.eqb_refl | reflexivity].
Qed.

Lemma value_eqb_sym (a b : Value) : value_eqb a b = value_eqb b a.
Proof.
  destruct a, b; simpl; try reflexivity;
    [apply Qeq_bool_sym | apply String.eqb_sym].
Qed.

Lemma fields_eqb_refl (r : RawRow) : fields_eqb r r = true.
Proof.
  unfold fields_eqb. now rewrite String.eqb_refl, !cell_eqb_refl.
Qed.

Lemma fields_eqb_sym (a b : RawRow) : fields_eqb a b = fields_eqb b a.
Proof.
  unfold fields_eqb.
  now rewrite String.eqb_sym, (cell_eqb_sym (ratio a)),
    (cell_eqb_sym (variability a)), (cell_eqb_sym (slope a)),
    (cell_eqb_sym (glucose a)).
Qed.

Lemma row_eqb_refl (cols : list string) (r : FrameRow) :
  row_eqb cols r r = true.
Proof.
  unfold row_eqb. rewrite fields_eqb_refl. cbn [andb].
  apply forallb_forall. intros c _. apply value_eqb_refl.
Qed.

Lemma row_eqb_sym (cols : list string) (a b : FrameRow) :
  row_eqb cols a b = row_eqb cols b a.
Proof.
  unfold row_eqb. rewrite fields_eqb_sym. f_equal.
  induction cols as [|c cols IH]; [reflexivity|].
  cbn [forallb]. now rewrite value_eqb_sym, IH.
Qed.

Lemma row_eqb_has_glucose (cols : list string) (a b : FrameRow) :
  row_eqb cols a b = true -> has_glucose a = has_glucose b.
Proof.
  unfold row_eqb, fields_eqb, has_glucose. intros H.
  apply andb_true_iff in H. destruct H as [H _].
  apply andb_true_iff in H. destruct H as [_ H].
  destruct (glucose (fields a)), (glucose (fields b));
    try reflexivity; discriminate H.
Qed.

Lemma drop_duplicates_from_sublist (cols : list string)
    (seen l : list FrameRow) :
  sublist (drop_duplicates_from cols seen l) l.
Proof.
  revert seen. induction l as [|r l IH]; intros seen; simpl.
  - constructor.
  - destruct (existsb (row_eqb cols r) seen);
      [apply sublist_cons | apply sublist_skip]; apply IH.
Qed.

Lemma drop_duplicates_from_fresh (cols : list string)
    (seen l : list FrameRow) (r : FrameRow) :
  In r (drop_duplicates_from cols seen l) ->
  existsb (row_eqb cols r) seen = false.
Proof.
  revert seen. induction l as [|r0 l IH]; intros seen; simpl; [tauto|].
  destruct (existsb (row_eqb cols r0) seen) eqn:E; [apply IH|].
  intros [<-|Hin]; [exact E|].
  apply IH in Hin. simpl in Hin.
  apply orb_false_iff in Hin. tauto.
Qed.

Lemma drop_duplicates_from_distinct (cols : list string)
    (seen l : list FrameRow) :
  ForallOrdPairs (fun a b => row_eqb cols a b = false)
    (drop_duplicates_from cols seen l).
Proof.
  revert seen. induction l as [|r0 l IH]; intros seen; simpl.
  - constructor.
  - destruct (existsb (row_eqb cols r0) seen); [apply IH|].
    constructor; [|apply IH].
    apply List.Forall_forall. intros b Hb.
    apply drop_duplicates_from_fresh in Hb. simpl in Hb.
    apply orb_false_iff in Hb. rewrite row_eqb_sym. tauto.
Qed.

Lemma drop_duplicates_from_covers (cols : list string)
    (seen l : list FrameRow) (r : FrameRow) :
  In r l ->
  exists s, In s (seen ++ drop_duplicates_from cols seen l)
            /\ row_eqb cols r s = true.
Proof.
  revert seen. induction l as [|r0 l IH]; intros seen; simpl; [tauto|].
  intros Hin.
  destruct (existsb (row_eqb cols r0) seen) eqn:E.
  - destruct Hin as [<-|Hin]; [|apply IH, Hin].
    apply existsb_exists in E. destruct E as [s [Hs Hrs]].
    exists s. split; [apply in_or_app; auto | exact Hrs].
  - destruct Hin as [<-|Hin].
    + exists r0. split; [|apply row_eqb_refl].
      apply in_or_app. right. left. reflexivity.
    + destruct (IH (r0 :: seen) Hin) as [s [Hs Hrs]].
      exists s. split; [|exact Hrs].
      apply in_app_or in Hs. apply in_or_app.
      destruct Hs as [[<-|Hs]|Hs]; simpl; auto.
Qed.

Lemma ForallOrdPairs_filter {A} (R : A -> A -> Prop) (f : A -> bool)
    (l : list A) :
  ForallOrdPairs R l -> ForallOrdPairs R (List.filter f l).
Proof.
  induction 1 as [|a l Ha Hl IH]; simpl; [constructor|].
  destruct (f a); [|exact IH].
  constructor; [|exact IH].
  apply List.Forall_forall. intros b Hb.
  apply filter_In in Hb. destruct Hb as [Hb _].
  revert b Hb. apply List.Forall_forall. exact Ha.
Qed.

Variable isdir : string -> bool.
Variable listdir : string -> list string.
Variable read_csv : string -> result DataFrame.
Variable str_set : list string -> string.

Lemma load_data_ok (data_path : string) (df : DataFrame) :
  fst (load_data isdir listdir read_csv str_set data_path) = Ok df ->
  exists data,
    fst (read_frames isdir listdir read_csv data_path) = Ok data
    /\ missing_columns data = []
    /\ df = mkFrame (columns data)
              (List.filter has_glucose
                 (drop_duplicates (columns data) (rows data))).
Proof.
  unfold load_data.
  destruct (read_frames isdir listdir read_csv data_path) as [[data|e] out];
    cbv zeta; cbn [fst]; [|discriminate].
  fold (missing_columns data).
  destruct (missing_columns data) eqn:E; cbn [fst]; [|discriminate].
  intros H. injection H as <-. exists data. auto.
Qed.

(** X1.  The dataset returned by [load_data] has the columns of the frame
    that was read and, of its rows, a sub-sequence in the same order: every
    row kept has a glucose value, no two rows kept agree in every column of
    the frame, and every row read that has a glucose value agrees in every
    column with a row kept. *)
Theorem load_data_rows (data_path : string) (df : DataFrame) :
  fst (load_data isdir listdir read_csv str_set data_path) = Ok df ->
  exists data,
    fst (read_frames isdir listdir read_csv data_path) = Ok data
    /\ columns df = columns data
    /\ sublist (rows df) (rows data)
    /\ Forall (fun r => has_glucose r = true) (rows df)
    /\ ForallOrdPairs (fun a b => row_eqb (columns data) a b = false)
         (rows df)
    /\ (forall r, In r (rows data) -> has_glucose r = true ->
                  exists r', In r' (rows df)
                             /\ row_eqb (columns data) r r' = true).
Proof.
  intros H. destruct (load_data_ok data_path df H) as [data [Hread [_ ->]]].
  exists data. cbn [columns rows].
  split; [exact Hread|]. split; [reflexivity|].
  split.
  { etransitivity; [apply filter_sublist|].
    apply drop_duplicates_from_sublist. }
  split.
  { apply List.Forall_forall. intros r Hr.
    apply filter_In in Hr. tauto. }
  split.
  { apply ForallOrdPairs_filter, drop_duplicates_from_distinct. }
  intros r Hr Hg.
  destruct (drop_duplicates_from_covers (columns data) [] (rows data) r Hr)
    as [s [Hs Hrs]].
  exists s. split; [|exact Hrs].
  apply filter_In. split; [exact Hs|].
  rewrite <- (row_eqb_has_glucose (columns data) r s Hrs). exact Hg.
Qed.

(** X2.  [load_data] fails in exactly three ways: in directory mode when
    no CSV file parses, in single-file mode with the exception of the parser,
    and in both modes when the frame read lacks required columns, with a
    message built from exactly the required columns that are absent. *)
Theorem load_data_errors (data_path : string) (e : exn) :
  fst (load_data isdir listdir read_csv str_set data_path) = Raise e
  <-> (isdir data_path = true
       /\ parsed_frames read_csv data_path (csv_files listdir data_path) = []
       /\ e = ValueError "No valid CSV files found in directory")
      \/ (isdir data_path = false /\ read_csv data_path = Raise e)
      \/ (exists data,
            fst (read_frames isdir listdir read_csv data_path) = Ok data
            /\ missing_columns data <> []
            /\ (forall c, In c (missing_columns data)
                          <-> In c required_cols /\ ~ In c (columns data))
            /\ e = ValueError ("Missing required columns: "
                               +:+ str_set (missing_columns data))).
Proof.
  assert (Hmiss : forall data c,
             In c (missing_columns data)
             <-> In c required_cols /\ ~ In c (columns data)).
  { intros data c. unfold missing_columns. rewrite filter_In.
    rewrite negb_true_iff. split; intros [Hc Hn]; split; try exact Hc.
    - intros Hin. rewrite <- not_true_iff_false in Hn. apply Hn.
      apply existsb_exists. exists c. split; [exact Hin|].
      apply String.eqb_refl.
    - apply not_true_iff_false. intros Hex.
      apply existsb_exists in Hex. destruct Hex as [c' [Hin Heq]].
      apply String.eqb_eq in Heq. subst c'. contradiction. }
  assert (Hread :
    fst (read_frames isdir listdir read_csv data_path)
    = if isdir data_path then
        match parsed_frames read_csv data_path
                (csv_files listdir data_path) with
        | [] => Raise (ValueError "No valid CSV files found in directory")
        | dfs => Ok (concat dfs)
        end
      else match read_csv data_path with
           | Ok data => Ok data
           | Raise e' => Raise e'
           end).
  { unfold read_frames. destruct (isdir data_path).
    - fold (csv_files listdir data_path).
      pose proof (load_files_parsed read_csv data_path
                    (csv_files listdir data_path)) as [Hp _].
      destruct (load_files read_csv data_path (csv_files listdir data_path))
        as [dfs out]. simpl in Hp. subst dfs.
      destruct (parsed_frames read_csv data_path
                  (csv_files listdir data_path)); reflexivity.
    - destruct (read_csv data_path); reflexivity. }
  assert (Hload :
    fst (load_data isdir listdir read_csv str_set data_path)
    = match fst (read_frames isdir listdir read_csv data_path) with
      | Ok data =>
          match missing_columns data with
          | [] => Ok (mkFrame (columns data)
                        (List.filter has_glucose
                           (drop_duplicates (columns data) (rows data))))
          | _ => Raise (ValueError ("Missing required columns: "
                                    +:+ str_set (missing_columns data)))
          end
      | Raise e' => Raise e'
      end).
  { unfold load_data.
    destruct (read_frames isdir listdir read_csv data_path)
      as [[data|e'] out]; cbv zeta; cbn [fst]; [|reflexivity].
    fold (missing_columns data).
    destruct (missing_columns data); reflexivity. }
  rewrite Hload. split.
  - destruct (fst (read_frames isdir listdir read_csv data_path))
      as [data|e'] eqn:Er.
    + destruct (missing_columns data) eqn:Em; [discriminate|].
      intros H. injection H as <-. right. right.
      exists data. split; [reflexivity|].
      split; [rewrite Em; discriminate|].
      split; [apply Hmiss|]. rewrite Em. reflexivity.
    + intros H. injection H as ->.
      destruct (isdir data_path).
      * left. split; [reflexivity|].
        destruct (parsed_frames read_csv data_path
                    (csv_files listdir data_path)); [|discriminate Hread].
        split; [reflexivity|]. congruence.
      * right. left. split; [reflexivity|].
        destruct (read_csv data_path); [discriminate Hread|]. congruence.
  - intros [(Hd & Hp & ->)|[(Hd & Hr)|(data & Hr & Hm & _ & ->)]].
    + rewrite Hread, Hd, Hp. reflexivity.
    + rewrite Hread, Hd, Hr. reflexivity.
    + rewrite Hr. destruct (missing_columns data); [contradiction|].
      reflexivity.
Qed.

(** X3.  In directory mode only the entries whose name ends in ".csv" are
    read: two parsers that agree on those files give the same dataset, or
    the same error. *)
Theorem directory_load_reads_only_csv (read_csv' : string -> result DataFrame)
    (data_path : string) :
  isdir data_path = true ->
  (forall f, In f (listdir data_path) -> endswith f ".csv" = true ->
             read_csv' (path_join data_path f)
             = read_csv (path_join data_path f)) ->
  fst (load_data isdir listdir read_csv' str_set data_path)
  = fst (load_data isdir listdir read_csv str_set data_path).
Proof.
  intros Hdir Hagree.
  assert (Hfiles : forall files,
             (forall f, In f files ->
                        read_csv' (path_join data_path f)
                        = read_csv (path_join data_path f)) ->
             load_files read_csv' data_path files
             = load_files read_csv data_path files).
  { induction files as [|f files IH]; intros H; simpl; [reflexivity|].
    rewrite IH by (intros g Hg; apply H; right; exact Hg).
    rewrite (H f (or_introl eq_refl)). reflexivity. }
  assert (Hsame : load_files read_csv' data_path (csv_files listdir data_path)
                  = load_files read_csv data_path
                      (csv_files listdir data_path)).
  { apply Hfiles. intros f Hf. unfold csv_files in Hf.
    apply filter_In in Hf. apply Hagree; tauto. }
  unfold load_data, read_frames. rewrite Hdir.
  fold (csv_files listdir data_path). rewrite Hsame. reflexivity.
Qed.

End LoaderRows.

(** ** Preprocessor: imputation and the shape of the output *)

Section PreprocessorStructure.

Import Preprocessor PreprocessorSpec.

Lemma median_some_present (s : list cell) (m : Q) :
  median s = Some m -> exists x, In (Some x) s.
Proof.
  unfold median. intros H.
  destruct (dropna s) as [|x vs] eqn:E; [discriminate H|].
  exists x. apply dropna_In. rewrite E. left. reflexivity.
Qed.

Lemma impute_ok (data out : list RawRow) :
  impute data = Ok out ->
  exists mr mv ms,
    median (map ratio data) = Some mr
    /\ median (map variability data) = Some mv
    /\ median (map slope data) = Some ms
    /\ out = map (fun r =>
                    mkRawRow (timestamp r) (fillna mr (ratio r))
                      (fillna mv (variability r)) (fillna ms (slope r))
                      (glucose r)) data.
Proof.
  unfold impute. destruct data as [|r0 data]; [discriminate|].
  destruct (median (map ratio (r0 :: data))) as [mr|]; [|discriminate].
  destruct (median (map variability (r0 :: data))) as [mv|]; [|discriminate].
  destruct (median (map slope (r0 :: data))) as [ms|]; [|discriminate].
  intros H. injection H as <-. exists mr, mv, ms. auto.
Qed.

Lemma fillna_imputed (m : Q) (c : cell) : imputed (Some m) c (fillna m c).
Proof. destruct c; simpl; [reflexivity | split; [reflexivity|discriminate]]. Qed.

(** X4.  Imputation keeps the rows, their order, their time stamps and
    their glucose values; in the columns ratio, variability and slope a
    present value is kept and a missing one is replaced by the median of the
    present values of its column, so that no value is missing afterwards. *)
Theorem impute_replaces_missing_by_median (data out : list RawRow) :
  impute data = Ok out ->
  Forall2
    (fun r r' =>
       timestamp r' = timestamp r /\ glucose r' = glucose r
       /\ imputed (median (map ratio data)) (ratio r) (ratio r')
       /\ imputed (median (map variability data)) (variability r)
            (variability r')
       /\ imputed (median (map slope data)) (slope r) (slope r'))
    data out
  /\ Forall (fun r' => ratio r' <> None /\ variability r' <> None
                       /\ slope r' <> None) out.
Proof.
  intros H.
  destruct (impute_ok data out H) as (mr & mv & ms & -> & -> & -> & ->).
  split.
  - clear H. induction data as [|r data IH]; simpl; constructor; [|exact IH].
    cbn [timestamp glucose ratio variability slope].
    repeat split; apply fillna_imputed.
  - apply List.Forall_forall. intros r' Hr'.
    apply in_map_iff in Hr'. destruct Hr' as [r [<- _]].
    cbn [ratio variability slope].
    repeat split; destruct r as [ts [x|] [y|] [z|] g]; discriminate.
Qed.

(** X5.  [preprocess_data] needs a row and, in each of the columns ratio,
    variability and slope, a present value: on a frame without rows, or
    with one of these columns entirely missing, it raises [ValueError]; so a
    dataset is returned only for frames that have all of these. *)
Theorem preprocess_data_needs_values (data : list RawRow) :
  (data = []
   \/ (forall a, ~ In (Some a) (map ratio data))
   \/ (forall b, ~ In (Some b) (map variability data))
   \/ (forall c, ~ In (Some c) (map slope data)) ->
   exists msg, preprocess_data data = Raise (ValueError msg))
  /\ ((exists out, preprocess_data data = Ok out) ->
      data <> []
      /\ (exists a, In (Some a) (map ratio data))
      /\ (exists b, In (Some b) (map variability data))
      /\ (exists c, In (Some c) (map slope data))).
Proof.
  assert (Hok : (exists out, preprocess_data data = Ok out) ->
                data <> []
                /\ (exists a, In (Some a) (map ratio data))
                /\ (exists b, In (Some b) (map variability data))
                /\ (exists c, In (Some c) (map slope data))).
  { intros [out H]. unfold preprocess_data, rbind in H.
    destruct (impute data) as [imp|e] eqn:E; [|discriminate H].
    destruct (impute_ok data imp E) as (mr & mv & ms & Hr & Hv & Hs & _).
    split; [intros ->; discriminate E|].
    repeat split; eapply median_some_present; eassumption. }
  split; [|exact Hok].
  intros Hmissing.
  assert (Hcases : (exists out, preprocess_data data = Ok out)
                   \/ (exists msg,
                         preprocess_data data = Raise (ValueError msg))).
  { unfold preprocess_data, rbind, impute.
    destruct data as [|r0 data]; [right; eauto|].
    destruct (median (map ratio (r0 :: data)));
      destruct (median (map variability (r0 :: data)));
      destruct (median (map slope (r0 :: data))); eauto. }
  destruct Hcases as [Hout|Hraise]; [exfalso | exact Hraise].
  destruct (Hok Hout) as (Hne & [a Ha] & [b Hb] & [c Hc]).
  destruct Hmissing as [H|[H|[H|H]]];
    [contradiction | exact (H a Ha) | exact (H b Hb) | exact (H c Hc)].
Qed.

Lemma sublist_map {A B} (f : A -> B) (l k : list A) :
  sublist l k -> sublist (map f l) (map f k).
Proof.
  induction 1; simpl; [constructor | apply sublist_skip | apply sublist_cons];
    assumption.
Qed.

(** X6.  The preprocessor only drops rows: the readings of its output,
    identified by time stamp and glucose value, are a sub-sequence of those
    of its input, in the same order.  Every row of the output has a value in
    each of ratio, variability, slope and glucose, and carries the two
    features derived from its own values. *)
Theorem preprocess_data_keeps_order (data : list RawRow) (out : list Row) :
  preprocess_data data = Ok out ->
  sublist (map (fun r => reading_key (raw r)) out) (map reading_key data)
  /\ Forall (fun r => (forall c, exists v, col c r = Some v)
                      /\ r = add_features (raw r)) out.
Proof.
  unfold preprocess_data, rbind. intros H.
  destruct (impute data) as [imp|e] eqn:E; [|discriminate H].
  remember (remove_outliers (map add_features (List.filter physiological imp))
              outlier_columns default_factor) as res eqn:Eres in H.
  injection H as <-. subst res.
  destruct (impute_ok data imp E) as (mr & mv & ms & _ & _ & _ & Himp).
  split.
  - assert (Hkeys : map reading_key imp = map reading_key data).
    { rewrite Himp, map_map. reflexivity. }
    rewrite <- Hkeys, <- (map_map raw reading_key).
    apply sublist_map.
    etransitivity.
    { apply sublist_map.
      apply (remove_outliers_sublist outlier_columns default_factor). }
    rewrite map_map. cbn [raw add_features]. rewrite map_id.
    apply filter_sublist.
  - apply List.Forall_forall. intros r Hr. split.
    + intros c.
      apply (remove_outliers_complete outlier_columns default_factor _ r c Hr).
      destruct c; simpl; auto.
    + apply (remove_outliers_In outlier_columns default_factor) in Hr.
      apply in_map_iff in Hr. destruct Hr as [r0 [<- _]]. reflexivity.
Qed.

End PreprocessorStructure.

(** ** Preprocessor: medians, quartiles and what the filter keeps *)

Section QuartileFacts.

Import Preprocessor PreprocessorSpec.

Lemma sorted_nth_le (vs : list Q) (d : Q) (i j : nat) :
  StronglySorted Qle vs -> (i <= j)%nat -> (j < List.length vs)%nat ->
  nth i vs d <= nth j vs d.
Proof.
  intros Hs. revert i j.
  induction Hs as [|a vs Hs IH Ha]; intros i j Hij Hj; simpl in Hj; [lia|].
  destruct i as [|i], j as [|j]; simpl; try lia.
  - lra.
  - assert (Hin : In (nth j vs d) vs) by (apply nth_In; lia).
    revert Hin. generalize (nth j vs d).
    apply List.Forall_forall. exact Ha.
  - apply IH; lia.
Qed.

Lemma sorted_values_in (s : list cell) (d : Q) (i : nat) :
  (i < List.length (sort_values (dropna s)))%nat ->
  In (Some (nth i (sort_values (dropna s)) d)) s.
Proof.
  intros Hi. apply dropna_In, sort_values_In, nth_In. exact Hi.
Qed.

(** X7.  The median that fills a column lies between any two bounds of the
    present values of that column: imputation never introduces a value
    outside the range observed. *)
Theorem median_within_range (s : list cell) (lo hi m : Q) :
  (forall x, In (Some x) s -> lo <= x /\ x <= hi) ->
  median s = Some m -> lo <= m /\ m <= hi.
Proof.
  intros Hrange. unfold median.
  destruct (sort_values (dropna s)) as [|v0 vs] eqn:E; [discriminate|].
  assert (Hnth : forall i, (i < S (List.length vs))%nat ->
                           lo <= nth i (v0 :: vs) v0 /\ nth i (v0 :: vs) v0 <= hi).
  { intros i Hi. apply Hrange. rewrite <- E. apply sorted_values_in.
    rewrite E. simpl. lia. }
  set (n := List.length (v0 :: vs)).
  assert (Hn : n = S (List.length vs)) by reflexivity.
  assert (Hhalf : (n / 2 < n)%nat) by (apply Nat.div_lt; lia).
  destruct (Nat.even n).
  - intros H. apply (inj Some) in H. subst m.
    destruct (Hnth (n / 2 - 1)%nat) as [H1 H2]; [lia|].
    destruct (Hnth (n / 2)%nat) as [H3 H4]; [lia|].
    split.
    + apply Qle_shift_div_l; [reflexivity | lra].
    + apply Qle_shift_div_r; [reflexivity | lra].
  - intros H. apply (inj Some) in H. subst m. apply Hnth. lia.
Qed.

Lemma interpolation_between (a b t : Q) :
  a <= b -> 0 <= t -> t <= 1 -> a <= a + (b - a) * t /\ a + (b - a) * t <= b.
Proof. intros Hab H0 H1. split; nra. Qed.

(** The quantile lies between two neighbours of the sorted column. *)
Lemma quantile_between (q : Q) (s : list cell) (d : Q) :
  0 <= q -> q <= 1 -> dropna s <> [] ->
  let vs := sort_values (dropna s) in
  let lo := Z.to_nat (Qfloor (q * inject_Z (Z.of_nat (List.length vs) - 1))) in
  exists x up,
    quantile q s = Some x
    /\ (lo <= up)%nat /\ (up <= S lo)%nat /\ (up < List.length vs)%nat
    /\ nth lo vs d <= x /\ x <= nth up vs d.
Proof.
  intros Hq0 Hq1 Hne vs lo. subst lo. unfold quantile. fold vs.
  assert (Hs : StronglySorted Qle vs) by apply sort_values_sorted.
  assert (Hlen : (0 < List.length vs)%nat).
  { unfold vs. rewrite sort_values_length.
    destruct (dropna s); [contradiction | simpl; lia]. }
  clearbody vs.
  destruct vs as [|v0 vs']; [simpl in Hlen; lia|].
  cbv zeta.
  set (V := v0 :: vs') in *.
  set (m := (Z.of_nat (List.length V) - 1)%Z).
  set (pos := q * inject_Z m).
  set (lo := Z.to_nat (Qfloor pos)).
  assert (Hm : (0 <= m)%Z) by (unfold m; lia).
  assert (Hpos0 : 0 <= pos).
  { unfold pos. apply Qmult_le_0_compat; [exact Hq0|].
    change 0 with (inject_Z 0). rewrite <- Zle_Qle. exact Hm. }
  assert (Hposm : pos <= inject_Z m).
  { unfold pos. rewrite <- (Qmult_1_l (inject_Z m)) at 2.
    apply Qmult_le_compat_r; [exact Hq1|].
    change 0 with (inject_Z 0). rewrite <- Zle_Qle. exact Hm. }
  assert (Hfl0 : (0 <= Qfloor pos)%Z).
  { rewrite <- (Qfloor_Z 0). apply Qfloor_resp_le. exact Hpos0. }
  assert (Hflm : (Qfloor pos <= m)%Z).
  { rewrite <- (Qfloor_Z m). apply Qfloor_resp_le. exact Hposm. }
  assert (Hlo : (lo < List.length V)%nat) by (unfold lo, m in *; lia).
  assert (Ht0 : 0 <= pos - inject_Z (Qfloor pos)).
  { pose proof (Qfloor_le pos). lra. }
  assert (Ht1 : pos - inject_Z (Qfloor pos) <= 1).
  { pose proof (Qlt_floor pos) as H. rewrite inject_Z_plus in H.
    change (inject_Z 1) with 1 in H. lra. }
  set (a := nth lo V v0).
  assert (Ha : a = nth lo V d) by (apply nth_indep; exact Hlo).
  destruct (Nat.lt_ge_cases (S lo) (List.length V)) as [Hup|Hup].
  - exists (a + (nth (S lo) V a - a) * (pos - inject_Z (Qfloor pos))), (S lo).
    split; [reflexivity|].
    split; [lia|]. split; [lia|]. split; [exact Hup|].
    rewrite (nth_indep V a d Hup), <- Ha.
    apply interpolation_between; [|exact Ht0|exact Ht1].
    rewrite Ha. apply sorted_nth_le; [exact Hs | lia | exact Hup].
  - exists (a + (nth (S lo) V a - a) * (pos - inject_Z (Qfloor pos))), lo.
    split; [reflexivity|].
    split; [lia|]. split; [lia|]. split; [exact Hlo|].
    rewrite (nth_overflow V a Hup), <- Ha.
    split; nra.
Qed.

Lemma Qfloor_quarter (m : Z) : Qfloor ((1 # 4) * inject_Z m) = (m / 4)%Z.
Proof.
  unfold Qfloor, Qmult, inject_Z. simpl Qnum. simpl Qden.
  f_equal. destruct m; reflexivity.
Qed.

Lemma Qfloor_three_quarters (m : Z) :
  Qfloor ((3 # 4) * inject_Z m) = (3 * m / 4)%Z.
Proof.
  unfold Qfloor, Qmult, inject_Z. simpl Qnum. simpl Qden. reflexivity.
Qed.

(** The two quartiles of a column, with a present value between them when
    the column has at least three. *)
Lemma quartiles_bracket (s : list cell) :
  dropna s <> [] ->
  exists q1 q3,
    quantile (1 # 4) s = Some q1 /\ quantile (3 # 4) s = Some q3
    /\ q1 <= q3
    /\ (exists x, In (Some x) s /\ x <= q1)
    /\ (exists x, In (Some x) s /\ q3 <= x)
    /\ ((3 <= List.length (dropna s))%nat ->
        exists v, In (Some v) s /\ q1 <= v /\ v <= q3).
Proof.
  intros Hne.
  set (vs := sort_values (dropna s)).
  assert (Hs : StronglySorted Qle vs) by apply sort_values_sorted.
  assert (Hlen : List.length vs = List.length (dropna s))
    by apply sort_values_length.
  assert (Hpos : (0 < List.length vs)%nat).
  { rewrite Hlen. destruct (dropna s); [contradiction | simpl; lia]. }
  destruct (quantile_between (1 # 4) s 0) as (q1 & u1 & E1 & L1 & U1 & B1 & A1 & C1);
    [lra | lra | exact Hne |].
  destruct (quantile_between (3 # 4) s 0) as (q3 & u3 & E3 & L3 & U3 & B3 & A3 & C3);
    [lra | lra | exact Hne |].
  fold vs in L1, U1, B1, A1, C1, L3, U3, B3, A3, C3.
  rewrite Qfloor_quarter in L1, U1, A1.
  rewrite Qfloor_three_quarters in L3, U3, A3.
  set (lo1 := Z.to_nat ((Z.of_nat (List.length vs) - 1) / 4)) in *.
  set (lo3 := Z.to_nat (3 * (Z.of_nat (List.length vs) - 1) / 4)) in *.
  assert (Hlo1 : (lo1 < List.length vs)%nat) by (unfold lo1; lia).
  assert (Hlo3 : (lo3 < List.length vs)%nat) by (unfold lo3; lia).
  assert (Hin : forall i, (i < List.length vs)%nat -> In (Some (nth i vs 0)) s).
  { intros i Hi. apply sorted_values_in. exact Hi. }
  assert (Hstep : (3 <= List.length vs)%nat -> (u1 <= lo3)%nat).
  { intros H3.
    assert (Hdiv : (0 <= (Z.of_nat (List.length vs) - 1) / 4
                    /\ (Z.of_nat (List.length vs) - 1) / 4 + 1
                       <= 3 * (Z.of_nat (List.length vs) - 1) / 4)%Z)
      by (Z.to_euclidean_division_equations; lia).
    unfold lo1, lo3 in *.
    revert U1 Hdiv.
    generalize ((Z.of_nat (List.length vs) - 1) / 4)%Z,
               (3 * (Z.of_nat (List.length vs) - 1) / 4)%Z.
    intros z1 z3 U1 Hdiv. lia. }
  exists q1, q3. split; [exact E1|]. split; [exact E3|].
  assert (Hord : q1 <= q3).
  { destruct (Nat.le_gt_cases 3 (List.length vs)) as [H3|H3].
    - pose proof (sorted_nth_le vs 0 u1 lo3 Hs (Hstep H3) Hlo3). lra.
    - clear Hstep Hin Hlo1 Hlo3 L1 U1 B1 A1 C1 L3 U3 B3 A3 C3.
      subst lo1 lo3.
      destruct vs as [|a [|b [|c vs']]] eqn:Evs; simpl in Hpos, H3; try lia.
      + destruct (quartiles_of_one s a Evs) as [F1 F3].
        rewrite F1 in E1. rewrite F3 in E3.
        apply (inj Some) in E1. apply (inj Some) in E3. subst q1 q3. lra.
      + destruct (quartiles_of_two s a b Evs) as [F1 F3].
        rewrite F1 in E1. rewrite F3 in E3.
        apply (inj Some) in E1. apply (inj Some) in E3. subst q1 q3.
        apply StronglySorted_inv in Hs. destruct Hs as [_ Hab].
        apply Forall_inv in Hab. lra. }
  split; [exact Hord|].
  split; [exists (nth lo1 vs 0); split; [apply Hin, Hlo1 | exact A1]|].
  split; [exists (nth u3 vs 0); split; [apply Hin, B3 | exact C3]|].
  intros H3. rewrite <- Hlen in H3.
  exists (nth u1 vs 0). split; [apply Hin, B1|].
  split; [exact C1|].
  pose proof (sorted_nth_le vs 0 u1 lo3 Hs (Hstep H3) Hlo3). lra.
Qed.

End QuartileFacts.

Section OutlierFacts.

Import Preprocessor PreprocessorSpec.

Lemma quantile_some_present (q : Q) (s : list cell) (x : Q) :
  quantile q s = Some x -> dropna s <> [].
Proof.
  unfold quantile. intros H E. rewrite E in H. discriminate H.
Qed.

(** X8.  The first quartile of a column never exceeds the third, so the
    interquartile range is never negative and the interval kept by the
    filter always contains both quartiles; and both quartiles lie between
    any two bounds of the present values of the column. *)
Theorem quartiles_ordered (s : list cell) (q1 q3 lo hi : Q) :
  quantile (1 # 4) s = Some q1 ->
  quantile (3 # 4) s = Some q3 ->
  q1 <= q3
  /\ q1 - default_factor * (q3 - q1) <= q1
  /\ q3 <= q3 + default_factor * (q3 - q1)
  /\ ((forall x, In (Some x) s -> lo <= x /\ x <= hi) ->
      lo <= q1 /\ q3 <= hi).
Proof.
  intros E1 E3.
  destruct (quartiles_bracket s (quantile_some_present _ _ _ E1))
    as (p1 & p3 & F1 & F3 & Hord & [x [Hx Hx1]] & [y [Hy Hy3]] & _).
  rewrite E1 in F1. rewrite E3 in F3.
  apply (inj Some) in F1. apply (inj Some) in F3. subst p1 p3.
  unfold default_factor.
  split; [exact Hord|]. split; [lra|]. split; [lra|].
  intros Hrange.
  destruct (Hrange x Hx) as [H1 _]. destruct (Hrange y Hy) as [_ H2].
  split; lra.
Qed.

Lemma dropna_all_present (s : list cell) :
  (forall c, In c s -> c <> None) ->
  List.length (dropna s) = List.length s.
Proof.
  induction s as [|[x|] s IH]; simpl; intros H.
  - reflexivity.
  - f_equal. apply IH. auto.
  - exfalso. apply (H None); auto.
Qed.

(** One step of the filter keeps a row of a frame that is complete in the
    column. *)
Lemma filter_step_keeps_a_row (c : Column) (df : list Row) :
  df <> [] ->
  (forall r, In r df -> exists v, col c r = Some v) ->
  List.filter
    (fun r => within_iqr default_factor (quantile (1 # 4) (map (col c) df))
                (quantile (3 # 4) (map (col c) df)) (col c r)) df
  <> [].
Proof.
  intros Hne Hfull.
  set (s := map (col c) df).
  assert (Hlen : List.length (dropna s) = List.length df).
  { unfold s. rewrite dropna_all_present; [apply length_map|].
    intros x Hx. apply in_map_iff in Hx. destruct Hx as [r [<- Hr]].
    destruct (Hfull r Hr) as [v ->]. discriminate. }
  destruct (Nat.le_gt_cases (List.length df) 3) as [Hshort|Hlong].
  - rewrite filter_all; [exact Hne|].
    intros r Hr. destruct (Hfull r Hr) as [v Hv]. rewrite Hv.
    apply short_column_within_iqr.
    + unfold s. now rewrite length_map.
    + rewrite <- Hv. apply in_map. exact Hr.
  - assert (Hs : dropna s <> []).
    { intros E. rewrite E in Hlen. simpl in Hlen. lia. }
    destruct (quartiles_bracket s Hs)
      as (q1 & q3 & E1 & E3 & Hord & _ & _ & Hmid).
    destruct Hmid as [v [Hv [H1 H3]]]; [lia|].
    apply in_map_iff in Hv. destruct Hv as [r [Hr Hin]].
    intros Hnil.
    assert (Hkept :
      In r (List.filter
              (fun r => within_iqr default_factor (quantile (1 # 4) s)
                          (quantile (3 # 4) s) (col c r)) df)).
    { apply filter_In. split; [exact Hin|].
      rewrite Hr, E1, E3. apply within_iqr_bounds; lra. }
    fold s in Hnil. rewrite Hnil in Hkept. contradiction.
Qed.

(** The filters of several columns, one after the other, keep a row. *)
Lemma filter_steps_keep_a_row (columns : list Column) (df : list Row) :
  df <> [] ->
  (forall r c, In r df -> In c columns -> exists v, col c r = Some v) ->
  remove_outliers df columns default_factor <> [].
Proof.
  revert df.
  induction columns as [|c columns IH]; intros df Hne Hfull; [exact Hne|].
  cbn [remove_outliers]. apply IH.
  - apply filter_step_keeps_a_row; [exact Hne|].
    intros r Hr. apply Hfull; [exact Hr | left; reflexivity].
  - intros r c' Hr Hc'. apply filter_In in Hr.
    apply Hfull; [tauto | right; exact Hc'].
Qed.

(** X9.  Outlier removal never empties a dataset: applied to a frame that
    has a row and no missing value in the columns filtered, it keeps at
    least one row. *)
Theorem remove_outliers_keeps_a_row (columns : list Column) (df : list Row) :
  df <> [] ->
  (forall r c, In r df -> In c columns -> exists v, col c r = Some v) ->
  remove_outliers df columns default_factor <> [].
Proof. exact (filter_steps_keep_a_row columns df). Qed.

(** X10.  The dataset returned by the preprocessor is empty only when no
    row of the input has a glucose value between 40 and 400: as soon as one
    row passes the physiological filter, at least one row is returned. *)
Theorem preprocess_data_nonempty_iff (data : list RawRow) (out : list Row) :
  preprocess_data data = Ok out ->
  (out <> [] <-> exists r, In r data /\ physiological r = true).
Proof.
  unfold preprocess_data, rbind. intros H.
  destruct (impute data) as [imp|e] eqn:E; [|discriminate H].
  remember (remove_outliers (map add_features (List.filter physiological imp))
              outlier_columns default_factor) as res eqn:Eres in H.
  injection H as <-.
  destruct (impute_ok data imp E) as (mr & mv & ms & _ & _ & _ & Himp).
  assert (Hphys : forall r, physiological
                              (mkRawRow (timestamp r) (fillna mr (ratio r))
                                 (fillna mv (variability r))
                                 (fillna ms (slope r)) (glucose r))
                            = physiological r) by reflexivity.
  split.
  - intros Hne.
    destruct res as [|r res']; [contradiction|].
    assert (Hr : In r (map add_features (List.filter physiological imp))).
    { apply (remove_outliers_In outlier_columns default_factor).
      rewrite <- Eres. left. reflexivity. }
    apply in_map_iff in Hr. destruct Hr as [r0 [_ Hr0]].
    apply filter_In in Hr0. destruct Hr0 as [Hin Hp].
    rewrite Himp in Hin. apply in_map_iff in Hin.
    destruct Hin as [r1 [<- Hin]]. exists r1. split; [exact Hin|].
    rewrite <- Hphys. exact Hp.
  - intros [r [Hin Hp]]. rewrite Eres.
    apply filter_steps_keep_a_row.
    + intros Hnil.
      assert (Hr : In (add_features
                         (mkRawRow (timestamp r) (fillna mr (ratio r))
                            (fillna mv (variability r))
                            (fillna ms (slope r)) (glucose r)))
                      (map add_features (List.filter physiological imp))).
      { apply in_map. apply filter_In. split; [|rewrite Hphys; exact Hp].
        rewrite Himp. apply in_map_iff. exists r. auto. }
      rewrite Hnil in Hr. contradiction.
    + intros r' c Hr' _. apply in_map_iff in Hr'.
      destruct Hr' as [r0 [<- Hr0]]. apply filter_In in Hr0.
      destruct Hr0 as [Hr0 Hp0].
      rewrite Himp in Hr0. apply in_map_iff in Hr0.
      destruct Hr0 as [r1 [<- _]].
      rewrite Hphys in Hp0. apply physiological_range in Hp0.
      destruct Hp0 as [g [Hg _]].
      destruct c; cbn [col raw_col raw add_features ratio variability slope
                         glucose].
      * destruct (ratio r1); simpl; eauto.
      * destruct (variability r1); simpl; eauto.
      * destruct (slope r1); simpl; eauto.
      * eauto.
Qed.

End OutlierFacts.

(** ** Splitter/Scaler: when it succeeds and what it returns *)

Section ScalerShape.

Import Scaler ScalerSpec.

Variable sqrt : Q -> Q.

Lemma check_array_ok (X : Matrix) :
  check_array X = Ok tt
  <-> X <> [] /\ has_inf X = false /\ (0 < width X)%nat.
Proof.
  unfold check_array, width.
  destruct (has_inf X); [split; [discriminate | intros (_ & H & _); discriminate H]|].
  destruct X as [|r0 X]; [split; [discriminate | intros (H & _); contradiction]|].
  destruct (Nat.eqb_spec (List.length r0) 0) as [E|N].
  - split; [discriminate | intros (_ & _ & H); lia].
  - split; [|reflexivity]. intros _. repeat split; [discriminate | lia].
Qed.

Lemma check_array_cases (X : Matrix) :
  check_array X = Ok tt \/ exists msg, check_array X = Raise (ValueError msg).
Proof.
  unfold check_array. destruct (has_inf X); [eauto|].
  destruct X as [|r0 X]; [eauto|].
  destruct (List.length r0 =? 0)%nat; eauto.
Qed.

Lemma fit_ok (X : Matrix) (p : StandardScaler) :
  fit X = Ok p ->
  X <> [] /\ has_inf X = false /\ (0 < width X)%nat
  /\ mean_ p = map (fun j => mean (present (column j X))) (seq 0 (width X))
  /\ var_ p = map (fun j => variance (present (column j X)))
                (seq 0 (width X)).
Proof.
  unfold fit, rbind.
  destruct (check_array X) as [[]|e] eqn:E; [|discriminate].
  apply check_array_ok in E. destruct E as (Hne & Hinf & Hw).
  intros H. injection H as <-. cbn [mean_ var_].
  destruct X as [|r0 X]; [contradiction|]. cbn [hd width].
  repeat split; assumption.
Qed.

Lemma fit_returns (X : Matrix) :
  X <> [] -> has_inf X = false -> (0 < width X)%nat ->
  exists p, fit X = Ok p.
Proof.
  intros Hne Hinf Hw. unfold fit, rbind.
  rewrite (proj2 (check_array_ok X)) by auto. eauto.
Qed.

Lemma fit_widths (X : Matrix) (p : StandardScaler) :
  fit X = Ok p ->
  List.length (mean_ p) = width X /\ List.length (var_ p) = width X.
Proof.
  intros H. destruct (fit_ok X p H) as (_ & _ & _ & -> & ->).
  now rewrite !length_map, !length_seq.
Qed.

Lemma transform_with_ok (p : StandardScaler) (X A : Matrix) :
  transform_with sqrt p X = Ok A ->
  X <> [] /\ has_inf X = false
  /\ (forall r, In r X -> List.length r = List.length (mean_ p))
  /\ A = map (scale_row (mean_ p) (map (scale_of sqrt) (var_ p))) X.
Proof.
  unfold transform_with, rbind.
  destruct (check_array X) as [[]|e] eqn:E; [|discriminate].
  apply check_array_ok in E. destruct E as (Hne & Hinf & Hw).
  destruct (forallb _ X) eqn:Ew; cbn [negb]; [|discriminate].
  intros H. injection H as <-.
  split; [exact Hne|]. split; [exact Hinf|]. split; [|reflexivity].
  intros r Hr. rewrite forallb_forall in Ew.
  apply Nat.eqb_eq. apply Ew. exact Hr.
Qed.

Lemma transform_with_returns (p : StandardScaler) (X : Matrix) :
  X <> [] -> (0 < List.length (mean_ p))%nat ->
  (forall r, In r X -> List.length r = List.length (mean_ p)) ->
  has_inf X = false ->
  transform_with sqrt p X
  = Ok (map (scale_row (mean_ p) (map (scale_of sqrt) (var_ p))) X).
Proof.
  intros Hne Hpos Hw Hinf. unfold transform_with, rbind.
  assert (Hwidth : (0 < width X)%nat).
  { destruct X as [|r0 X]; [contradiction|]. cbn [width].
    rewrite (Hw r0 (or_introl eq_refl)). exact Hpos. }
  rewrite (proj2 (check_array_ok X)) by auto.
  assert (E : forallb (fun r => (List.length r =? List.length (mean_ p))%nat) X
              = true).
  { apply forallb_forall. intros r Hr. apply Nat.eqb_eq. auto. }
  rewrite E. reflexivity.
Qed.

Lemma run_standardize_ok (X_train X_test A B : Matrix) :
  fst (run_standardize sqrt X_train X_test) = Ok (A, B) ->
  exists p,
    fit X_train = Ok p
    /\ transform_with sqrt p X_train = Ok A
    /\ transform_with sqrt p X_test = Ok B.
Proof.
  unfold run_standardize, standardize, bind, fit_transform, transform, ret.
  destruct (fit X_train) as [p|e]; [|discriminate].
  destruct (transform_with sqrt p X_train) as [A'|e] eqn:EA; [|discriminate].
  destruct (transform_with sqrt p X_test) as [B'|e] eqn:EB; [|discriminate].
  cbn [fst]. intros H. injection H as <- <-. exists p.
  repeat split; assumption.
Qed.

Lemma scale_row_length (ms ss : list cell) (r : list xfloat) :
  List.length ms = List.length r -> List.length ss = List.length r ->
  List.length (scale_row ms ss r) = List.length r.
Proof.
  revert ms ss. induction r as [|x r IH]; intros [|m ms] [|s ss] Hm Hs;
    simpl in *; try discriminate; try reflexivity.
  f_equal. apply IH; lia.
Qed.

(** X12.  Standardization succeeds exactly when both matrices have a row,
    the training matrix has a column, neither matrix has an infinite entry,
    and every row of both has as many entries as the first training row;
    every failure is a [ValueError].  The matrices it returns have the rows
    of its arguments, one for one and of the same lengths. *)
Theorem standardize_succeeds_iff (X_train X_test : Matrix) :
  ((exists A B, fst (run_standardize sqrt X_train X_test) = Ok (A, B))
   <-> X_train <> [] /\ X_test <> [] /\ (0 < width X_train)%nat
       /\ has_inf X_train = false /\ has_inf X_test = false
       /\ (forall r, In r (X_train ++ X_test) ->
                     List.length r = width X_train))
  /\ (forall e, fst (run_standardize sqrt X_train X_test) = Raise e ->
                exists msg, e = ValueError msg)
  /\ (forall A B,
        fst (run_standardize sqrt X_train X_test) = Ok (A, B) ->
        Forall2 (fun r r' => List.length r' = List.length r) X_train A
        /\ Forall2 (fun r r' => List.length r' = List.length r) X_test B).
Proof.
  split; [split|split].
  - intros (A & B & H).
    destruct (run_standardize_ok _ _ _ _ H) as (p & Hfit & HA & HB).
    destruct (fit_ok _ _ Hfit) as (Hne & Hinf & Hpos & _ & _).
    destruct (fit_widths _ _ Hfit) as [Hw _].
    destruct (transform_with_ok _ _ _ HA) as (_ & _ & HwA & _).
    destruct (transform_with_ok _ _ _ HB) as (HneB & HinfB & HwB & _).
    repeat split; try assumption.
    intros r Hr. rewrite <- Hw. apply in_app_or in Hr.
    destruct Hr; auto.
  - intros (Hne & HneB & Hpos & Hinf & HinfB & Hw).
    destruct (fit_returns X_train Hne Hinf Hpos) as [p Hfit].
    destruct (fit_widths _ _ Hfit) as [Hwp _].
    unfold run_standardize, standardize, bind, fit_transform, transform, ret.
    rewrite Hfit.
    rewrite !transform_with_returns; cbn [fst]; eauto;
      try lia; intros r Hr; rewrite Hwp; apply Hw, in_or_app; auto.
  - intros e.
    assert (Htw : forall p X e',
               transform_with sqrt p X = Raise e' ->
               exists msg, e' = ValueError msg).
    { intros p X e'. unfold transform_with, rbind.
      destruct (check_array_cases X) as [->|[msg ->]].
      - destruct (negb _); [|discriminate].
        intros H. injection H as <-. eauto.
      - intros H. injection H as <-. eauto. }
    unfold run_standardize, standardize, bind, fit_transform, transform, ret.
    destruct (fit X_train) as [p|e0] eqn:Hfit.
    + destruct (transform_with sqrt p X_train) as [A|e1] eqn:EA.
      * destruct (transform_with sqrt p X_test) as [B|e2] eqn:EB;
          cbn [fst]; [discriminate|].
        intros H. injection H as <-. eapply Htw; eassumption.
      * cbn [fst]. intros H. injection H as <-. eapply Htw; eassumption.
    + cbn [fst]. intros H. injection H as <-.
      unfold fit, rbind in Hfit.
      destruct (check_array_cases X_train) as [E|[msg E]];
        rewrite E in Hfit; [discriminate Hfit|].
      injection Hfit as <-. eauto.
  - intros A B H.
    destruct (run_standardize_ok _ _ _ _ H) as (p & Hfit & HA & HB).
    destruct (fit_widths _ _ Hfit) as [Hwm Hwv].
    destruct (transform_with_ok _ _ _ HA) as (_ & _ & HwA & ->).
    destruct (transform_with_ok _ _ _ HB) as (_ & _ & HwB & ->).
    assert (Hshape : forall X,
               (forall r, In r X -> List.length r = List.length (mean_ p)) ->
               Forall2 (fun r r' => List.length r' = List.length r) X
                 (map (scale_row (mean_ p) (map (scale_of sqrt) (var_ p))) X)).
    { induction X as [|r X IH]; intros HX; simpl; constructor.
      - apply scale_row_length.
        + symmetry. apply HX. left. reflexivity.
        + rewrite length_map, Hwv, <- Hwm. symmetry. apply HX.
          left. reflexivity.
      - apply IH. intros r' Hr'. apply HX. right. exact Hr'. }
    split; apply Hshape; assumption.
Qed.

End ScalerShape.

(** ** ArtifactExporter: effects of one call and of two *)

Section ExporterEffects.

Import Exporter ExporterSpec.

Lemma data_frame_combine (names : list string) (values : list Q) :
  List.length names = List.length values ->
  data_frame names values = Ok (combine names values).
Proof.
  revert values. induction names as [|n names IH]; intros [|v values] H;
    try discriminate H; [reflexivity|].
  injection H as H. simpl. rewrite (IH values H). reflexivity.
Qed.

Lemma combine_fst {A B} (a : list A) (b : list B) :
  List.length a = List.length b -> map fst (combine a b) = a.
Proof.
  revert b. induction a as [|x a IH]; intros [|y b] H; try discriminate H;
    [reflexivity|].
  injection H as H. simpl. now rewrite IH.
Qed.

Lemma combine_snd {A B} (a : list A) (b : list B) :
  List.length a = List.length b -> map snd (combine a b) = b.
Proof.
  revert b. induction a as [|x a IH]; intros [|y b] H; try discriminate H;
    [reflexivity|].
  injection H as H. simpl. now rewrite IH.
Qed.

Lemma data_frame_mismatch (names : list string) (values : list Q) :
  List.length names <> List.length values ->
  data_frame names values
  = Raise (ValueError "All arrays must be of the same length").
Proof.
  revert values. induction names as [|n names IH]; intros [|v values] H;
    simpl in *; try reflexivity; try contradiction.
  rewrite IH by lia. reflexivity.
Qed.

Lemma data_frame_ok (names : list string) (values : list Q)
    (table : list (string * Q)) :
  data_frame names values = Ok table ->
  List.length names = List.length values /\ table = combine names values.
Proof.
  intros H.
  destruct (Nat.eq_dec (List.length names) (List.length values)) as [E|N].
  - rewrite (data_frame_combine _ _ E) in H. injection H as <-. auto.
  - rewrite (data_frame_mismatch _ _ N) in H. discriminate H.
Qed.

Lemma data_frame_cases (names : list string) (values : list Q) :
  (List.length names = List.length values
   /\ data_frame names values = Ok (combine names values))
  \/ (List.length names <> List.length values
      /\ data_frame names values
         = Raise (ValueError "All arrays must be of the same length")).
Proof.
  destruct (Nat.eq_dec (List.length names) (List.length values)) as [E|N].
  - left. split; [exact E | now apply data_frame_combine].
  - right. split; [exact N | now apply data_frame_mismatch].
Qed.

Lemma lookup_insert_keeps (fs : gmap string Content) (k : string)
    (c : Content) (p : string) :
  is_Some (fs !! p) -> is_Some (<[k := c]> fs !! p).
Proof.
  intros Hp. destruct (decide (k = p)) as [->|Hne].
  - rewrite lookup_insert_eq. eauto.
  - rewrite lookup_insert_ne by exact Hne. exact Hp.
Qed.

(** What every call leaves behind. *)
Lemma save_coefficients_summary (m : Model) (f : list string) (d : string)
    (t : Timestamp) (w : World) :
  let run := save_coefficients m f d t w in
  exists w1,
    grows_towards d w w1 /\ dirs (snd run) = dirs w1
    /\ (forall p, p <> path_join d (csv_name m t) ->
                  p <> path_join d header_name ->
                  p <> path_join d (joblib_name m t) ->
                  files (snd run) !! p = files w !! p)
    /\ (forall p, is_Some (files w !! p) -> is_Some (files (snd run) !! p))
    /\ (exists lines, stdout (snd run) = stdout w ++ lines)
    /\ (forall e, fst run = Raise e ->
                  stdout (snd run) = stdout w
                  /\ ((exists msg, e = OSError msg)
                      \/ e = ValueError "All arrays must be of the same length"))
    /\ (forall p, fst run = Ok p -> is_dir w1 d = true).
Proof.
  intros run. subst run.
  destruct (is_linear m) eqn:Hm.
  - destruct m as [b coef| |]; try discriminate Hm.
    destruct (data_frame_cases ("intercept"%string :: f) (b :: coef))
      as [[_ Htable]|[_ Htable]].
    + destruct (save_linear_outcome b coef f d t w _ Htable)
        as (w1 & Hg & Hd & _ & [([msg Hfail] & Hs & Hf)|(Hok & Hf & Hs & Hdir)]).
      * exists w1. split; [exact Hg|]. split; [exact Hd|].
        split.
        { intros p H1 _ _. destruct Hf as [->| ->]; [reflexivity|].
          rewrite lookup_insert_ne by congruence. reflexivity. }
        split.
        { intros p Hp. destruct Hf as [->| ->]; [exact Hp|].
          now apply lookup_insert_keeps. }
        split; [exists []; now rewrite app_nil_r|].
        split; [|intros p Hp; rewrite Hfail in Hp; discriminate Hp].
        intros e He. rewrite Hfail in He. injection He as <-.
        split; [exact Hs | left; eauto].
      * exists w1. split; [exact Hg|]. split; [exact Hd|].
        split.
        { intros p H1 H2 _. rewrite Hf.
          rewrite !lookup_insert_ne by congruence. reflexivity. }
        split.
        { intros p Hp. rewrite Hf. now apply lookup_insert_keeps,
            lookup_insert_keeps. }
        split; [rewrite Hs, <- app_assoc; eauto|].
        split; [intros e He; rewrite Hok in He; discriminate He|].
        intros p _. exact Hdir.
    + destruct (save_mismatch_outcome b coef f d t w _ Htable)
        as [Hg Hfail].
      pose proof Hg as (F & S & _ & _ & _).
      exists (snd (save_coefficients (LinearModel b coef) f d t w)).
      split; [exact Hg|]. split; [reflexivity|].
      split; [intros p _ _ _; now rewrite F|].
      split; [intros p Hp; now rewrite F|].
      split; [exists []; now rewrite app_nil_r|].
      split.
      * intros e He. split; [exact S|].
        destruct Hfail as [[msg Hfail]|Hfail]; rewrite Hfail in He;
          injection He as <-; eauto.
      * intros p Hp.
        destruct Hfail as [[msg Hfail]|Hfail]; rewrite Hfail in Hp;
          discriminate Hp.
  - destruct (save_ensemble_outcome m f d t w Hm)
      as (w1 & Hg & Hd & _ & [([msg Hfail] & Hs & Hf)|(Hok & Hf & Hs & Hdir)]).
    + exists w1. split; [exact Hg|]. split; [exact Hd|].
      split; [intros p _ _ _; now rewrite Hf|].
      split; [intros p Hp; now rewrite Hf|].
      split; [exists []; now rewrite app_nil_r|].
      split; [|intros p Hp; rewrite Hfail in Hp; discriminate Hp].
      intros e He. rewrite Hfail in He. injection He as <-.
      split; [exact Hs | left; eauto].
    + exists w1. split; [exact Hg|]. split; [exact Hd|].
      split.
      { intros p _ _ H3. rewrite Hf.
        rewrite lookup_insert_ne by congruence. reflexivity. }
      split; [intros p Hp; rewrite Hf; now apply lookup_insert_keeps|].
      split; [rewrite Hs, <- !app_assoc; eauto|].
      split; [intros e He; rewrite Hok in He; discriminate He|].
      intros p _. exact Hdir.
Qed.

(** X17.  Whatever the model and whether or not the call succeeds,
    [save_coefficients] leaves every file other than its own three paths as
    it was, removes no file and no directory, adds as directories only
    initial parts of the output path (the output directory and its missing
    ancestors), and only appends to the console.  When it fails it has
    printed nothing, and the error is an [OSError] or the [ValueError] of a
    table that cannot be built; when it returns, the output directory
    exists. *)
Theorem save_coefficients_frame (m : Model) (f : list string) (d : string)
    (t : Timestamp) (w : World) :
  let run := save_coefficients m f d t w in
  let w' := snd run in
  (forall p, p <> path_join d (csv_name m t) ->
             p <> path_join d header_name ->
             p <> path_join d (joblib_name m t) ->
             files w' !! p = files w !! p)
  /\ (forall p, is_Some (files w !! p) -> is_Some (files w' !! p))
  /\ dirs w ⊆ dirs w'
  /\ (forall p, p ∈ dirs w' -> p ∈ dirs w \/ leads_to p d)
  /\ (exists lines, stdout w' = stdout w ++ lines)
  /\ (forall e, fst run = Raise e ->
                stdout w' = stdout w
                /\ ((exists msg, e = OSError msg)
                    \/ e = ValueError "All arrays must be of the same length"))
  /\ (forall p, fst run = Ok p -> is_dir w' d = true).
Proof.
  intros run w'. subst w' run.
  destruct (save_coefficients_summary m f d t w)
    as (w1 & (_ & _ & _ & Hsub & Hnew) & Hd & Hother & Hkeep & Hout & Hfail
        & Hok).
  split; [exact Hother|]. split; [exact Hkeep|].
  split; [rewrite Hd; exact Hsub|].
  split; [rewrite Hd; exact Hnew|].
  split; [exact Hout|]. split; [exact Hfail|].
  intros p Hp. rewrite (is_dir_same_dirs w1 _ d Hd). exact (Hok p Hp).
Qed.

(** X18.  An export of a linear model with any number of coefficients.  If
    it returns, there are as many feature names as coefficients, the path
    returned holds the table whose names are intercept followed by the
    features and whose values are the intercept followed by the
    coefficients, and the header holds the text made from that table.  It
    does return when the numbers agree, the output directory exists and
    nothing prevents the two files.  If the numbers differ it raises and
    writes no file and prints nothing.  With an empty path for the output
    directory it raises [OSError] and changes nothing, and with a regular
    file at that path it raises and writes no file. *)
Theorem linear_export_general (b : Q) (coef : list Q) (f : list string)
    (d : string) (t : Timestamp) (w : World) :
  let model := LinearModel b coef in
  let csv := path_join d (csv_name model t) in
  let header := path_join d header_name in
  let run := save_coefficients model f d t w in
  let table := combine ("intercept"%string :: f) (b :: coef) in
  (forall p, fst run = Ok p ->
     List.length f = List.length coef
     /\ p = csv
     /\ files (snd run) !! csv = Some (CoeffTable table)
     /\ files (snd run) !! header = Some (Text (header_text table))
     /\ map fst table = "intercept"%string :: f
     /\ map snd table = b :: coef)
  /\ (List.length f = List.length coef -> is_dir w d = true ->
      can_write w csv = true -> can_write w header = true ->
      fst run = Ok csv)
  /\ (List.length f <> List.length coef ->
      (exists e, fst run = Raise e)
      /\ files (snd run) = files w /\ stdout (snd run) = stdout w)
  /\ (d = ""%string ->
      run = (Raise (OSError "No such file or directory"), w))
  /\ (is_dir w d = false -> is_file w d = true ->
      (exists e, fst run = Raise e) /\ files (snd run) = files w).
Proof.
  intros model csv header run table.
  assert (Hlen : List.length f = List.length coef
                 <-> List.length ("intercept"%string :: f)
                     = List.length (b :: coef)) by (simpl; lia).
  split; [|split; [|split; [|split]]].
  - intros p Hp.
    destruct (data_frame_cases ("intercept"%string :: f) (b :: coef))
      as [[Hl Htable]|[Hl Htable]].
    + destruct (save_linear_outcome b coef f d t w _ Htable)
        as (w1 & _ & _ & _ & [([msg Hfail] & _)|(Hok & Hf & _ & _)]).
      * unfold run, model in Hp. rewrite Hfail in Hp. discriminate Hp.
      * unfold run, model in Hp. rewrite Hok in Hp. injection Hp as <-.
        split; [now apply Hlen|]. split; [reflexivity|].
        unfold run, model, csv, header. rewrite Hf.
        split.
        { rewrite lookup_insert_ne by apply header_path_not_csv.
          apply lookup_insert_eq. }
        split; [apply lookup_insert_eq|].
        split; [now apply combine_fst | now apply combine_snd].
    + destruct (save_mismatch_outcome b coef f d t w _ Htable)
        as [_ [[msg Hfail]|Hfail]];
        unfold run, model in Hp; rewrite Hfail in Hp; discriminate Hp.
  - intros Hl Hd Hcsv Hheader.
    apply (save_linear_returns b coef f d t w table); try assumption.
    apply data_frame_combine. now apply Hlen.
  - intros Hl.
    assert (Hl' : List.length ("intercept"%string :: f)
                  <> List.length (b :: coef)) by (intros E; apply Hl, Hlen, E).
    destruct (save_mismatch_outcome b coef f d t w _
                (data_frame_mismatch _ _ Hl'))
      as [(F & S & _) Hfail].
    split; [|split; [exact F | exact S]].
    destruct Hfail as [[msg Hfail]|Hfail]; eauto.
  - intros ->. unfold run, model.
    destruct (data_frame_cases ("intercept"%string :: f) (b :: coef))
      as [[_ Htable]|[_ Htable]].
    + rewrite (save_linear_steps b coef f "" t w _ Htable).
      rewrite prepare_dir_empty. reflexivity.
    + rewrite (save_mismatch_steps b coef f "" t w _ Htable).
      rewrite prepare_dir_empty. reflexivity.
  - intros Hnd Hfile.
    destruct (save_coefficients_summary model f d t w)
      as (w1 & (_ & _ & _ & Hsub & Hnew) & Hd & _ & _ & _ & _ & Hok).
    assert (Hprep : prepare_dir d w = (Ok tt, w)).
    { unfold prepare_dir, bind, path_exists, ret.
      rewrite Hnd, Hfile. reflexivity. }
    destruct (data_frame_cases ("intercept"%string :: f) (b :: coef))
      as [[_ Htable]|[_ Htable]].
    + unfold run, model.
      rewrite (save_linear_steps b coef f d t w _ Htable), Hprep.
      fold table.
      destruct (write_file_cases (path_join d (csv_name (LinearModel b coef) t))
                  (CoeffTable table) w) as [[msg ->]|[_ Hp]].
      * cbn [fst snd]. eauto.
      * exfalso.
        assert (Hd0 : d <> ""%string) by (intros ->; discriminate Hfile).
        pose proof (written_in_dir d _ w Hd0 (csv_name_no_slash _ t) Hp)
          as Hdir.
        congruence.
    + unfold run, model.
      rewrite (save_mismatch_steps b coef f d t w _ Htable), Hprep.
      cbn [fst snd]. eauto.
Qed.

(** X19.  Two exports of linear models to the same directory, at two
    different clock readings, that both return: both coefficient tables are
    in place, each under its own time stamp, and there is one header, which
    holds the coefficients of the second export. *)
Theorem second_export_replaces_header (b1 b2 : Q) (coef1 coef2 : list Q)
    (f : list string) (d : string) (t1 t2 : Timestamp) (w : World)
    (p1 p2 : string) :
  valid_timestamp t1 -> valid_timestamp t2 -> t1 <> t2 ->
  let run1 := save_coefficients (LinearModel b1 coef1) f d t1 w in
  let run2 := save_coefficients (LinearModel b2 coef2) f d t2 (snd run1) in
  fst run1 = Ok p1 -> fst run2 = Ok p2 ->
  p1 <> p2
  /\ files (snd run2) !! p1
     = Some (CoeffTable (combine ("intercept"%string :: f) (b1 :: coef1)))
  /\ files (snd run2) !! p2
     = Some (CoeffTable (combine ("intercept"%string :: f) (b2 :: coef2)))
  /\ files (snd run2) !! path_join d header_name
     = Some (Text (header_text
                     (combine ("intercept"%string :: f) (b2 :: coef2)))).
Proof.
  intros Hv1 Hv2 Hne run1 run2 H1 H2.
  assert (Hrun : forall b coef t w0 p,
             fst (save_coefficients (LinearModel b coef) f d t w0) = Ok p ->
             p = path_join d (csv_name (LinearModel b coef) t)
             /\ files (snd (save_coefficients (LinearModel b coef) f d t w0))
                = <[path_join d header_name
                    := Text (header_text
                               (combine ("intercept"%string :: f)
                                  (b :: coef)))]>
                    (<[path_join d (csv_name (LinearModel b coef) t)
                       := CoeffTable (combine ("intercept"%string :: f)
                                        (b :: coef))]> (files w0))).
  { intros b coef t w0 p Hp.
    destruct (data_frame_cases ("intercept"%string :: f) (b :: coef))
      as [[_ Htable]|[_ Htable]].
    - destruct (save_linear_outcome b coef f d t w0 _ Htable)
        as (w1 & _ & _ & _ & [([msg Hfail] & _)|(Hok & Hf & _ & _)]).
      + rewrite Hfail in Hp. discriminate Hp.
      + rewrite Hok in Hp. injection Hp as <-. auto.
    - destruct (save_mismatch_outcome b coef f d t w0 _ Htable)
        as [_ [[msg Hfail]|Hfail]]; rewrite Hfail in Hp; discriminate Hp. }
  destruct (Hrun b1 coef1 t1 w p1 H1) as [-> Hf1].
  destruct (Hrun b2 coef2 t2 (snd run1) p2 H2) as [-> Hf2].
  assert (Hcsv : path_join d (csv_name (LinearModel b2 coef2) t2)
                 <> path_join d (csv_name (LinearModel b1 coef1) t1)).
  { intros E. apply csv_path_stamp in E. apply Hne. symmetry.
    now apply strftime_inj. }
  split; [congruence|].
  unfold run2. rewrite Hf2. unfold run1. rewrite Hf1.
  split; [|split].
  - rewrite lookup_insert_ne by apply header_path_not_csv.
    rewrite lookup_insert_ne by exact Hcsv.
    rewrite lookup_insert_ne by apply header_path_not_csv.
    apply lookup_insert_eq.
  - rewrite lookup_insert_ne by apply header_path_not_csv.
    apply lookup_insert_eq.
  - apply lookup_insert_eq.
Qed.

(** X20.  Every file is written directly inside the output directory: its
    path is the directory, followed by a separator unless the directory is
    empty or ends with one, followed by a file name that contains no
    separator. *)
Theorem artifacts_inside_output_dir (m : Model) (f : list string)
    (d : string) (t : Timestamp) (p : string) :
  p ∈ written_paths m f d t ->
  exists name,
    p = dir_prefix d +:+ name /\ no_slash name = true
    /\ (dir_prefix d = d \/ dir_prefix d = d +:+ "/").
Proof.
  intros Hp.
  assert (Hpre : dir_prefix d = d \/ dir_prefix d = d +:+ "/").
  { unfold dir_prefix. destruct (String.eqb d "" || endswith d "/"); auto. }
  destruct (written_paths_cases m f d t p Hp) as [[_ ->]|[[_ ->]|[_ ->]]].
  - exists (csv_name m t).
    split; [apply path_join_relative, csv_name_relative|].
    split; [|exact Hpre].
    apply csv_name_no_slash.
  - exists header_name.
    split; [now apply path_join_relative|]. split; [reflexivity|exact Hpre].
  - exists (joblib_name m t).
    split; [apply path_join_relative, joblib_name_relative|].
    split; [|exact Hpre].
    apply joblib_name_no_slash.
Qed.

(** X21.  The time stamp in a file name has fifteen characters, and two
    clock readings in the range of pandas give the same stamp only if they
    are the same to the second. *)
Theorem strftime_identifies_second (t1 t2 : Timestamp) :
  valid_timestamp t1 -> valid_timestamp t2 ->
  String.length (strftime t1) = 15%nat
  /\ (strftime t1 = strftime t2 <-> t1 = t2).
Proof.
  intros H1 H2. split; [apply strftime_length|].
  split; [now apply strftime_inj | now intros ->].
Qed.

End ExporterEffects.

(** ** ArtifactExporter: the literals of the header *)

Section LiteralRoundTrip.

Import Literal.

(** X22.  The literal that the header gives for a coefficient reads back,
    as a decimal number, to a value within half a millionth of the
    coefficient. *)
Theorem header_literal_round_trip (x : Q) :
  exists y,
    parse_decimal (format_6f x) = Some y
    /\ Qabs (y - x) <= 1 # 2000000.
Proof. exact (format_6f_reads_back x). Qed.

End LiteralRoundTrip.

(** ** Instances *)

Section LoaderInstances.

Import Loader LoaderSpec Samples MoreSamples.

Lemma load_data_rows_witness :
  Forall (fun r => has_glucose r = true) (rows sample_loaded)
  /\ ForallOrdPairs
       (fun a b => row_eqb (columns (concat [morning; evening])) a b = false)
       (rows sample_loaded).
Proof.
  assert (H : fst (load_data sample_isdir sample_listdir sample_read_csv
                     sample_str_set "data/training") = Ok sample_loaded)
    by (vm_compute; reflexivity).
  destruct (load_data_rows sample_isdir sample_listdir sample_read_csv
              sample_str_set "data/training" sample_loaded H)
    as (data & Hread & _ & _ & Hg & Hd & _).
  assert (E : data = concat [morning; evening]).
  { vm_compute in Hread. injection Hread as <-. vm_compute. reflexivity. }
  subst data. split; assumption.
Defined.

(** Rows that agree in the five named columns and differ in another one
    are both kept; an exact repetition is dropped. *)
Example annotated_rows_kept :
  map others
    (rows (match fst (load_data (fun _ => false) (fun _ => [])
                        (fun _ => Ok annotated) sample_str_set
                        "data/annotated.csv") with
           | Ok df => df
           | Raise _ => mkFrame [] []
           end))
  = [[("note"%string, Textual "before breakfast")];
     [("note"%string, Textual "repeated")]].
Proof. vm_compute. reflexivity. Qed.

Lemma load_data_errors_witness :
  fst (load_data sample_isdir (fun _ => ["notes.txt"%string]) sample_read_csv
         sample_str_set "data/training")
  = Raise (ValueError "No valid CSV files found in directory").
Proof.
  apply (load_data_errors sample_isdir (fun _ => ["notes.txt"%string])
           sample_read_csv sample_str_set "data/training").
  left. repeat split; reflexivity.
Defined.

Lemma directory_load_reads_only_csv_witness :
  fst (load_data sample_isdir sample_listdir sample_read_csv_notes
         sample_str_set "data/training")
  = fst (load_data sample_isdir sample_listdir sample_read_csv sample_str_set
           "data/training").
Proof.
  assert (Hagree : forall f,
             In f (sample_listdir "data/training") ->
             endswith f ".csv" = true ->
             sample_read_csv_notes (path_join "data/training" f)
             = sample_read_csv (path_join "data/training" f)).
  { intros f Hf Hcsv. vm_compute in Hf.
    destruct Hf as [<-|[<-|[<-|[<-|[]]]]]; try reflexivity.
    vm_compute in Hcsv. discriminate Hcsv. }
  exact (directory_load_reads_only_csv sample_isdir sample_listdir
           sample_read_csv sample_str_set sample_read_csv_notes
           "data/training" eq_refl Hagree).
Defined.

End LoaderInstances.

Section PreprocessorInstances.

Import Preprocessor PreprocessorSpec Samples MoreSamples.

Lemma impute_replaces_missing_by_median_witness :
  Forall (fun r' => ratio r' <> None /\ variability r' <> None
                    /\ slope r' <> None) gappy_imputed.
Proof.
  assert (H : impute gappy_raw = Ok gappy_imputed)
    by (vm_compute; reflexivity).
  exact (proj2 (impute_replaces_missing_by_median gappy_raw gappy_imputed H)).
Defined.

Example gappy_imputed_values :
  map ratio gappy_imputed = [Some 1; Some (4 # 2); Some 3]
  /\ map variability gappy_imputed
     = [Some (1 # 2); Some (1 # 2); Some (4 # 8)]
  /\ map slope gappy_imputed = [Some (2 # 2); Some 0; Some 2]
  /\ map glucose gappy_imputed = [Some 100; Some 30; Some 120].
Proof. repeat split; vm_compute; reflexivity. Qed.

Lemma preprocess_data_needs_values_witness :
  exists msg,
    preprocess_data
      [mkRawRow "2024-03-02 08:00:00" (Some 1) (Some (1 # 2)) None (Some 100)]
    = Raise (ValueError msg).
Proof.
  apply (preprocess_data_needs_values
           [mkRawRow "2024-03-02 08:00:00" (Some 1) (Some (1 # 2)) None
              (Some 100)]).
  right. right. right.
  intros c [H|[]]. discriminate H.
Defined.

Lemma preprocess_data_keeps_order_witness :
  sublist (map (fun r => reading_key (raw r)) five_processed)
    (map reading_key five_raw).
Proof.
  assert (H : preprocess_data five_raw = Ok five_processed)
    by (vm_compute; reflexivity).
  exact (proj1 (preprocess_data_keeps_order five_raw five_processed H)).
Defined.

Lemma median_within_range_witness : 1 <= 4 # 2 /\ 4 # 2 <= 3.
Proof.
  apply (median_within_range [Some 1; None; Some 3] 1 3 (4 # 2)).
  - intros x [H|[H|[H|[]]]]; try discriminate H;
      injection H as <-; split; unfold Qle; simpl; lia.
  - vm_compute. reflexivity.
Defined.

Lemma quartiles_ordered_witness :
  sample_q1 <= sample_q3 /\ 100 <= sample_q1 /\ sample_q3 <= 103.
Proof.
  assert (H1 : quantile (1 # 4) glucose_column = Some sample_q1)
    by (vm_compute; reflexivity).
  assert (H3 : quantile (3 # 4) glucose_column = Some sample_q3)
    by (vm_compute; reflexivity).
  destruct (quartiles_ordered glucose_column sample_q1 sample_q3 100 103
              H1 H3) as (Hord & _ & _ & Hrange).
  split; [exact Hord|]. apply Hrange.
  intros x Hx. vm_compute in Hx.
  destruct Hx as [H|[H|[H|[H|[H|[]]]]]]; injection H as <-;
    split; unfold Qle; simpl; lia.
Defined.

Lemma remove_outliers_keeps_a_row_witness :
  remove_outliers five_rows outlier_columns default_factor <> [].
Proof.
  apply (remove_outliers_keeps_a_row outlier_columns five_rows).
  - vm_compute. discriminate.
  - intros r c Hr Hc. vm_compute in Hr.
    destruct Hr as [<-|[<-|[<-|[<-|[<-|[]]]]]]; destruct c;
      eexists; reflexivity.
Defined.

Lemma preprocess_data_nonempty_iff_witness : five_processed <> [].
Proof.
  assert (H : preprocess_data five_raw = Ok five_processed)
    by (vm_compute; reflexivity).
  apply (proj2 (preprocess_data_nonempty_iff five_raw five_processed H)).
  exists (reading "2024-03-01 08:00:00" 100).
  split; [left; reflexivity | reflexivity].
Defined.

End PreprocessorInstances.

Section ScalerInstances.

Import Scaler ScalerSpec MoreSamples.

Lemma sample_scaled_ok :
  fst (run_standardize sample_sqrt sample_train sample_test)
  = Ok (fst sample_scaled, snd sample_scaled).
Proof. vm_compute. reflexivity. Qed.

Lemma standardize_succeeds_iff_witness :
  Forall2 (fun r r' => List.length r' = List.length r) sample_train
    (fst sample_scaled).
Proof.
  exact (proj1 (proj2 (proj2 (standardize_succeeds_iff sample_sqrt
                                sample_train sample_test))
                  _ _ sample_scaled_ok)).
Defined.

Example sample_scaled_values :
  fst sample_scaled
  = [[Finite (-64 # 64); Finite (0 # 2)];
     [Finite (64 # 64); Finite (0 # 2)]].
Proof. vm_compute. reflexivity. Qed.

Example empty_test_matrix_refused :
  fst (run_standardize sample_sqrt sample_train [])
  = Raise (ValueError "Found array with 0 sample(s)").
Proof. vm_compute. reflexivity. Qed.

End ScalerInstances.

Section ExporterInstances.

Import Exporter ExporterSpec Literal Samples.

Lemma linear_export_general_witness :
  (exists e,
      fst (save_coefficients (LinearModel (1 # 2) [1; 2]) ["ratio"%string]
             "models/production" run_morning empty_world) = Raise e)
  /\ files (snd (save_coefficients (LinearModel (1 # 2) [1; 2])
                   ["ratio"%string] "models/production" run_morning
                   empty_world))
     = files empty_world
  /\ stdout (snd (save_coefficients (LinearModel (1 # 2) [1; 2])
                    ["ratio"%string] "models/production" run_morning
                    empty_world))
     = stdout empty_world.
Proof.
  destruct (linear_export_general (1 # 2) [1; 2] ["ratio"%string]
              "models/production" run_morning empty_world)
    as (_ & _ & H & _).
  apply H. simpl. lia.
Defined.

Example mismatch_raises_value_error :
  fst (save_coefficients (LinearModel (1 # 2) [1; 2]) ["ratio"%string]
         "models/production" run_morning empty_world)
  = Raise (ValueError "All arrays must be of the same length").
Proof. vm_compute. reflexivity. Qed.

Lemma second_export_replaces_header_witness :
  files (snd (save_coefficients (LinearModel 0 [9; 8; 7; 6; 5])
                feature_columns "models/production" run_evening
                (snd (save_coefficients linear_fit feature_columns
                        "models/production" run_morning empty_world))))
    !! path_join "models/production" header_name
  = Some (Text (header_text
                  (combine ("intercept"%string :: feature_columns)
                     [0; 9; 8; 7; 6; 5]))).
Proof.
  apply (second_export_replaces_header (1 # 2) 0 [1; 2; 3; 4; 5]
           [9; 8; 7; 6; 5] feature_columns "models/production"
           run_morning run_evening empty_world
           "models/production/LinearRegression_coeff_20240301_080000.csv"
           "models/production/LinearRegression_coeff_20240301_200000.csv").
  - unfold valid_timestamp, run_morning; simpl; lia.
  - unfold valid_timestamp, run_evening; simpl; lia.
  - discriminate.
  - vm_compute. reflexivity.
  - vm_compute. reflexivity.
Defined.

Lemma artifacts_inside_output_dir_witness :
  exists name,
    "models/production/model_coefficients.h"%string
    = dir_prefix "models/production" +:+ name
    /\ no_slash name = true
    /\ (dir_prefix "models/production" = "models/production"%string
        \/ dir_prefix "models/production" = "models/production" +:+ "/").
Proof.
  apply (artifacts_inside_output_dir linear_fit feature_columns
           "models/production" run_morning).
  apply (bool_decide_unpack _). vm_compute. exact I.
Defined.

Lemma strftime_identifies_second_witness :
  String.length (strftime run_morning) = 15%nat
  /\ (strftime run_morning = strftime run_evening
      <-> run_morning = run_evening).
Proof.
  apply (strftime_identifies_second run_morning run_evening).
  - unfold valid_timestamp, run_morning; simpl; lia.
  - unfold valid_timestamp, run_evening; simpl; lia.
Defined.

Example literal_sample :
  format_6f (- (1 # 3)) = "-0.333333"%string
  /\ match parse_decimal "-0.333333" with
     | Some y => Qeq_bool y (- (333333 # 1000000))
     | None => false
     end = true
  /\ parse_decimal "0.5x" = None.
Proof. repeat split; vm_compute; reflexivity. Qed.

End ExporterInstances.
